(** * Miami Beach Resort API: booking aggregation core

    A shallow embedding of the booking aggregation code of the
    repository (the v6.5 server, and the earlier [index.js] server where
    a property concerns it) together with the properties stated about it.

    Layout:
    - [Js]      : JavaScript values as the code sees them (JSON payloads,
                  query-string values, IEEE doubles, truthiness, [===],
                  SameValueZero, [parseFloat], [parseInt]);
    - [JsDate]  : the part of [Date] the code uses, over an explicit host
                  time zone;
    - [Api]     : the process state, the upstream as an oracle, the
                  error/state monad, [fetchBeds24] and
                  [fetchAllBookingPages];
    - [Views]   : the request handlers;
    - [Legacy]  : the de-duplication of [index.js];
    - [Props]   : the vocabulary of the properties and sample inputs;
    - [Listing] : the listing, single-booking, batch and dashboard
                  handlers of the v6.5 server;
    - [Cache]   : the booking cache update of the v4.0 server;
    - [Auth]    : the check of one-time codes;
    - [MoreProps] : the vocabulary of the further properties;
    - the properties, section by section. *)

From Stdlib Require Import ZArith List String Ascii Bool Lia.
From Stdlib Require Import Floats.SpecFloat.
From Equations Require Import Equations.
Import ListNotations.

Set Implicit Arguments.
Set Warnings "-register-all".
Open Scope string_scope.
Open Scope list_scope.
Open Scope Z_scope.

(* ================================================================== *)
(** * JavaScript values *)
(* ================================================================== *)

Module Js.

(** A JavaScript number is an IEEE 754 binary64 value. *)
Definition number := spec_float.

Definition prec : Z := 53.
Definition emax : Z := 1024.

Definition NaN : number := S754_nan.
Definition pzero : number := S754_zero false.
Definition num_add : number -> number -> number := SFadd prec emax.
Definition num_sub : number -> number -> number := SFsub prec emax.

(** The double nearest to an integer. *)
Definition num_of_Z (z : Z) : number := binary_normalize prec emax z 0 false.

(** The double nearest to the fraction [m / d] (ties to even). *)
Definition num_of_ratio (m d : positive) : number :=
  let '(q, e, l) := SFdiv_core_binary prec emax (Zpos m) 0 (Zpos d) 0 in
  binary_round_aux prec emax false q e l.

Definition is_nan (x : number) : bool :=
  match x with S754_nan => true | _ => false end.

Definition is_zero (x : number) : bool :=
  match x with S754_zero _ => true | _ => false end.

(** Values decoded from JSON, plus [undefined] for absent properties.
    Objects keep their properties in an association list. *)
Inductive Value : Type :=
| VUndefined
| VNull
| VBool (b : bool)
| VNum (x : number)
| VStr (s : string)
| VArr (items : list Value)
| VObj (fields : list (string * Value)).

(** What Express puts in [req.query]: a string, or an array or object
    built by the query-string parser, or nothing. *)
Inductive QValue : Type :=
| QUndefined
| QStr (s : string)
| QArr (items : list QValue)
| QObj (fields : list (string * QValue)).

Fixpoint value_of_q (q : QValue) : Value :=
  match q with
  | QUndefined => VUndefined
  | QStr s => VStr s
  | QArr items => VArr (map value_of_q items)
  | QObj fields => VObj (map (fun kv => (fst kv, value_of_q (snd kv))) fields)
  end.

(** Exceptions: the constructor used and the argument it was given
    (JavaScript turns the argument into the [message] string). *)
Inductive ExnKind := KError | KTypeError | KSyntaxError.

Record Exn : Type := mkExn { exn_kind : ExnKind; exn_message : Value }.

Inductive Res (A : Type) : Type :=
| Ret (a : A)
| Throw (e : Exn).
Arguments Ret {A} a.
Arguments Throw {A} e.

Definition res_bind {A B} (r : Res A) (k : A -> Res B) : Res B :=
  match r with
  | Ret a => k a
  | Throw e => Throw e
  end.

Declare Scope res_scope.
Delimit Scope res_scope with res.
Notation "x <- r ;; k" := (res_bind r (fun x => k))
  (at level 61, r at next level, right associativity) : res_scope.

(** ** Property access *)

Fixpoint assoc {A} (k : string) (l : list (string * A)) : option A :=
  match l with
  | [] => None
  | (k', v) :: rest => if String.eqb k k' then Some v else assoc k rest
  end.

(** [o.k] for the property names the code reads ([data], [pages],
    [nextPageExists], [success], [error], [id], [status], [arrival],
    [departure], [price], [deposit], [propertyId]): none of them is an
    own property of an array, a string, a number or a boolean.  The
    messages are those of V8. *)
Definition prop (o : Value) (k : string) : Res Value :=
  match o with
  | VUndefined =>
      Throw (mkExn KTypeError
               (VStr ("Cannot read properties of undefined (reading '" ++ k ++ "')")%string))
  | VNull =>
      Throw (mkExn KTypeError
               (VStr ("Cannot read properties of null (reading '" ++ k ++ "')")%string))
  | VObj fields =>
      match assoc k fields with
      | Some v => Ret v
      | None => Ret VUndefined
      end
  | VBool _ | VNum _ | VStr _ | VArr _ => Ret VUndefined
  end.

(** [o[k] = v] / object spread followed by a property: an existing key
    keeps its place, a new key goes last. *)
Fixpoint obj_set {A} (l : list (string * A)) (k : string) (v : A) : list (string * A) :=
  match l with
  | [] => [(k, v)]
  | (k', v') :: rest =>
      if String.eqb k k' then (k', v) :: rest else (k', v') :: obj_set rest k v
  end.

(** ** Truthiness, [||], [===], SameValueZero *)

Definition truthy (v : Value) : bool :=
  match v with
  | VUndefined | VNull => false
  | VBool b => b
  | VNum x => negb (is_nan x || is_zero x)
  | VStr s => negb (String.eqb s "")
  | VArr _ | VObj _ => true
  end.

Definition q_truthy (q : QValue) : bool := truthy (value_of_q q).

(** [a || b] *)
Definition or_else (a b : Value) : Value := if truthy a then a else b.

(** [a === b].  Two arrays or objects are equal only when they are the
    same object; every array or object compared in this code comes from
    a separate JSON or query-string decoding, so they never are. *)
Definition strict_eq (a b : Value) : bool :=
  match a, b with
  | VUndefined, VUndefined => true
  | VNull, VNull => true
  | VBool x, VBool y => Bool.eqb x y
  | VNum x, VNum y => SFeqb x y
  | VStr x, VStr y => String.eqb x y
  | _, _ => false
  end.

(** Key equality of [Map] and [Set]: like [===] but NaN equals NaN. *)
Definition same_value_zero (a b : Value) : bool :=
  match a, b with
  | VNum x, VNum y => SFeqb x y || (is_nan x && is_nan y)
  | _, _ => strict_eq a b
  end.

(** ** [Array.prototype.concat], [filter] with a callback that may throw *)

Definition concat_value (acc : list Value) (v : Value) : list Value :=
  match v with
  | VArr items => acc ++ items
  | _ => acc ++ [v]
  end.

Fixpoint filterM {A} (p : A -> Res bool) (l : list A) : Res (list A) :=
  match l with
  | [] => Ret []
  | x :: rest =>
      (b <- p x ;;
       rest' <- filterM p rest ;;
       Ret (if b then x :: rest' else rest'))%res
  end.

Fixpoint foldM {A S} (f : S -> A -> Res S) (l : list A) (s : S) : Res S :=
  match l with
  | [] => Ret s
  | x :: rest => (s' <- f s x ;; foldM f rest s')%res
  end.

(** ** The string form of a value

    [String(v)], and the conversions hidden in [parseFloat(v)], in
    [url.searchParams.append(k, v)] and in [v + 'text'], ask the value
    for its string form.  Every value decoded from JSON or from a query
    string has one, except an object with a property of its own called
    [toString] (the property is never a function, and the [valueOf] the
    object inherits gives back the object), and an array that holds
    such an object: for these the engine throws a TypeError. *)
Fixpoint has_string_form (v : Value) : bool :=
  match v with
  | VObj fields =>
      match assoc "toString" fields with
      | Some _ => false
      | None => true
      end
  | VArr items => forallb has_string_form items
  | _ => true
  end.

Definition no_string_form : Exn :=
  mkExn KTypeError (VStr "Cannot convert object to primitive value").

(** [new Error(v)]: the constructor turns its argument into the message
    string, and throws itself when the argument has no string form. *)
Definition new_Error (v : Value) : Exn :=
  if has_string_form v then mkExn KError v else no_string_form.

(** ** Strings to numbers *)

(** A string holds the UTF-8 bytes of its text.  The white space that
    [parseFloat] and [parseInt] skip: tab, line feed, vertical tab, form
    feed, carriage return and space, and beyond ASCII U+00A0 (bytes C2
    A0), U+1680 (E1 9A 80), U+2000 to U+200A (E2 80 80 to 8A), U+2028
    and U+2029 (E2 80 A8, A9), U+202F (E2 80 AF), U+205F (E2 81 9F),
    U+3000 (E3 80 80) and U+FEFF (EF BB BF). *)
Definition is_ws (c : ascii) : bool :=
  let n := nat_of_ascii c in
  (Nat.eqb n 9 || Nat.eqb n 10 || Nat.eqb n 11 || Nat.eqb n 12
   || Nat.eqb n 13 || Nat.eqb n 32)%bool.

Definition byte_is (c : ascii) (n : nat) : bool := Nat.eqb (nat_of_ascii c) n.

(** What follows one white space character at the head of [s], if
    there is one. *)
Definition after_ws (s : string) : option string :=
  match s with
  | String c rest =>
      if is_ws c then Some rest
      else
        match rest with
        | String c2 rest2 =>
            if byte_is c 194 && byte_is c2 160 then Some rest2
            else
              match rest2 with
              | String c3 rest3 =>
                  let n2 := nat_of_ascii c2 in
                  let n3 := nat_of_ascii c3 in
                  if (byte_is c 225 && byte_is c2 154 && byte_is c3 128)
                     || (byte_is c 226 && byte_is c2 128
                         && ((Nat.leb 128 n3 && Nat.leb n3 138)
                             || Nat.eqb n3 168 || Nat.eqb n3 169 || Nat.eqb n3 175))
                     || (byte_is c 226 && byte_is c2 129 && byte_is c3 159)
                     || (byte_is c 227 && byte_is c2 128 && byte_is c3 128)
                     || (byte_is c 239 && byte_is c2 187 && byte_is c3 191)
                  then Some rest3
                  else None
              | EmptyString => None
              end
        | EmptyString => None
        end
  | EmptyString => None
  end.

Fixpoint skip_ws_upto (fuel : nat) (s : string) : string :=
  match fuel with
  | O => s
  | S fuel' =>
      match after_ws s with
      | Some rest => skip_ws_upto fuel' rest
      | None => s
      end
  end.

(** Every white space character is at least one byte, so the length of
    the string is fuel enough. *)
Definition skip_ws (s : string) : string := skip_ws_upto (String.length s) s.

Definition digit_of (c : ascii) : option Z :=
  let n := Z.of_nat (nat_of_ascii c) in
  if (48 <=? n) && (n <=? 57) then Some (n - 48) else None.

Definition hex_digit_of (c : ascii) : option Z :=
  let n := Z.of_nat (nat_of_ascii c) in
  if (48 <=? n) && (n <=? 57) then Some (n - 48)
  else if (97 <=? n) && (n <=? 102) then Some (n - 87)
  else if (65 <=? n) && (n <=? 70) then Some (n - 55)
  else None.

(** Reads the longest run of digits: the value read so far, how many
    digits were read, and the rest of the string. *)
Fixpoint read_digits (digit : ascii -> option Z) (radix : Z)
         (s : string) (acc : Z) (count : Z) : Z * Z * string :=
  match s with
  | String c rest =>
      match digit c with
      | Some d => read_digits digit radix rest (acc * radix + d) (count + 1)
      | None => (acc, count, s)
      end
  | EmptyString => (acc, count, s)
  end.

(** An optional sign: [true] for a minus. *)
Definition read_sign (s : string) : bool * string :=
  match s with
  | String "-"%char rest => (true, rest)
  | String "+"%char rest => (false, rest)
  | _ => (false, s)
  end.

Definition signed (neg : bool) (x : number) : number :=
  if neg then SFopp x else x.

(** The double denoted by the decimal [m * 10^e], [m >= 0]. *)
Definition num_of_decimal (m e : Z) : number :=
  match m with
  | Zpos p =>
      match e with
      | Zneg k => num_of_ratio p (Pos.pow 10 k)
      | _ => num_of_Z (m * 10 ^ e)
      end
  | _ => pzero
  end.

(** The exponent part of a decimal literal; it is read only when at
    least one digit follows the [e]. *)
Definition read_exponent (s : string) : Z :=
  match s with
  | String c rest =>
      if (Ascii.eqb c "e" || Ascii.eqb c "E")%bool then
        let '(neg, rest1) := read_sign rest in
        let '(v, n, _) := read_digits digit_of 10 rest1 0 0 in
        if 0 <? n then (if neg then - v else v) else 0
      else 0
  | EmptyString => 0
  end.

(** [parseFloat] on a string: leading white space, then the longest
    prefix that is a decimal literal; NaN when there is none. *)
Definition parseFloat_string (s : string) : number :=
  let '(neg, body) := read_sign (skip_ws s) in
  if String.prefix "Infinity" body then signed neg (S754_infinity false)
  else
    let '(ip, ni, after_int) := read_digits digit_of 10 body 0 0 in
    let '(fp, nf, after_frac) :=
      match after_int with
      | String "."%char rest => read_digits digit_of 10 rest ip 0
      | _ => (ip, 0, after_int)
      end in
    if (ni + nf =? 0) then NaN
    else signed neg (num_of_decimal fp (read_exponent after_frac - nf)).

(** [parseFloat(v)] for a value that has a string form: the argument
    is first turned into a string.  A
    number prints to a string that reads back as itself (minus zero
    prints as [0]); [undefined], [null], booleans and plain objects
    print to words that are no number.  An array prints as its elements
    joined by commas, so it reads as its first element does. *)
Fixpoint parseFloat_of_form (v : Value) : number :=
  match v with
  | VNum x => if is_zero x then pzero else x
  | VStr s => parseFloat_string s
  | VArr (VStr s :: _) => parseFloat_string s
  | VArr (VNum x :: _) => if is_zero x then pzero else x
  | VArr ((VArr _ as inner) :: _) => parseFloat_of_form inner
  | _ => NaN
  end.

(** A value with no string form makes [parseFloat] throw. *)
Definition parseFloat (v : Value) : Res number :=
  if has_string_form v then Ret (parseFloat_of_form v) else Throw no_string_form.

(** [x || 0] on numbers. *)
Definition num_or_zero (x : number) : number :=
  if truthy (VNum x) then x else pzero.

(** [x || y] on numbers. *)
Definition num_or_zero_else (x y : number) : number :=
  if truthy (VNum x) then x else y.

(** The string form of a query-string value that has one. *)
Fixpoint q_string_form (q : QValue) : string :=
  match q with
  | QUndefined => "undefined"
  | QStr s => s
  | QArr items =>
      (fix join (l : list QValue) : string :=
         match l with
         | [] => ""
         | [x] => match x with QUndefined => "" | _ => q_string_form x end
         | x :: rest =>
             ((match x with QUndefined => "" | _ => q_string_form x end)
                ++ "," ++ join rest)%string
         end) items
  | QObj _ => "[object Object]"
  end.

(** [String(q)], and [q + 'text'] up to the text appended. *)
Definition q_to_string (q : QValue) : Res string :=
  if has_string_form (value_of_q q) then Ret (q_string_form q) else Throw no_string_form.

(** [parseInt(s)] with no radix: white space, sign, an optional [0x],
    then digits.  [None] stands for NaN.  This is the integer the
    digits denote; [parseInt] returns the double nearest to it (see
    [calendar_days]). *)
Definition parseInt_string (s : string) : option Z :=
  let '(neg, body) := read_sign (skip_ws s) in
  let '(v, n, _) :=
    match body with
    | String "0"%char (String c rest) =>
        if (Ascii.eqb c "x" || Ascii.eqb c "X")%bool
        then read_digits hex_digit_of 16 rest 0 0
        else read_digits digit_of 10 body 0 0
    | _ => read_digits digit_of 10 body 0 0
    end in
  if 0 <? n then Some (if neg then - v else v) else None.

End Js.

(* ================================================================== *)
(** * Dates *)
(* ================================================================== *)

Module JsDate.
Import Js.

Definition msPerDay : Z := 86400000.
Definition msPerHour : Z := 3600000.

(** ** The proleptic Gregorian calendar, in days since 1970-01-01 *)

(** Day number of the civil date [y]-[m]-[d] ([m] from 1 to 12). *)
Definition days_from_civil (y m d : Z) : Z :=
  let y' := if m <=? 2 then y - 1 else y in
  let era := y' / 400 in
  let yoe := y' - era * 400 in
  let mp := if 2 <? m then m - 3 else m + 9 in
  let doy := (153 * mp + 2) / 5 + d - 1 in
  let doe := yoe * 365 + yoe / 4 - yoe / 100 + doy in
  era * 146097 + doe - 719468.

(** Year, month (1 to 12) and day of the month of a day number. *)
Definition civil_from_days (z : Z) : Z * Z * Z :=
  let z' := z + 719468 in
  let era := z' / 146097 in
  let doe := z' - era * 146097 in
  let yoe := (doe - doe / 1460 + doe / 36524 - doe / 146096) / 365 in
  let doy := doe - (365 * yoe + yoe / 4 - yoe / 100) in
  let mp := (5 * doy + 2) / 153 in
  let d := doy - (153 * mp + 2) / 5 + 1 in
  let m := if mp <? 10 then mp + 3 else mp - 9 in
  let y := yoe + era * 400 in
  (if m <=? 2 then y + 1 else y, m, d).

Definition Day (t : Z) : Z := t / msPerDay.
Definition TimeWithinDay (t : Z) : Z := t mod msPerDay.

Definition YearFromTime (t : Z) : Z := fst (fst (civil_from_days (Day t))).
(** Months count from 0, as in ECMAScript. *)
Definition MonthFromTime (t : Z) : Z := snd (fst (civil_from_days (Day t))) - 1.
Definition DateFromTime (t : Z) : Z := snd (civil_from_days (Day t)).

(** [MakeDay(year, month, date)]: the month may lie outside 0..11 and
    the date outside the month; both carry over. *)
Definition MakeDay (year month date : Z) : Z :=
  let ym := year + month / 12 in
  let mn := month mod 12 in
  days_from_civil ym (mn + 1) 1 + date - 1.

Definition MakeDate (day time : Z) : Z := day * msPerDay + time.

(** [TimeClip]: a time value beyond 8.64e15 ms is an invalid date. *)
Definition TimeClip (t : Z) : option Z :=
  if Z.abs t <=? 8640000000000000 then Some t else None.

(** ** Time zones *)

(** A time zone gives the offset from UTC, in milliseconds, in force at
    a UTC instant, and the offset to use for a local time (where a local
    time is skipped or repeated, the offset before the transition). *)
Record TimeZone : Type := mkTimeZone {
  offset_at_utc : Z -> Z;
  offset_at_local : Z -> Z
}.

Definition fixed_zone (offset_ms : Z) : TimeZone :=
  mkTimeZone (fun _ => offset_ms) (fun _ => offset_ms).

Definition utc_zone : TimeZone := fixed_zone 0.

(** A zone with one spell of another offset between two UTC instants
    (daylight saving time in a given year). *)
Definition zone_with_dst (std dst : Z) (dst_begin dst_end : Z) : TimeZone :=
  mkTimeZone
    (fun t => if (dst_begin <=? t) && (t <? dst_end) then dst else std)
    (fun tl =>
       if tl <? dst_begin + dst then std
       else if tl <? dst_end + dst then dst
       else std).

(** A zone given by its changes of offset, oldest first: [current] is
    in force until the first change, and each change gives the UTC
    instant from which its offset is in force. *)
Fixpoint offset_after (changes : list (Z * Z)) (current : Z) (t : Z) : Z :=
  match changes with
  | [] => current
  | (instant, offset) :: later =>
      if t <? instant then current else offset_after later offset t
  end.

Fixpoint local_offset_after (changes : list (Z * Z)) (current : Z) (tl : Z) : Z :=
  match changes with
  | [] => current
  | (instant, offset) :: later =>
      if tl <? instant + Z.max current offset then current
      else local_offset_after later offset tl
  end.

Definition zone_of_changes (first : Z) (changes : list (Z * Z)) : TimeZone :=
  mkTimeZone (offset_after changes first) (local_offset_after changes first).

(** A time of day and a UTC instant, in ms. *)
Definition hms (h m s : Z) : Z := ((h * 60 + m) * 60 + s) * 1000.

Definition at_utc (y mo d h mi s : Z) : Z := MakeDate (days_from_civil y mo d) (hms h mi s).

(** Asia/Dhaka, as the time zone database has it: local mean time
    (+6:01:40) until 1890, +5:53:20 until October 1941, +6:30 until 15
    May 1942, +5:30 until September 1942, +6:30 until 30 September
    1951, +6 since then, and +7 from 2009-06-19 23:00 to the end of
    2009. *)
Definition dhaka_zone : TimeZone :=
  zone_of_changes (hms 6 1 40)
    [(at_utc 1889 12 31 17 58 20, hms 5 53 20);
     (at_utc 1941 9 30 18 6 40, hms 6 30 0);
     (at_utc 1942 5 14 17 30 0, hms 5 30 0);
     (at_utc 1942 8 31 18 30 0, hms 6 30 0);
     (at_utc 1951 9 29 17 30 0, hms 6 0 0);
     (at_utc 2009 6 19 17 0 0, hms 7 0 0);
     (at_utc 2009 12 31 17 0 0, hms 6 0 0)].

(** America/New_York during 2024: UTC-5, and UTC-4 from 2024-03-10
    07:00 UTC to 2024-11-03 06:00 UTC. *)
Definition new_york_2024 : TimeZone :=
  zone_with_dst (- 5 * msPerHour) (- 4 * msPerHour)
    (MakeDate (days_from_civil 2024 3 10) (7 * msPerHour))
    (MakeDate (days_from_civil 2024 11 3) (6 * msPerHour)).

Definition LocalTime (tz : TimeZone) (t : Z) : Z := t + offset_at_utc tz t.
Definition UTC (tz : TimeZone) (tl : Z) : Z := tl - offset_at_local tz tl.

(** ** Date objects *)

(** A [Date] holds a time value in ms since the epoch, or is invalid. *)
Definition Date := option Z.

(** [date.getDate()]: the day of the month in the host's zone
    ([None] for NaN). *)
Definition getDate (host : TimeZone) (d : Date) : option Z :=
  match d with
  | Some t => Some (DateFromTime (LocalTime host t))
  | None => None
  end.

(** [date.setDate(dt)]: replaces the day of the month in the host's
    zone and keeps the host-local time of day. *)
Definition setDate (host : TimeZone) (d : Date) (dt : option Z) : Date :=
  match d, dt with
  | Some t, Some dt =>
      let tl := LocalTime host t in
      let newDate :=
        MakeDate (MakeDay (YearFromTime tl) (MonthFromTime tl) dt)
                 (TimeWithinDay tl) in
      TimeClip (UTC host newDate)
  | _, _ => None
  end.

(** ** Reading and printing dates *)

Definition two_digits (s : string) : option (Z * string) :=
  match s with
  | String a (String b rest) =>
      match digit_of a, digit_of b with
      | Some x, Some y => Some (10 * x + y, rest)
      | _, _ => None
      end
  | _ => None
  end.

Definition four_digits (s : string) : option (Z * string) :=
  match two_digits s with
  | Some (hi, rest) =>
      match two_digits rest with
      | Some (lo, rest') => Some (100 * hi + lo, rest')
      | None => None
      end
  | None => None
  end.

(** The year of a date in the ECMAScript date-time format: four
    digits, or a sign and six digits ([-000000] is no year). *)
Definition iso_year (s : string) : option (Z * string) :=
  match s with
  | String "+"%char r =>
      match two_digits r with
      | Some (hi, r') =>
          match four_digits r' with
          | Some (lo, rest) => Some (10000 * hi + lo, rest)
          | None => None
          end
      | None => None
      end
  | String "-"%char r =>
      match two_digits r with
      | Some (hi, r') =>
          match four_digits r' with
          | Some (lo, rest) =>
              if 10000 * hi + lo =? 0 then None else Some (- (10000 * hi + lo), rest)
          | None => None
          end
      | None => None
      end
  | _ => four_digits s
  end.

(** What follows the year: [-MM-DD], [-MM] (the first of the month) or
    nothing (the first of January). *)
Definition iso_month_day (s : string) : option (Z * Z * string) :=
  match s with
  | String "-"%char r1 =>
      match two_digits r1 with
      | Some (m, String "-"%char r2) =>
          match two_digits r2 with
          | Some (d, rest) => Some (m, d, rest)
          | None => None
          end
      | Some (m, rest) => Some (m, 1, rest)
      | None => None
      end
  | _ => Some (1, 1, s)
  end.

(** [new Date(s)] for the strings the code builds, a date from the
    request followed by [T00:00:00+06:00]: the date is read in the
    forms of the ECMAScript date-time format, [YYYY], [YYYY-MM] and
    [YYYY-MM-DD], the year also with a sign and six digits.  As in V8,
    a day up to 31 is accepted in every month and carries over.  A
    string in none of these forms goes to the engine's own fallback
    parser, which the specification leaves open; it is taken here as an
    invalid date. *)
Definition parse_midnight_plus6 (s : string) : Date :=
  match iso_year s with
  | Some (y, r) =>
      match iso_month_day r with
      | Some (m, d, rest) =>
          if String.eqb rest "T00:00:00+06:00"
             && (1 <=? m) && (m <=? 12) && (1 <=? d) && (d <=? 31)
          then TimeClip (MakeDate (MakeDay y (m - 1) d) 0 - 6 * msPerHour)
          else None
      | None => None
      end
  | None => None
  end.

Definition digit_char (d : Z) : ascii := ascii_of_nat (Z.to_nat (48 + d)).

Fixpoint decimal_digits (fuel : nat) (n : Z) (acc : string) : string :=
  match fuel with
  | O => acc
  | S fuel' =>
      let acc' := String (digit_char (n mod 10)) acc in
      if n <? 10 then acc' else decimal_digits fuel' (n / 10) acc'
  end.

(** A natural number in decimal. *)
Definition decimal (n : Z) : string :=
  decimal_digits (S (Z.to_nat (Z.log2 n))) n "".

Definition pad2 (n : Z) : string :=
  String (digit_char (n / 10)) (String (digit_char (n mod 10)) "").

(** [date.toLocaleDateString('en-CA', { timeZone })]: [y-MM-dd] in the
    given zone (years of the common era). *)
Definition toLocaleDateString_en_CA (tz : TimeZone) (d : Date) : string :=
  match d with
  | Some t =>
      let '(y, m, dd) := civil_from_days (Day (LocalTime tz t)) in
      (decimal y ++ "-" ++ pad2 m ++ "-" ++ pad2 dd)%string
  | None => "Invalid Date"
  end.

End JsDate.

(* ================================================================== *)
(** * The upstream client and the page walker *)
(* ================================================================== *)

Module Api.
Import Js.

Definition BEDS24_API_URL : string := "https://api.beds24.com/v2".
Definition BEDS24_PROXY_FALLBACK : string :=
  "https://beds24-proxy-1006186358018.us-central1.run.app".
Definition PROPERTY_ID : Value := VNum (num_of_Z 279646).

(** ** The world outside the process *)

(** Which of the two [fetch] calls a request comes from: the one of
    [fetchBeds24Direct] or the one of [fetchBeds24ViaProxy]. *)
Inductive Route := Direct | Proxy.

(** A request as handed to [fetch]: [url] is the text the helper
    starts from (the generic proxy URL carries the endpoint in a query
    string of its own, as the template wrote it), and [query] the
    parameters the helper appends to it with [searchParams.append], in
    order.  The appended values are kept as values; the URL holds their
    string form. *)
Record HttpRequest : Type := mkRequest {
  route : Route;
  url : string;
  query : list (string * Value);
  method : string;
  token_header : option string;
  body : option Value
}.

(** What [fetch] followed by [response.json()] can give: [fetch]
    rejects, the body is no JSON, or a decoded payload. *)
Inductive HttpReply : Type :=
| NetworkError (message : string)
| NotJson (status : Z) (message : string)
| JsonReply (status : Z) (payload : Value).

(** What the process does that can be seen from outside, newest first:
    requests, the pause between pages, and the progress line the page
    walker logs before each page. *)
Inductive Event : Type :=
| EvHttp (req : HttpRequest)
| EvDelay (ms : Z)
| EvLogPage (page : Z).

(** The upstream answers a request knowing everything that happened
    before it. *)
Definition Upstream := list Event -> HttpRequest -> HttpReply.

(** The state of the process: the module-level [useDirectApi], the
    environment variable holding the read token, the clock, and the
    trace.  Console output other than the page line, the rate-limit
    record and the load-time stamps do not influence any result and are
    left out. *)
Record World : Type := mkWorld {
  useDirectApi : bool;
  env_BEDS24_READ_TOKEN : option string;
  now : Z;
  trace : list Event;
  upstream : Upstream
}.

Definition set_useDirectApi (b : bool) (w : World) : World :=
  mkWorld b (env_BEDS24_READ_TOKEN w) (now w) (trace w) (upstream w).

Definition emit (e : Event) (w : World) : World :=
  mkWorld (useDirectApi w) (env_BEDS24_READ_TOKEN w) (now w)
          (e :: trace w) (upstream w).

(** ** The monad of request handling: state and exceptions *)

Definition M (A : Type) : Type := World -> Res A * World.

Definition ret {A} (a : A) : M A := fun w => (Ret a, w).
Definition throw {A} (e : Exn) : M A := fun w => (Throw e, w).
Definition lift {A} (r : Res A) : M A := fun w => (r, w).

Definition bind {A B} (m : M A) (k : A -> M B) : M B :=
  fun w =>
    match m w with
    | (Ret a, w') => k a w'
    | (Throw e, w') => (Throw e, w')
    end.

(** [try { m } catch (error) { handler(error) }] *)
Definition try_catch {A} (m : M A) (handler : Exn -> M A) : M A :=
  fun w =>
    match m w with
    | (Ret a, w') => (Ret a, w')
    | (Throw e, w') => handler e w'
    end.

Declare Scope m_scope.
Delimit Scope m_scope with m.
Notation "x <- m ;; k" := (bind m (fun x => k))
  (at level 61, m at next level, right associativity) : m_scope.
Notation "m ;;; k" := (bind m (fun _ => k))
  (at level 61, right associativity) : m_scope.

Definition tell (e : Event) : M unit := fun w => (Ret tt, emit e w).

(** [await fetch(...)] then [await response.json()]. *)
Definition fetch_json (req : HttpRequest) : M (Z * Value) :=
  fun w =>
    let reply := upstream w (trace w) req in
    let w' := emit (EvHttp req) w in
    match reply with
    | NetworkError msg => (Throw (mkExn KTypeError (VStr msg)), w')
    | NotJson _ msg => (Throw (mkExn KSyntaxError (VStr msg)), w')
    | JsonReply status payload => (Ret (status, payload), w')
    end.

(** [await new Promise(resolve => setTimeout(resolve, ms))] *)
Definition sleep (ms : Z) : M unit := tell (EvDelay ms).

(** ** Tokens *)

Definition built_in_read_token : string := "(read token literal)".

(** [process.env.BEDS24_READ_TOKEN || '...'] *)
Definition BEDS24_READ_TOKEN (w : World) : string :=
  match env_BEDS24_READ_TOKEN w with
  | Some s => if String.eqb s "" then built_in_read_token else s
  | None => built_in_read_token
  end.

Definition getReadToken : M string := fun w => (Ret (BEDS24_READ_TOKEN w), w).
Definition getToken : M string := getReadToken.

(** ** [fetchBeds24Direct], [fetchBeds24ViaProxy], [fetchBeds24] *)

(** What the upstream helpers return: [{ data, status }]. *)
Record FetchResult : Type := mkFetchResult { data : Value; status : Z }.

(** [value !== undefined && value !== null && value !== ''] *)
Definition non_empty (v : Value) : bool :=
  negb (strict_eq v VUndefined) && negb (strict_eq v VNull)
  && negb (strict_eq v (VStr "")).

Definition request_body (body : Value) (method : string) : option Value :=
  if truthy body && negb (String.eqb method "GET") then Some body else None.

(** The request [fetchBeds24Direct] builds: the parameters go into the
    URL for GET only. *)
Definition direct_request (endpoint : string) (params : list (string * Value))
           (method : string) (body : Value) (token : string) : HttpRequest :=
  mkRequest Direct (BEDS24_API_URL ++ "/" ++ endpoint)%string
            (if String.eqb method "GET"
             then filter (fun kv => non_empty (snd kv)) params
             else [])
            method (Some token) (request_body body method).

(** [url.searchParams.append(key, value)], for each parameter kept,
    writes the string form of the value into the URL; it throws for a
    value that has none, and then nothing is handed to [fetch]. *)
Definition sendable (req : HttpRequest) : bool :=
  forallb (fun kv => has_string_form (snd kv)) (query req).

Definition append_all (req : HttpRequest) : Res HttpRequest :=
  if sendable req then Ret req else Throw no_string_form.

Definition fetchBeds24Direct (endpoint : string) (params : list (string * Value))
           (method : string) (body : Value) (token : string) : M FetchResult :=
  (req <- lift (append_all (direct_request endpoint params method body token)) ;;
   r <- fetch_json req ;;
   let '(status, data) := r in
   success <- lift (prop data "success") ;;
   error <- lift (prop data "error") ;;
   if strict_eq success (VBool false) || truthy error then
     throw (new_Error (or_else error (VStr "API request failed")))
   else ret (mkFetchResult data status))%m.

Definition includes (s sub : string) : bool :=
  match String.index 0 sub s with
  | Some _ => true
  | None => false
  end.

Definition proxy_url (endpoint : string) : string :=
  if String.eqb endpoint "bookings" then (BEDS24_PROXY_FALLBACK ++ "/getBookings")%string
  else if includes endpoint "rooms" then (BEDS24_PROXY_FALLBACK ++ "/getRooms")%string
  else (BEDS24_PROXY_FALLBACK ++ "/?endpoint=" ++ endpoint)%string.

Definition proxy_request (endpoint : string) (params : list (string * Value))
           (method : string) (body : Value) : HttpRequest :=
  mkRequest Proxy (proxy_url endpoint)
            (filter (fun kv => non_empty (snd kv)
                               && negb (String.eqb (fst kv) "propertyId")) params)
            method None (request_body body method).

Definition fetchBeds24ViaProxy (endpoint : string) (params : list (string * Value))
           (method : string) (body : Value) : M FetchResult :=
  (req <- lift (append_all (proxy_request endpoint params method body)) ;;
   r <- fetch_json req ;;
   let '(status, data) := r in
   inner <- lift (prop data "data") ;;
   if truthy inner then ret (mkFetchResult data status)
   else ret (mkFetchResult (VObj [("data", data)]) status))%m.

(** The [try] block either returns a result or is left without one
    (no token, or an exception, which clears [useDirectApi]); the proxy
    call comes after it. *)
Definition fetchBeds24 (endpoint : string) (params : list (string * Value))
           (method : string) (body : Value) : M FetchResult :=
  fun w =>
    if useDirectApi w then
      (attempt <- try_catch
                    (token <- getToken ;;
                     if truthy (VStr token) then
                       r <- fetchBeds24Direct endpoint params method body token ;;
                       ret (Some r)
                     else ret None)
                    (fun error w' => (Ret None, set_useDirectApi false w')) ;;
       match attempt with
       | Some r => ret r
       | None => fetchBeds24ViaProxy endpoint params method body
       end)%m w
    else fetchBeds24ViaProxy endpoint params method body w.

(** ** [fetchAllBookingPages] *)

(** The variables of the loop. *)
Record LoopState : Type := mkLoop {
  allBookings : list Value;
  currentPage : Z;
  hasMorePages : bool;
  totalPages : Z
}.

Definition loop_start : LoopState := mkLoop [] 1 true 1.

(** [hasMorePages && currentPage <= maxPages] *)
Definition loop_cond (maxPages : Z) (st : LoopState) : bool :=
  hasMorePages st && (currentPage st <=? maxPages).

(** One turn of the [while] body. *)
Definition loop_body (params : list (string * Value)) (st : LoopState) : M LoopState :=
  (let pageParams := obj_set params "page" (VNum (num_of_Z (currentPage st))) in
   tell (EvLogPage (currentPage st)) ;;;
   result <- fetchBeds24 "bookings" pageParams "GET" VNull ;;
   inner <- lift (prop (data result) "data") ;;
   let pageBookings := or_else inner (or_else (data result) (VArr [])) in
   let allBookings' := concat_value (allBookings st) pageBookings in
   pages_field <- lift (prop (data result) "pages") ;;
   let pages := or_else pages_field (VObj []) in
   next <- lift (prop pages "nextPageExists") ;;
   let hasMore := strict_eq next (VBool true) in
   if hasMore then
     sleep 50 ;;;
     ret (mkLoop allBookings' (currentPage st + 1) true (currentPage st + 1))
   else
     ret (mkLoop allBookings' (currentPage st) false (totalPages st)))%m.

(** What is left of the loop: nothing once [hasMorePages] is false,
    else one more than the pages still allowed. *)
Definition loop_measure (maxPages : Z) (st : LoopState) : nat :=
  if hasMorePages st then S (Z.to_nat (maxPages + 1 - currentPage st)) else O.

(** Keeps the equation of a case analysis for the termination proof. *)
Definition inspect {A} (a : A) : {b : A | a = b} := exist _ a eq_refl.

(** The [while] loop, from any state of its variables. *)
Equations? walk (params : list (string * Value)) (maxPages : Z)
          (st : LoopState) (w : World) : Res LoopState * World
  by wf (loop_measure maxPages st) lt :=
  walk params maxPages st w with inspect (loop_cond maxPages st) := {
    | exist _ false _ => (Ret st, w)
    | exist _ true Hc with inspect (loop_body params st w) := {
        | exist _ (Throw e, w') _ => (Throw e, w')
        | exist _ (Ret st', w') Hb => walk params maxPages st' w' } }.
Proof.
  (* the turn either cleared [hasMorePages] or moved to the next page *)
  clear walk. revert Hb Hc.
  unfold loop_body, loop_cond, loop_measure, bind, tell, sleep, lift, ret.
  destruct (fetchBeds24 _ _ _ _ _) as [[r|e] w1]; [|discriminate].
  destruct (prop (data r) "data"); [|discriminate].
  destruct (prop (data r) "pages") as [pf|]; [|discriminate].
  destruct (prop (or_else pf (VObj [])) "nextPageExists") as [nx|]; [|discriminate].
  destruct (strict_eq nx (VBool true)); intros H Hc; inversion H; subst; simpl;
    apply andb_prop in Hc; destruct Hc as [Hm Hle]; rewrite Hm;
    apply Z.leb_le in Hle; lia.
Qed.

(** [fetchAllBookingPages(params, maxPages)]; the call sites pass whole
    numbers for [maxPages] (10, 20, 30, and 50 by default). *)
Definition fetchAllBookingPages (params : list (string * Value)) (maxPages : Z)
  : M (list Value * Z) :=
  fun w =>
    match walk params maxPages loop_start w with
    | (Ret st, w') => (Ret (allBookings st, totalPages st), w')
    | (Throw e, w') => (Throw e, w')
    end.

Definition default_maxPages : Z := 50.

(** ** Reading the trace *)

Definition is_http (e : Event) : bool :=
  match e with EvHttp _ => true | _ => false end.

Definition is_direct (e : Event) : bool :=
  match e with
  | EvHttp req => match route req with Direct => true | Proxy => false end
  | _ => false
  end.

Definition is_delay (e : Event) : bool :=
  match e with EvDelay _ => true | _ => false end.

Definition is_page_log (e : Event) : bool :=
  match e with EvLogPage _ => true | _ => false end.

Definition count (p : Event -> bool) (t : list Event) : Z :=
  Z.of_nat (List.length (filter p t)).

(** Requests sent, requests sent to the direct API, pauses taken and
    pages started, in a stretch of the trace. *)
Definition http_calls : list Event -> Z := count is_http.
Definition direct_calls : list Event -> Z := count is_direct.
Definition delays : list Event -> Z := count is_delay.
Definition pages_started : list Event -> Z := count is_page_log.

(** The events of one query: one request, or two when the direct call
    failed; the newest is a request. *)
Definition query_events (dh : list Event) : Prop :=
  exists req older,
    dh = EvHttp req :: older /\ (older = [] \/ exists req', older = [EvHttp req']).

(** The world after a request has been built and, when every value
    it appends has a string form, sent. *)
Definition send_if_built (req : HttpRequest) (w : World) : World :=
  if sendable req then emit (EvHttp req) w else w.

(** ** Upstreams that always announce a further page *)

(** The payload announces a further page, as the walker reads it:
    [pages.nextPageExists === true]. *)
Definition announces_next_page (payload : Value) : bool :=
  match prop payload "pages" with
  | Ret pages =>
      match prop (or_else pages (VObj [])) "nextPageExists" with
      | Ret next => strict_eq next (VBool true)
      | Throw _ => false
      end
  | Throw _ => false
  end.

(** The payload has a truthy [data]: [fetchBeds24ViaProxy] returns it
    as it came (it wraps any other payload as [{data: payload}], which
    hides its [pages]). *)
Definition carries_data (payload : Value) : bool :=
  match prop payload "data" with
  | Ret inner => truthy inner
  | Throw _ => false
  end.

(** The payload carries the failure flag or an error message; only
    [fetchBeds24Direct] looks at them. *)
Definition reports_failure (payload : Value) : bool :=
  match prop payload "success", prop payload "error" with
  | Ret success, Ret error => strict_eq success (VBool false) || truthy error
  | _, _ => false
  end.

(** Every page the walker is given announces a further one: the proxy
    always answers with a payload that carries data and announces a
    further page; the direct API may fail, on the way or in its
    payload, and every payload of it that is no failure announces a
    further page. *)
Definition always_next (u : Upstream) : Prop :=
  forall history req,
    match u history req with
    | JsonReply _ payload =>
        match route req with
        | Proxy => carries_data payload = true /\ announces_next_page payload = true
        | Direct => reports_failure payload = false -> announces_next_page payload = true
        end
    | _ => route req = Direct
    end.

(** What a run of the loop leaves behind, from a state in which
    [totalPages] equals [currentPage] (as at the start). *)
Definition walk_post (maxPages : Z) (st : LoopState) (w : World)
           (res : Res LoopState * World) : Prop :=
  upstream (snd res) = upstream w
  /\ exists delta,
      trace (snd res) = delta ++ trace w
      /\ http_calls delta <= 2 * pages_started delta
      /\ match fst res with
         | Ret _ => pages_started delta <= http_calls delta
         | Throw _ => pages_started delta - 1 <= http_calls delta
         end
      /\ pages_started delta <= Z.max 0 (maxPages + 1 - currentPage st)
      /\ (loop_cond maxPages st = false -> delta = [] /\ fst res = Ret st)
      /\ match fst res with
         | Throw _ => 1 <= pages_started delta
         | Ret stf =>
             totalPages stf = currentPage stf
             /\ (hasMorePages stf = false ->
                 hasMorePages st = true ->
                 currentPage stf = currentPage st + pages_started delta - 1
                 /\ delays delta = pages_started delta - 1
                 /\ exists req older, delta = EvHttp req :: older)
             /\ (hasMorePages stf = true ->
                 currentPage stf = currentPage st + pages_started delta
                 /\ delays delta = pages_started delta
                 /\ maxPages < currentPage stf
                 /\ (currentPage st <= maxPages ->
                     currentPage stf = maxPages + 1
                     /\ exists older, delta = EvDelay 50 :: older))
         end.

(** ** The process as a transition system *)

(** The process moves by running an upstream query to its end, by
    pausing, or by logging the start of a page. *)
Inductive step : World -> World -> Prop :=
| step_query endpoint params method body w :
    step w (snd (fetchBeds24 endpoint params method body w))
| step_pause ms w :
    step w (emit (EvDelay ms) w)
| step_log page w :
    step w (emit (EvLogPage page) w).

Inductive steps : World -> World -> Prop :=
| steps_refl w : steps w w
| steps_cons w1 w2 w3 : step w1 w2 -> steps w2 w3 -> steps w1 w3.

(** ** Queries in flight *)

(** Handlers start several queries before waiting for any
    ([Promise.all]).  [fetchBeds24] reads [useDirectApi] and sends its
    first request without giving way to another reply (the only wait in
    between is on [getToken], which is already settled); it then waits
    for the direct API or for the proxy.  A request whose parameters
    cannot be written into the URL is not sent: the direct call then
    fails at once and the query goes on to the proxy, and a proxy call
    that cannot be sent ends the query (in proxy mode it leaves no
    trace at all). *)
Record Query : Type := mkQuery {
  q_endpoint : string;
  q_params : list (string * Value);
  q_method : string;
  q_body : Value
}.

Inductive Waiting : Type :=
| AwaitDirect (q : Query)
| AwaitProxy (q : Query).

Record Process : Type := mkProcess {
  world : World;
  in_flight : list Waiting
}.

Definition direct_of (q : Query) (w : World) : HttpRequest :=
  direct_request (q_endpoint q) (q_params q) (q_method q) (q_body q)
                 (BEDS24_READ_TOKEN w).

Definition proxy_of (q : Query) : HttpRequest :=
  proxy_request (q_endpoint q) (q_params q) (q_method q) (q_body q).

Inductive pstep : Process -> Process -> Prop :=
| begin_direct q w fl :
    useDirectApi w = true ->
    sendable (direct_of q w) = true ->
    pstep (mkProcess w fl)
          (mkProcess (emit (EvHttp (direct_of q w)) w) (AwaitDirect q :: fl))
| direct_not_sent q w fl :
    useDirectApi w = true ->
    sendable (direct_of q w) = false ->
    sendable (proxy_of q) = true ->
    pstep (mkProcess w fl)
          (mkProcess (emit (EvHttp (proxy_of q)) (set_useDirectApi false w))
                     (AwaitProxy q :: fl))
| nothing_sent q w fl :
    useDirectApi w = true ->
    sendable (direct_of q w) = false ->
    sendable (proxy_of q) = false ->
    pstep (mkProcess w fl) (mkProcess (set_useDirectApi false w) fl)
| begin_proxy q w fl :
    useDirectApi w = false ->
    sendable (proxy_of q) = true ->
    pstep (mkProcess w fl)
          (mkProcess (emit (EvHttp (proxy_of q)) w) (AwaitProxy q :: fl))
| direct_returns q w fl1 fl2 :
    pstep (mkProcess w (fl1 ++ AwaitDirect q :: fl2))
          (mkProcess w (fl1 ++ fl2))
| direct_throws q w fl1 fl2 :
    sendable (proxy_of q) = true ->
    pstep (mkProcess w (fl1 ++ AwaitDirect q :: fl2))
          (mkProcess (emit (EvHttp (proxy_of q)) (set_useDirectApi false w))
                     (fl1 ++ AwaitProxy q :: fl2))
| direct_throws_alone q w fl1 fl2 :
    sendable (proxy_of q) = false ->
    pstep (mkProcess w (fl1 ++ AwaitDirect q :: fl2))
          (mkProcess (set_useDirectApi false w) (fl1 ++ fl2))
| proxy_settles q w fl1 fl2 :
    pstep (mkProcess w (fl1 ++ AwaitProxy q :: fl2))
          (mkProcess w (fl1 ++ fl2))
| pause ms w fl :
    pstep (mkProcess w fl) (mkProcess (emit (EvDelay ms) w) fl)
| log_page page w fl :
    pstep (mkProcess w fl) (mkProcess (emit (EvLogPage page) w) fl).

Inductive psteps : Process -> Process -> Prop :=
| psteps_refl p : psteps p p
| psteps_cons p1 p2 p3 : pstep p1 p2 -> psteps p2 p3 -> psteps p1 p3.

Definition is_await_direct (x : Waiting) : bool :=
  match x with AwaitDirect _ => true | AwaitProxy _ => false end.

(** Queries still waiting for the direct API. *)
Definition awaiting_direct (p : Process) : nat :=
  List.length (filter is_await_direct (in_flight p)).

End Api.

(* ================================================================== *)
(** * The request handlers *)
(* ================================================================== *)

Module Views.
Import Js JsDate Api.

(** A handler ends with [res.json(body)] or with
    [res.status(code).json({ success: false, error })]. *)
Inductive Response (B : Type) : Type :=
| Ok (body : B)
| Fail (code : Z) (error : Value).
Arguments Ok {B} body.
Arguments Fail {B} code error.

(** [try { ... } catch (error) { res.status(500).json(...) }] *)
Definition handle {B} (m : M (Response B)) : World -> Response B * World :=
  fun w =>
    match m w with
    | (Ret r, w') => (r, w')
    | (Throw e, w') => (Fail 500 (exn_message e), w')
    end.

(** [getTodayBD()] *)
Definition getTodayBD (w : World) : string :=
  toLocaleDateString_en_CA dhaka_zone (Some (now w)).

(** [req.query.x || getTodayBD()] *)
Definition query_or_today (q : QValue) (w : World) : Value :=
  or_else (value_of_q q) (VStr (getTodayBD w)).

(** ** Building blocks *)

(** [b => b.status !== 'cancelled'] *)
Definition not_cancelled (b : Value) : Res bool :=
  (s <- prop b "status" ;; Ret (negb (strict_eq s (VStr "cancelled"))))%res.

Definition type_error (msg : string) : Exn := mkExn KTypeError (VStr msg).

(** [v.filter(p)]: only arrays have [filter]. *)
Definition array_filter (v : Value) (p : Value -> Res bool) : Res (list Value) :=
  match v with
  | VArr items => filterM p items
  | _ => Throw (type_error "filter is not a function")
  end.

Fixpoint chars (s : string) : list Value :=
  match s with
  | EmptyString => []
  | String c rest => VStr (String c EmptyString) :: chars rest
  end.

(** [...v] inside an array literal: arrays and strings can be spread. *)
Definition spread (v : Value) : Res (list Value) :=
  match v with
  | VArr items => Ret items
  | VStr s => Ret (chars s)
  | _ => Throw (type_error "value is not iterable")
  end.

(** A [Map], as its entries in insertion order. *)
Definition JsMap := list (Value * Value).

(** [map.set(k, v)]: an existing entry keeps its place and its key. *)
Fixpoint map_set (m : JsMap) (k v : Value) : JsMap :=
  match m with
  | [] => [(k, v)]
  | (k', v') :: rest =>
      if same_value_zero k' k then (k', v) :: rest
      else (k', v') :: map_set rest k v
  end.

(** [Array.from(map.values())] *)
Definition map_values (m : JsMap) : list Value := map snd m.

(** [const bookingMap = new Map(); list.forEach(b => bookingMap.set(b.id, b));
    Array.from(bookingMap.values())] *)
Definition bookingMap_fold (records : list Value) : Res JsMap :=
  foldM (fun m b => (id <- prop b "id" ;; Ret (map_set m id b))%res) records [].

Definition merge_by_id (records : list Value) : Res (list Value) :=
  (m <- bookingMap_fold records ;; Ret (map_values m))%res.

(** [list.length] *)
Definition len (l : list Value) : Z := Z.of_nat (List.length l).

(** ** GET /getBookings, the branch without date filters: what follows
    [await Promise.all([past, future])] *)

Record BookingsBody : Type := mkBookingsBody {
  bk_count : Z;
  bk_totalPages : Z;
  bk_data : list Value
}.

Definition getBookings_combine (pastResult futureResult : list Value * Z)
  : Res BookingsBody :=
  (allBookings <- merge_by_id (fst pastResult ++ fst futureResult) ;;
   Ret (mkBookingsBody (len allBookings)
                       (snd pastResult + snd futureResult) allBookings))%res.

(** A query value inside a template literal, as in the line each
    handler logs before it asks upstream: [`${v}`] throws the TypeError
    when [v] has no string form. *)
Definition in_template (q : QValue) : M unit :=
  (_ <- lift (q_to_string q) ;; ret tt)%m.

(** [`${v || 'text'}`] and [`${v ? `... ${v}` : ''}`] *)
Definition in_template_if_truthy (q : QValue) : M unit :=
  if q_truthy q then in_template q else ret tt.

(** ** GET /getBookings/range *)

Record RangeQuery : Type := mkRangeQuery {
  rq_from : QValue; rq_to : QValue; rq_type : QValue
}.

Record RangeBody : Type := mkRangeBody {
  rg_dateRange : Value * Value * Value;
  rg_count : Z;
  rg_totalPages : Z;
  rg_data : list Value
}.

Definition getBookings_range (q : RangeQuery) : World -> Response RangeBody * World :=
  handle
    (if negb (q_truthy (rq_from q)) || negb (q_truthy (rq_to q)) then
       ret (Fail 400 (VStr "Required: from and to dates (YYYY-MM-DD format)"))
     else
       let from := value_of_q (rq_from q) in
       let to := value_of_q (rq_to q) in
       let type := value_of_q (rq_type q) in
       let params :=
         if strict_eq type (VStr "arrival")
         then [("propertyId", PROPERTY_ID); ("arrivalFrom", from); ("arrivalTo", to)]
         else [("propertyId", PROPERTY_ID); ("departureFrom", from); ("departureTo", to)] in
       in_template (rq_from q) ;;;
       in_template (rq_to q) ;;;
       in_template_if_truthy (rq_type q) ;;;
       result <- fetchAllBookingPages params 30 ;;
       ret (Ok (mkRangeBody (from, to, or_else type (VStr "departure"))
                            (len (fst result)) (snd result) (fst result))))%m.

(** ** GET /api/overview: what follows the three parallel fetches *)

Record OverviewBody : Type := mkOverviewBody {
  ov_date : Value;
  ov_occupied : Z; ov_checkIns : Z; ov_checkOuts : Z;
  ov_current : list Value; ov_arrivals : list Value; ov_departures : list Value
}.

(** [result.data.data || []] *)
Definition data_or_empty (result : FetchResult) : Res Value :=
  (inner <- prop (data result) "data" ;; Ret (or_else inner (VArr [])))%res.

Definition overview_respond (date : Value)
           (currentResult arrivalsResult departuresResult : FetchResult)
  : Res OverviewBody :=
  (current <- data_or_empty currentResult ;;
   arrivals <- data_or_empty arrivalsResult ;;
   departures <- data_or_empty departuresResult ;;
   activeBookings <- array_filter current not_cancelled ;;
   todayArrivals <- array_filter arrivals not_cancelled ;;
   todayDepartures <- array_filter departures not_cancelled ;;
   Ret (mkOverviewBody date (len activeBookings) (len todayArrivals)
                       (len todayDepartures)
                       activeBookings todayArrivals todayDepartures))%res.

(** ** GET /api/calendar *)

(** [parseInt(req.query.days) || 7]: [parseInt] gives the double
    nearest to the integer it reads (no integer for NaN), and throws
    when the parameter has no string form. *)
Definition calendar_days (q : QValue) : Res number :=
  (s <- q_to_string q ;;
   Ret (match parseInt_string s with
        | Some n => num_or_zero_else (num_of_Z n) (num_of_Z 7)
        | None => num_of_Z 7
        end))%res.

(** The integer a finite, whole double stands for. *)
Definition whole_number (x : number) : option Z :=
  match x with
  | S754_zero _ => Some 0
  | S754_finite s m e =>
      let magnitude :=
        match e with
        | Zneg k =>
            if Zpos m mod 2 ^ Zpos k =? 0 then Some (Zpos m / 2 ^ Zpos k) else None
        | _ => Some (Zpos m * 2 ^ e)
        end in
      option_map (fun z => if s then - z else z) magnitude
  | _ => None
  end.

(** The end date: [new Date(start + 'T00:00:00+06:00')], then
    [setDate(getDate() + days)], printed in Asia/Dhaka.  [host] is the
    time zone the process runs in. *)
Definition calendar_end (host : TimeZone) (start : string) (days : Z) : string :=
  let startDate := parse_midnight_plus6 (start ++ "T00:00:00+06:00")%string in
  let startDate' :=
    setDate host startDate (option_map (fun d => d + days) (getDate host startDate)) in
  toLocaleDateString_en_CA dhaka_zone startDate'.

(** The end date for the day count as the handler holds it.  The count
    is a whole double or an infinity; the day of the month it is added
    to is at most 31, so that a sum that is not exact lies, like the
    exact one, far outside the range of dates. *)
Definition calendar_end_for (host : TimeZone) (start : string) (days : number) : string :=
  match whole_number days with
  | Some n => calendar_end host start n
  | None => "Invalid Date"
  end.

Record CalendarBody : Type := mkCalendarBody {
  cal_start : Value; cal_end : string; cal_days : Z;
  cal_count : Z;
  cal_data : list Value
}.

(** The text [start + 'T00:00:00+06:00'] begins with, for
    [start = req.query.start || getTodayBD()]; [+] throws when [start]
    has no string form. *)
Definition calendar_start_string (q : QValue) (w : World) : Res string :=
  if q_truthy q then q_to_string q else Ret (getTodayBD w).

(** What follows the three parallel fetches. *)
Definition calendar_respond (start : Value) (end_ : string) (days : Z)
           (arrivalsResult departuresResult : list Value * Z)
           (currentResult : FetchResult) : Res CalendarBody :=
  (current <- data_or_empty currentResult ;;
   current_items <- spread current ;;
   active <- filterM not_cancelled
                     (fst arrivalsResult ++ fst departuresResult ++ current_items) ;;
   bookings <- merge_by_id active ;;
   Ret (mkCalendarBody start end_ days (len bookings) bookings))%res.

(** ** GET /api/movements: what follows the two parallel fetches *)

Record MovementsBody : Type := mkMovementsBody {
  mv_date : Value;
  mv_checkIns_count : Z; mv_checkIns : list Value;
  mv_checkOuts_count : Z; mv_checkOuts : list Value
}.

Definition movements_respond (date : Value)
           (arrivalsResult departuresResult : FetchResult) : Res MovementsBody :=
  (a <- data_or_empty arrivalsResult ;;
   arrivals <- array_filter a not_cancelled ;;
   d <- data_or_empty departuresResult ;;
   departures <- array_filter d not_cancelled ;;
   Ret (mkMovementsBody date (len arrivals) arrivals (len departures) departures))%res.

(** ** GET /api/housekeeping: what follows the three parallel fetches *)

Record HousekeepingBody : Type := mkHousekeepingBody {
  hk_date : Value;
  hk_occupied : Z; hk_departing : Z; hk_arriving : Z; hk_stayovers_count : Z;
  hk_departures : list Value; hk_arrivals : list Value; hk_stayovers : list Value
}.

(** [c => c.departure !== date] *)
Definition is_stayover (date : Value) (c : Value) : Res bool :=
  (dep <- prop c "departure" ;; Ret (negb (strict_eq dep date)))%res.

Definition housekeeping_respond (date : Value)
           (currentResult departuresResult arrivalsResult : FetchResult)
  : Res HousekeepingBody :=
  (c <- data_or_empty currentResult ;;
   current <- array_filter c not_cancelled ;;
   d <- data_or_empty departuresResult ;;
   departures <- array_filter d not_cancelled ;;
   a <- data_or_empty arrivalsResult ;;
   arrivals <- array_filter a not_cancelled ;;
   stayovers <- filterM (is_stayover date) current ;;
   Ret (mkHousekeepingBody date
          (len current) (len departures) (len arrivals)
          (len current - len departures)
          departures arrivals stayovers))%res.

(** ** GET /api/revenue *)

Record Totals : Type := mkTotals {
  totalPrice : number;
  totalDeposit : number;
  bookingCount : Z;
  outstanding : number
}.

(** The accumulator of the [reduce]. *)
Record Acc : Type := mkAcc {
  acc_totalPrice : number; acc_totalDeposit : number; acc_bookingCount : Z
}.

(** [parseFloat(v) || 0] *)
Definition amount (v : Value) : Res number :=
  (x <- parseFloat v ;; Ret (num_or_zero x))%res.

(** The callback of the [reduce]: the price is read and added first,
    then the deposit. *)
Definition revenue_step (acc : Acc) (b : Value) : Res Acc :=
  (price <- prop b "price" ;;
   price_read <- amount price ;;
   deposit <- prop b "deposit" ;;
   deposit_read <- amount deposit ;;
   Ret (mkAcc (num_add (acc_totalPrice acc) price_read)
              (num_add (acc_totalDeposit acc) deposit_read)
              (acc_bookingCount acc + 1)))%res.

Definition revenue_totals (bookings : list Value) : Res Totals :=
  (acc <- foldM revenue_step bookings (mkAcc pzero pzero 0) ;;
   Ret (mkTotals (acc_totalPrice acc) (acc_totalDeposit acc) (acc_bookingCount acc)
                 (num_sub (acc_totalPrice acc) (acc_totalDeposit acc))))%res.

Record RevenueBody : Type := mkRevenueBody {
  rev_dateRange : Value * Value;
  rev_totals : Totals;
  rev_bookings : list Value
}.

Definition api_revenue (from to : QValue) : World -> Response RevenueBody * World :=
  handle
    (if negb (q_truthy from) || negb (q_truthy to) then
       ret (Fail 400 (VStr "Required: from and to dates (YYYY-MM-DD)"))
     else
       in_template from ;;;
       in_template to ;;;
       result <- fetchAllBookingPages
                   [("propertyId", PROPERTY_ID);
                    ("departureFrom", value_of_q from);
                    ("departureTo", value_of_q to);
                    ("includeInvoiceItems", VBool true)] 30 ;;
       bookings <- lift (filterM not_cancelled (fst result)) ;;
       totals <- lift (revenue_totals bookings) ;;
       ret (Ok (mkRevenueBody (value_of_q from, value_of_q to) totals bookings)))%m.

(** ** GET /api/search *)

Record SearchQuery : Type := mkSearchQuery {
  sq_q : QValue; sq_checkIn : QValue; sq_checkOut : QValue
}.

Record SearchBody : Type := mkSearchBody {
  sr_count : Z;
  sr_data : list Value
}.

(** [if (x) params.name = x] *)
Definition set_if (x : QValue) (name : string) (params : list (string * Value))
  : list (string * Value) :=
  if q_truthy x then obj_set params name (value_of_q x) else params.

Definition api_search (q : SearchQuery) : World -> Response SearchBody * World :=
  handle
    (if negb (q_truthy (sq_q q)) && negb (q_truthy (sq_checkIn q)) then
       ret (Fail 400 (VStr "Required: q (search term) or checkIn date"))
     else
       let params :=
         set_if (sq_checkOut q) "arrivalTo"
           (set_if (sq_checkIn q) "arrivalFrom"
              (set_if (sq_q q) "searchString" [("propertyId", PROPERTY_ID)])) in
       in_template_if_truthy (sq_q q) ;;;
       in_template_if_truthy (sq_checkIn q) ;;;
       result <- fetchAllBookingPages params 10 ;;
       ret (Ok (mkSearchBody (len (fst result)) (fst result))))%m.

End Views.

(* ================================================================== *)
(** * The earlier server ([index.js]) *)
(* ================================================================== *)

Module Legacy.
Import Js Views.

(** The filter of GET /dashboard/bookings, with its [seen] set:
    [if (seen.has(b.id)) return false; seen.add(b.id); return true]. *)
Fixpoint unique_from (seen : list Value) (l : list Value) : Res (list Value) :=
  match l with
  | [] => Ret []
  | b :: rest =>
      (id <- prop b "id" ;;
       if existsb (fun k => same_value_zero k id) seen
       then unique_from seen rest
       else rest' <- unique_from (seen ++ [id]) rest ;; Ret (b :: rest'))%res
  end.

Definition uniqueBookings (allBookings : list Value) : Res (list Value) :=
  unique_from [] allBookings.

(** What follows the two parallel fetches; here [fetchBeds24] returns
    the decoded payload itself. *)
Definition dashboard_bookings_respond (currentData futureData : Value)
  : Res (Z * list Value) :=
  (c <- prop currentData "data" ;;
   cs <- spread (or_else c (VArr [])) ;;
   f <- prop futureData "data" ;;
   fs <- spread (or_else f (VArr [])) ;;
   unique <- uniqueBookings (cs ++ fs) ;;
   activeBookings <- filterM not_cancelled unique ;;
   Ret (len activeBookings, activeBookings))%res.

End Legacy.

(* ================================================================== *)
(** * Vocabulary of the properties, and sample inputs *)
(* ================================================================== *)

Module Props.
Import Js JsDate Api Views Legacy.

(** A record whose properties can be read: anything but [null] and
    [undefined]. *)
Definition readable (b : Value) : bool :=
  match b with
  | VUndefined | VNull => false
  | _ => true
  end.

(** [b.k] of a readable record. *)
Definition field (k : string) (b : Value) : Value :=
  match prop b k with
  | Ret v => v
  | Throw _ => VUndefined
  end.

Definition id_of : Value -> Value := field "id".

(** [r] carries the identifier [k], as [Map] and [Set] compare keys. *)
Definition has_id (k : Value) (r : Value) : bool := same_value_zero (id_of r) k.

(** The key a value stands for in a [Map] or [Set]: itself, with
    minus zero read as zero; arrays and objects are keys of their own
    and stand for no shared key. *)
Definition canon_num (x : number) : number :=
  match x with
  | S754_zero _ => S754_zero false
  | _ => x
  end.

Definition key_of (v : Value) : option Value :=
  match v with
  | VUndefined | VNull | VBool _ | VStr _ => Some v
  | VNum x => Some (VNum (canon_num x))
  | VArr _ | VObj _ => None
  end.

(** Every entry of the map holds a record that answers to its key. *)
Definition keyed (m : JsMap) : Prop :=
  forall k' v, In (k', v) m -> forall k, same_value_zero k' k = has_id k v.

(** The last record of a list that satisfies [p]. *)
Definition find_last {A} (p : A -> bool) (l : list A) : option A := find p (rev l).

Definition option_list {A} (o : option A) : list A :=
  match o with
  | Some a => [a]
  | None => []
  end.

Definition is_cancelled (b : Value) : Prop := prop b "status" = Ret (VStr "cancelled").

Definition none_cancelled (l : list Value) : Prop := Forall (fun b => ~ is_cancelled b) l.

(** The record is not cancelled. *)
Definition active (r : Value) : bool :=
  negb (strict_eq (field "status" r) (VStr "cancelled")).

(** The sum of a list of numbers: added up from the left, from zero,
    in IEEE arithmetic. *)
Definition sum_list (xs : list number) : number := fold_left num_add xs pzero.

Definition is_digit (c : ascii) : bool :=
  match digit_of c with Some _ => true | None => false end.

Definition one_of (set : string) (c : ascii) : bool :=
  existsb (Ascii.eqb c) (list_ascii_of_string set).

(** A text that is empty or begins with an ASCII character that is no
    white space, no digit, no sign, no point and no [I]: no number
    begins it. *)
Definition is_word (s : string) : bool :=
  match s with
  | EmptyString => true
  | String c _ =>
      Nat.ltb (nat_of_ascii c) 128 && negb (is_ws c) && negb (is_digit c)
      && negb (one_of "+-.I" c)
  end.

(** A text that is empty or begins with a character that is no digit,
    no point and no [e] or [E]: it continues no number. *)
Definition ends_number (s : string) : bool :=
  match s with
  | EmptyString => true
  | String c _ => negb (is_digit c) && negb (one_of ".eE" c)
  end.

(** What a price or a deposit counts for in the revenue totals: a
    number for itself, a text that begins with a whole number written
    in digits for that number, and a text that begins with no number, a
    boolean, [null] and a missing value for zero. *)
Inductive reads_as : Value -> number -> Prop :=
| reads_number x :
    is_nan x = false -> reads_as (VNum x) (canon_num x)
| reads_digits n rest :
    0 <= n -> ends_number rest = true ->
    reads_as (VStr (decimal n ++ rest)) (num_of_Z n)
| reads_word s :
    is_word s = true -> reads_as (VStr s) pzero
| reads_bool b : reads_as (VBool b) pzero
| reads_null : reads_as VNull pzero
| reads_missing : reads_as VUndefined pzero.

(** A civil date written [YYYY-MM-DD]. *)
Definition pad4 (n : Z) : string := (pad2 (n / 100) ++ pad2 (n mod 100))%string.

Definition iso_date (y m d : Z) : string :=
  (pad4 y ++ "-" ++ pad2 m ++ "-" ++ pad2 d)%string.

(** ** Sample inputs *)

Definition booking (id : Value) (status : string) (departure : string)
           (price deposit : Value) : Value :=
  VObj [("id", id); ("status", VStr status); ("departure", VStr departure);
        ("price", price); ("deposit", deposit)].

Definition n (z : Z) : Value := VNum (num_of_Z z).

(** Two versions of booking "B1". *)
Definition b1_from_A : Value := booking (VStr "B1") "confirmed" "2024-05-10" (n 100) (n 50).
Definition b1_from_B : Value := booking (VStr "B1") "confirmed" "2024-05-12" (n 120) (n 50).

(** The three bookings of the revenue example. *)
Definition revenue_sample : list Value :=
  [booking (n 1) "confirmed" "2024-05-10" (n 100) (n 50);
   booking (n 2) "confirmed" "2024-05-10" (n 200) (n 0);
   booking (n 3) "confirmed" "2024-05-10" (VStr "bad") (n 20)].

(** An upstream that answers every request with a failure payload. *)
Definition failure_payload : Value :=
  VObj [("success", VBool false); ("error", VStr "Invalid token")].

Definition failing_upstream : Upstream := fun _ _ => JsonReply 200 failure_payload.

(** An upstream that always announces a further page. *)
Definition next_page_payload : Value :=
  VObj [("success", VBool true);
        ("data", VArr [booking (n 1) "confirmed" "2024-05-10" (n 100) (n 50)]);
        ("pages", VObj [("nextPageExists", VBool true)])].

Definition endless_upstream : Upstream := fun _ _ => JsonReply 200 next_page_payload.

(** An upstream with a single page. *)
Definition one_page_payload : Value :=
  VObj [("success", VBool true);
        ("data", VArr [booking (n 1) "confirmed" "2024-05-10" (n 100) (n 50);
                       booking (n 2) "cancelled" "2024-05-11" (n 80) (n 0)]);
        ("pages", VObj [("nextPageExists", VBool false)])].

Definition one_page_upstream : Upstream := fun _ _ => JsonReply 200 one_page_payload.

(** An upstream that serves the given records on a single page. *)
Definition page_of (records : list Value) : Value :=
  VObj [("success", VBool true); ("data", VArr records);
        ("pages", VObj [("nextPageExists", VBool false)])].

Definition serving (records : list Value) : Upstream :=
  fun _ _ => JsonReply 200 (page_of records).

(** A page that announces a further one and carries an error message
    as well. *)
Definition flagged_next_page_payload : Value :=
  VObj [("success", VBool false); ("error", VStr "Too many requests");
        ("data", VArr [booking (n 1) "confirmed" "2024-05-10" (n 100) (n 50)]);
        ("pages", VObj [("nextPageExists", VBool true)])].

(** An upstream whose every answer announces a further page; the
    answers of its direct API carry an error message as well. *)
Definition direct_down_upstream : Upstream :=
  fun _ req =>
    match route req with
    | Direct => JsonReply 200 flagged_next_page_payload
    | Proxy => JsonReply 200 next_page_payload
    end.

(** An upstream whose direct API answers with a failure and whose proxy
    answers with a single page of records. *)
Definition direct_down_proxy_serving (records : list Value) : Upstream :=
  fun _ req =>
    match route req with
    | Direct => JsonReply 200 failure_payload
    | Proxy => JsonReply 200 (page_of records)
    end.

Definition world_with (direct : bool) (u : Upstream) : World :=
  mkWorld direct None 1715299200000 [] u.

(** Housekeeping on 2024-05-10: one guest in house who leaves the next
    day, and one guest who left that morning and is no longer in house. *)
Definition hk_date : Value := VStr "2024-05-10".
Definition hk_in_house : Value := booking (n 7) "confirmed" "2024-05-11" (n 100) (n 0).
Definition hk_left_today : Value := booking (n 8) "confirmed" "2024-05-10" (n 90) (n 90).
Definition result_of (records : list Value) : FetchResult :=
  mkFetchResult (VObj [("success", VBool true); ("data", VArr records)]) 200.

End Props.

(* ================================================================== *)
(** * More of the v6.5 server *)
(* ================================================================== *)

Module Listing.
Import Js JsDate Api Views.

(** ** GET /getBookings *)

Definition BOOKING_PARAMS : list string :=
  ["filter"; "status"; "channel";
   "propertyId"; "roomId"; "id"; "masterId"; "apiReference";
   "arrival"; "arrivalFrom"; "arrivalTo";
   "departure"; "departureFrom"; "departureTo";
   "bookingTimeFrom"; "bookingTimeTo";
   "modifiedFrom"; "modifiedTo";
   "searchString";
   "includeInvoiceItems"; "includeInfoItems"; "includeGuests"; "includeBookingGroup";
   "page"].

(** [req.query]: the parameters of the request URL. *)
Definition ReqQuery := list (string * QValue).

(** [req.query[k]] *)
Definition query_get (q : ReqQuery) (k : string) : QValue :=
  match assoc k q with
  | Some v => v
  | None => QUndefined
  end.

Definition is_undefined (v : QValue) : bool :=
  match v with QUndefined => true | _ => false end.

(** [const params = { propertyId: PROPERTY_ID };
    BOOKING_PARAMS.forEach(param => { if (req.query[param] !== undefined
    && param !== 'page') params[param] = req.query[param]; })] *)
Definition getBookings_params (q : ReqQuery) : list (string * Value) :=
  fold_left
    (fun params param =>
       if negb (is_undefined (query_get q param)) && negb (String.eqb param "page")
       then obj_set params param (value_of_q (query_get q param))
       else params)
    BOOKING_PARAMS
    [("propertyId", PROPERTY_ID)].

(** The branch of the handler taken when the client sent a date
    filter or a [filter] ([hasDateFilters || hasFilter]): one walk with
    the default page cap. *)
Definition getBookings_filtered (q : ReqQuery) : World -> Response BookingsBody * World :=
  handle
    (result <- fetchAllBookingPages (getBookings_params q) default_maxPages ;;
     ret (Ok (mkBookingsBody (len (fst result)) (snd result) (fst result))))%m.

(** ** GET /api/booking/:id *)

(** [v[0]] for a truthy [v]. *)
Definition first_element (v : Value) : Value :=
  match v with
  | VArr (x :: _) => x
  | VStr (String c _) => VStr (String c EmptyString)
  | VObj fields =>
      match assoc "0" fields with
      | Some x => x
      | None => VUndefined
      end
  | _ => VUndefined
  end.

Definition api_booking (bookingId : string) : World -> Response Value * World :=
  handle
    (result <- fetchBeds24 "bookings"
                 [("propertyId", PROPERTY_ID); ("id", VStr bookingId);
                  ("includeInvoiceItems", VBool true);
                  ("includeInfoItems", VBool true)] "GET" VNull ;;
     bookings <- lift (data_or_empty result) ;;
     ret (Ok (or_else (first_element bookings) VNull)))%m.

(** ** POST /bookings *)

Fixpoint mapM {A B} (f : A -> Res B) (l : list A) : Res (list B) :=
  match l with
  | [] => Ret []
  | x :: rest =>
      (y <- f x ;; rest' <- mapM f rest ;; Ret (y :: rest'))%res
  end.

(** [Array.isArray(bookingData) ? bookingData : [bookingData]] *)
Definition as_batch (bookingData : Value) : list Value :=
  match bookingData with
  | VArr items => items
  | _ => [bookingData]
  end.

(** [if (!b.propertyId) b.propertyId = PROPERTY_ID]: the assignment
    adds the property to an object; on a string, a number or a boolean
    it does nothing, and on an array it adds nothing that is sent. *)
Definition with_propertyId (b : Value) : Res Value :=
  (p <- prop b "propertyId" ;;
   Ret (if truthy p then b
        else match b with
             | VObj fields => VObj (obj_set fields "propertyId" PROPERTY_ID)
             | _ => b
             end))%res.

Definition post_bookings (bookingData : Value) : World -> Response Value * World :=
  handle
    (bookings <- lift (mapM with_propertyId (as_batch bookingData)) ;;
     result <- fetchBeds24 "bookings" [] "POST" (VArr bookings) ;;
     ret (Ok (data result)))%m.

(** ** GET /dashboard/data: what follows [Promise.allSettled] *)

Inductive Settled : Type :=
| Fulfilled (value : FetchResult)
| Rejected (reason : Exn).

(** [s.status === 'fulfilled' ? (s.value.data.data || []) : []] *)
Definition settled_records (s : Settled) : Res Value :=
  match s with
  | Fulfilled r => data_or_empty r
  | Rejected _ => Ret (VArr [])
  end.

(** [b => b.arrival === today && b.status !== 'cancelled'] *)
Definition arrives_today (today : Value) (b : Value) : Res bool :=
  (a <- prop b "arrival" ;;
   if strict_eq a today then not_cancelled b else Ret false)%res.

(** [b => b.departure === today] *)
Definition departs_today (today : Value) (b : Value) : Res bool :=
  (d <- prop b "departure" ;; Ret (strict_eq d today))%res.

Record DashboardBody : Type := mkDashboardBody {
  db_occupied : Z; db_checkInsToday : Z; db_checkOutsToday : Z; db_totalActive : Z;
  db_data : list Value
}.

Definition dashboard_data_respond (today : string)
           (currentResult arrivalsResult departuresResult : Settled)
  : Res DashboardBody :=
  (current <- settled_records currentResult ;;
   arrivals <- settled_records arrivalsResult ;;
   departures <- settled_records departuresResult ;;
   cs <- spread current ;;
   ars <- spread arrivals ;;
   ds <- spread departures ;;
   merged <- merge_by_id (cs ++ ars ++ ds) ;;
   uniqueBookings <- filterM not_cancelled merged ;;
   occupied <- array_filter current not_cancelled ;;
   checkIns <- array_filter arrivals (arrives_today (VStr today)) ;;
   checkOuts <- array_filter departures (departs_today (VStr today)) ;;
   Ret (mkDashboardBody (len occupied) (len checkIns) (len checkOuts)
                        (len uniqueBookings) uniqueBookings))%res.

(** ** The start of the "recent past" window of GET /getBookings *)

(** [date.getMonth()], in the host's zone, counting from 0. *)
Definition getMonth (host : TimeZone) (d : Date) : option Z :=
  match d with
  | Some t => Some (MonthFromTime (LocalTime host t))
  | None => None
  end.

(** [date.setMonth(month)]: replaces the month in the host's zone and
    keeps the day of the month and the host-local time of day. *)
Definition setMonth (host : TimeZone) (d : Date) (month : option Z) : Date :=
  match d, month with
  | Some t, Some month =>
      let tl := LocalTime host t in
      let newDate :=
        MakeDate (MakeDay (YearFromTime tl) month (DateFromTime tl))
                 (TimeWithinDay tl) in
      TimeClip (UTC host newDate)
  | _, _ => None
  end.

(** [const todayDate = new Date(todayStr + 'T00:00:00+06:00');
    const oneMonthAgo = new Date(todayDate);
    oneMonthAgo.setMonth(oneMonthAgo.getMonth() - 1);
    oneMonthAgo.toLocaleDateString('en-CA', { timeZone: TIMEZONE })] *)
Definition oneMonthAgoStr (host : TimeZone) (todayStr : string) : string :=
  let todayDate := parse_midnight_plus6 (todayStr ++ "T00:00:00+06:00")%string in
  let oneMonthAgo :=
    setMonth host todayDate (option_map (fun m => m - 1) (getMonth host todayDate)) in
  toLocaleDateString_en_CA dhaka_zone oneMonthAgo.

End Listing.

(* ================================================================== *)
(** * The booking cache of the v4.0 server *)
(* ================================================================== *)

Module Cache.
Import Js Views.

(** [list.findIndex(p)]; [None] stands for -1. *)
Fixpoint findIndexM (p : Value -> Res bool) (l : list Value) : Res (option nat) :=
  match l with
  | [] => Ret None
  | x :: rest =>
      (b <- p x ;;
       if b then Ret (Some O)
       else i <- findIndexM p rest ;; Ret (option_map S i))%res
  end.

(** [b => b.id === booking.id] *)
Definition same_booking (booking : Value) (b : Value) : Res bool :=
  (bid <- prop b "id" ;; id <- prop booking "id" ;; Ret (strict_eq bid id))%res.

(** [list.splice(i, 1)] *)
Fixpoint remove_at (i : nat) (l : list Value) : list Value :=
  match l, i with
  | [], _ => []
  | _ :: rest, O => rest
  | x :: rest, S j => x :: remove_at j rest
  end.

(** [list[i] = v] for an index inside the list. *)
Fixpoint replace_at (i : nat) (v : Value) (l : list Value) : list Value :=
  match l, i with
  | [], _ => []
  | _ :: rest, O => v :: rest
  | x :: rest, S j => x :: replace_at j v rest
  end.

(** The list update of [updateSingleBookingInCache]: find the booking
    by id; remove it when the new version is cancelled, else replace
    it; add a booking that was not there unless it is cancelled. *)
Definition apply_booking (bookings : list Value) (booking : Value) : Res (list Value) :=
  (idx <- findIndexM (same_booking booking) bookings ;;
   status <- prop booking "status" ;;
   let cancelled := strict_eq status (VStr "cancelled") in
   Ret match idx with
       | Some i => if cancelled then remove_at i bookings
                   else replace_at i booking bookings
       | None => if cancelled then bookings else bookings ++ [booking]
       end)%res.

(** [updateSingleBookingInCache(booking)], on the [data] field of the
    cache document when the document exists: the list written back, or
    nothing when there is no document or an exception was caught. *)
Definition updateSingleBookingInCache (cached : option Value) (booking : Value)
  : option (list Value) :=
  match cached with
  | None => None
  | Some data =>
      match or_else data (VArr []) with
      | VArr bookings =>
          match apply_booking bookings booking with
          | Ret l => Some l
          | Throw _ => None
          end
      | _ => None
      end
  end.

End Cache.

(* ================================================================== *)
(** * One-time codes (POST /auth/verify-otp) *)
(* ================================================================== *)

Module Auth.
Import Js.

(** The document kept for an address, as POST /auth/send-otp writes
    it: [{ otp, expiresAt, attempts: 0, userId }]. *)
Record OtpData : Type := mkOtpData {
  otp : Value;
  expiresAt : Z;
  attempts : Z;
  userId : Value
}.

(** What the handler answers: the four refusals (status 400), the
    login, and status 500 from its [catch]. *)
Inductive Answer : Type :=
| NoOtpFound
| OtpExpired
| TooManyAttempts
| InvalidOtp
| LoggedIn (user : Value)
| ServerError.

(** What the handler does to the document. *)
Inductive DocWrite : Type :=
| KeepDoc
| DeleteDoc
| UpdateAttempts (n : Z).

(** How a write to the store ends: done; rejected and not done; or
    done although the call was rejected (the store gives no promise
    about a write whose call fails). *)
Inductive WriteOutcome : Type :=
| Written
| NotWritten
| WrittenUnacknowledged.

(** What goes wrong while one request is handled: the code cannot be
    read (the request has no body or no usable address, or the read is
    rejected), the user cannot be read, and how the one write the
    handler attempts ends. *)
Record Faults : Type := mkFaults {
  code_read_fails : bool;
  user_read_fails : bool;
  write_outcome : WriteOutcome
}.

Definition no_faults : Faults := mkFaults false false Written.

(** [await otpCollection.doc(email).delete()] or [.update(...)] and the
    answer that follows it: a rejected call takes the handler to its
    [catch]. *)
Definition write_then (f : Faults) (w : DocWrite) (answer : Answer) : Answer * DocWrite :=
  match write_outcome f with
  | Written => (answer, w)
  | NotWritten => (ServerError, KeepDoc)
  | WrittenUnacknowledged => (ServerError, w)
  end.

(** The handler, from the document it read, the time and the code
    submitted. *)
Definition verify_otp (f : Faults) (now : Z) (otpDoc : option OtpData) (submitted : Value)
  : Answer * DocWrite :=
  if code_read_fails f then (ServerError, KeepDoc)
  else
    match otpDoc with
    | None => (NoOtpFound, KeepDoc)
    | Some otpData =>
        if expiresAt otpData <? now then write_then f DeleteDoc OtpExpired
        else if negb (strict_eq (otp otpData) submitted) then
          let attempts' :=
            (if attempts otpData =? 0 then 0 else attempts otpData) + 1 in
          if 3 <=? attempts' then write_then f DeleteDoc TooManyAttempts
          else write_then f (UpdateAttempts attempts') InvalidOtp
        else if user_read_fails f then (ServerError, KeepDoc)
        else write_then f DeleteDoc (LoggedIn (userId otpData))
    end.

Definition apply_write (w : DocWrite) (doc : option OtpData) : option OtpData :=
  match w, doc with
  | KeepDoc, _ => doc
  | DeleteDoc, _ => None
  | UpdateAttempts n, Some d => Some (mkOtpData (otp d) (expiresAt d) n (userId d))
  | UpdateAttempts _, None => None
  end.

(** A request: what goes wrong while it is handled, its time and the
    code it submits. *)
Definition Request : Type := Faults * Z * Value.

(** Requests for one address handled one after another: a request
    reads the document the one before it left. *)
Fixpoint verify_all (requests : list Request) (doc : option OtpData)
  : list Answer * option OtpData :=
  match requests with
  | [] => ([], doc)
  | (f, now, submitted) :: rest =>
      let '(answer, w) := verify_otp f now doc submitted in
      let '(answers, doc') := verify_all rest (apply_write w doc) in
      (answer :: answers, doc')
  end.

Definition is_invalid (a : Answer) : bool :=
  match a with InvalidOtp => true | _ => false end.

Definition is_login (a : Answer) : bool :=
  match a with LoggedIn _ => true | _ => false end.

(** The answers that tell the client a code is on file. *)
Definition found_a_code (a : Answer) : bool :=
  match a with NoOtpFound | ServerError => false | _ => true end.

End Auth.

(* ================================================================== *)
(** * Vocabulary of the further properties *)
(* ================================================================== *)

Module MoreProps.
Import Js JsDate Api Views Legacy Props Listing Cache.

(** An upstream that serves a fixed list of pages: the request that
    follows [k] earlier requests gets page [k + 1], and every page but
    the last announces a further one. *)
Definition page_payload (records : list Value) (more : bool) : Value :=
  VObj [("success", VBool true); ("data", VArr records);
        ("pages", VObj [("nextPageExists", VBool more)])].

Definition paged_upstream (pages : list (list Value)) : Upstream :=
  fun history _ =>
    let k := List.length (filter is_http history) in
    JsonReply 200 (page_payload (nth k pages [])
                                (Nat.ltb (S k) (List.length pages))).

(** A request that sends nothing empty: what it appends to the URL it
    starts from are parameters of the caller that are not [undefined],
    [null] or the empty string and that have a string form.  The URL
    the direct call starts from is that of the endpoint; the one the
    proxy call starts from is [proxy_url], which for endpoints other
    than bookings and rooms carries [?endpoint=] and the endpoint
    already. *)
Definition tidy_request (endpoint : string) (params : list (string * Value))
           (method : string) (req : HttpRequest) : Prop :=
  Api.method req = method
  /\ incl (query req) params
  /\ Forall (fun kv => non_empty (snd kv) = true /\ has_string_form (snd kv) = true)
            (query req)
  /\ (method = "GET" -> body req = None)
  /\ match route req with
     | Direct => url req = (BEDS24_API_URL ++ "/" ++ endpoint)%string
                 /\ (method <> "GET" -> query req = [])
     | Proxy => url req = proxy_url endpoint
                /\ token_header req = None
                /\ ~ In "propertyId" (map fst (query req))
     end.

(** A GET request for page [k] of the bookings, built from the
    caller's parameters. *)
Definition carries_page (params : list (string * Value)) (k : Z) (e : Event) : Prop :=
  exists req, e = EvHttp req
              /\ tidy_request "bookings" (obj_set params "page" (VNum (num_of_Z k)))
                              "GET" req
              /\ assoc "page" (query req) = Some (VNum (num_of_Z k)).

(** The events of a walk, oldest first, from page [k] on.  Past the
    cap there is nothing.  A page within the cap begins with its log
    line, followed by the requests of its query, two at most.  The
    walk ends there, with no pause, when the page announced no further
    one or its query threw (only then may the page have no request at
    all).  When the page announced a further one, the 50 ms pause
    follows its requests and then the events from page [k + 1] on:
    those of the next page when [k] is below the cap, none when page
    [k] was the last one allowed. *)
Inductive page_trace (params : list (string * Value)) (maxPages : Z)
  : Z -> list Event -> Prop :=
| page_trace_capped k :
    maxPages < k ->
    page_trace params maxPages k []
| page_trace_last k requests :
    k <= maxPages ->
    (List.length requests <= 2)%nat ->
    Forall (carries_page params k) requests ->
    page_trace params maxPages k (EvLogPage k :: requests)
| page_trace_more k requests rest :
    k <= maxPages ->
    requests <> [] ->
    (List.length requests <= 2)%nat ->
    Forall (carries_page params k) requests ->
    page_trace params maxPages (k + 1) rest ->
    page_trace params maxPages k (EvLogPage k :: requests ++ EvDelay 50 :: rest).

(** [b'] is what POST /bookings sends for [b]: [b] itself, or, for an
    object without a truthy [propertyId], the object with [propertyId]
    set to the resort's and everything else as it was. *)
Definition defaulted (b b' : Value) : Prop :=
  match b with
  | VObj _ =>
      if truthy (field "propertyId" b) then b' = b
      else field "propertyId" b' = PROPERTY_ID
           /\ (forall k, k <> "propertyId" -> field k b' = field k b)
           /\ exists fields', b' = VObj fields'
  | _ => b' = b
  end.

(** The records of a settled fetch, as the dashboard spreads them. *)
Definition settled_list (s : Settled) : Res (list Value) :=
  (v <- settled_records s ;; spread v)%res.

(** The records of a fetch result, as the calendar spreads them. *)
Definition result_list (r : FetchResult) : Res (list Value) :=
  (v <- data_or_empty r ;; spread v)%res.

(** Identifiers that [===] finds again. *)
Definition strict_id (r : Value) : bool := strict_eq (id_of r) (id_of r).

(** No two records of the list have the same identifier. *)
Definition distinct_ids (same : Value -> Value -> bool) (l : list Value) : Prop :=
  ForallOrdPairs (fun a b => same (id_of a) (id_of b) = false) l.

(** The entries of a [Map] filled from a list without repeated
    identifiers. *)
Definition entries_of (l : list Value) : JsMap := map (fun r => (id_of r, r)) l.

(** The guest stays on after [date]: the record is not cancelled and
    does not depart on [date]. *)
Definition stays_on (date : Value) (r : Value) : bool :=
  active r && negb (strict_eq (field "departure" r) date).

(** [r] carries the identifier [k], as [===] compares. *)
Definition has_strict_id (k : Value) (r : Value) : bool := strict_eq (id_of r) k.

(** Dates of the Gregorian calendar. *)
Definition is_leap (y : Z) : bool :=
  (y mod 4 =? 0) && (negb (y mod 100 =? 0) || (y mod 400 =? 0)).

Definition days_in_month (y m : Z) : Z :=
  if m =? 2 then (if is_leap y then 29 else 28)
  else if (m =? 4) || (m =? 6) || (m =? 9) || (m =? 11) then 30
  else 31.

Definition valid_date (y m d : Z) : Prop :=
  1 <= m <= 12 /\ 1 <= d <= days_in_month y m.

(** An upstream that cannot be reached on either route. *)
Definition unreachable (direct_msg proxy_msg : string) : Upstream :=
  fun _ req =>
    match route req with
    | Direct => NetworkError direct_msg
    | Proxy => NetworkError proxy_msg
    end.

(** An upstream that answers every request with one payload. *)
Definition constant_upstream (payload : Value) : Upstream :=
  fun _ _ => JsonReply 200 payload.

End MoreProps.

(* ================================================================== *)
(** * Properties *)
(* ================================================================== *)

Import Js JsDate Api Views Legacy Props.

(** ** Validation comes before any upstream call *)

Section Validation.

Lemma q_truthy_undefined : q_truthy QUndefined = false.
Proof. reflexivity. Qed.

(** C8. A search with neither [q] nor [checkIn], and a range listing
    with [from] or [to] missing, are answered with a 400 and the world
    is left as it was: no request was sent upstream. *)
Theorem validation_before_upstream (w : World) :
  (forall q, q_truthy (sq_q q) = false -> q_truthy (sq_checkIn q) = false ->
     api_search q w =
     (Fail 400 (VStr "Required: q (search term) or checkIn date"), w))
  /\
  (forall q, q_truthy (rq_from q) = false \/ q_truthy (rq_to q) = false ->
     getBookings_range q w =
     (Fail 400 (VStr "Required: from and to dates (YYYY-MM-DD format)"), w)).
Proof.
  split.
  - intros q Hq Hc. unfold api_search, handle. rewrite Hq, Hc. reflexivity.
  - intros q H. unfold getBookings_range, handle.
    destruct H as [H | H]; rewrite H; simpl.
    + reflexivity.
    + rewrite orb_true_r. reflexivity.
Qed.

Lemma validation_before_upstream_witness :
  let w := world_with true endless_upstream in
  api_search (mkSearchQuery QUndefined QUndefined (QStr "2024-05-12")) w
  = (Fail 400 (VStr "Required: q (search term) or checkIn date"), w)
  /\ getBookings_range (mkRangeQuery (QStr "2024-05-01") QUndefined QUndefined) w
     = (Fail 400 (VStr "Required: from and to dates (YYYY-MM-DD format)"), w).
Proof.
  intro w.
  destruct (validation_before_upstream w) as [Hs Hr].
  split.
  - apply Hs; reflexivity.
  - apply Hr. right. reflexivity.
Defined.

End Validation.

(** ** Upstream failures *)

Section UpstreamFailures.

Lemma read_token_truthy w : truthy (VStr (BEDS24_READ_TOKEN w)) = true.
Proof.
  unfold BEDS24_READ_TOKEN.
  destruct (env_BEDS24_READ_TOKEN w) as [s|]; [|reflexivity].
  destruct (String.eqb s "") eqn:E; [reflexivity|].
  simpl. rewrite E. reflexivity.
Qed.

(** With [useDirectApi] set, [fetchBeds24] is the direct call, and on
    any exception of it the proxy call in a world where the flag has
    been cleared. *)
Lemma fetchBeds24_direct_mode endpoint params method body w :
  useDirectApi w = true ->
  fetchBeds24 endpoint params method body w =
  match fetchBeds24Direct endpoint params method body (BEDS24_READ_TOKEN w) w with
  | (Ret r, w1) => (Ret r, w1)
  | (Throw _, w1) =>
      fetchBeds24ViaProxy endpoint params method body (set_useDirectApi false w1)
  end.
Proof.
  intros Hd. unfold fetchBeds24. rewrite Hd.
  unfold bind at 1, try_catch, bind at 1, getToken, getReadToken.
  rewrite read_token_truthy. unfold bind, ret.
  destruct (fetchBeds24Direct _ _ _ _ _ w) as [[r|e] w1]; reflexivity.
Qed.

Lemma fetchBeds24_proxy_mode endpoint params method body w :
  useDirectApi w = false ->
  fetchBeds24 endpoint params method body w =
  fetchBeds24ViaProxy endpoint params method body w.
Proof. intros Hd. unfold fetchBeds24. rewrite Hd. reflexivity. Qed.

Lemma append_all_cases req :
  (sendable req = true /\ append_all req = Ret req)
  \/ (sendable req = false /\ append_all req = Throw no_string_form).
Proof. unfold append_all. destruct (sendable req); auto. Qed.

(** The claim of C7 as it is stated fails: the direct API answers the
    query with [success: false] and an error message, and the query
    call does not fail: it returns the page the proxy gave. *)
Lemma upstream_failure_not_propagated :
  let w := world_with true (direct_down_proxy_serving [b1_from_A]) in
  let req := direct_request "bookings" [("propertyId", PROPERTY_ID)] "GET" VNull
                            (BEDS24_READ_TOKEN w) in
  upstream w (trace w) req = JsonReply 200 failure_payload
  /\ prop failure_payload "success" = Ret (VBool false)
  /\ exists w',
       fetchBeds24 "bookings" [("propertyId", PROPERTY_ID)] "GET" VNull w
       = (Ret (mkFetchResult (page_of [b1_from_A]) 200), w').
Proof.
  intros w req. split; [reflexivity|]. split; [reflexivity|].
  eexists. vm_compute. reflexivity.
Qed.

(** C7, amended.  When the payload of the direct call carries
    [success === false] or a truthy [error], [fetchBeds24Direct] throws
    the [Error] made from [data.error || 'API request failed'];
    [fetchBeds24] catches it, clears [useDirectApi] and hands the query
    to the proxy: the caller gets what the proxy call gives.  A proxy
    payload that carries no failure is returned as the result, as it is
    when its [data] is truthy and wrapped as [{ data: payload }]
    otherwise. *)
Theorem upstream_failure_handling endpoint params method body w
        status payload success error :
  let req := direct_request endpoint params method body (BEDS24_READ_TOKEN w) in
  let w1 := emit (EvHttp req) w in
  sendable req = true ->
  upstream w (trace w) req = JsonReply status payload ->
  prop payload "success" = Ret success ->
  prop payload "error" = Ret error ->
  strict_eq success (VBool false) || truthy error = true ->
  fetchBeds24Direct endpoint params method body (BEDS24_READ_TOKEN w) w
  = (Throw (new_Error (or_else error (VStr "API request failed"))), w1)
  /\ (useDirectApi w = true ->
      fetchBeds24 endpoint params method body w
      = fetchBeds24ViaProxy endpoint params method body (set_useDirectApi false w1))
  /\ (forall w2 status2 payload2,
        let preq := proxy_request endpoint params method body in
        sendable preq = true ->
        upstream w2 (trace w2) preq = JsonReply status2 payload2 ->
        readable payload2 = true ->
        reports_failure payload2 = false ->
        fetchBeds24ViaProxy endpoint params method body w2
        = (Ret (mkFetchResult
                  (if truthy (field "data" payload2) then payload2
                   else VObj [("data", payload2)]) status2),
           emit (EvHttp preq) w2)).
Proof.
  intros req w1 Hsend Hreply Hs He Hfail.
  assert (Hdirect :
    fetchBeds24Direct endpoint params method body (BEDS24_READ_TOKEN w) w
    = (Throw (new_Error (or_else error (VStr "API request failed"))), w1)).
  { unfold fetchBeds24Direct, bind at 1, lift, append_all. fold req. rewrite Hsend.
    unfold bind at 1, fetch_json. rewrite Hreply.
    unfold bind, lift. rewrite Hs, He, Hfail. reflexivity. }
  split; [exact Hdirect|]. split.
  - intros Hd. rewrite (fetchBeds24_direct_mode _ _ _ _ _ Hd), Hdirect. reflexivity.
  - intros w2 status2 payload2 preq Hsend2 Hp Hr _.
    unfold fetchBeds24ViaProxy, bind at 1, lift, append_all. fold preq. rewrite Hsend2.
    unfold bind at 1, fetch_json. rewrite Hp.
    assert (Hdata : prop payload2 "data" = Ret (field "data" payload2)).
    { unfold field. destruct payload2; try discriminate; simpl; try reflexivity.
      destruct (assoc "data" fields); reflexivity. }
    unfold bind, lift, ret. rewrite Hdata.
    destruct (truthy (field "data" payload2)); reflexivity.
Qed.

Lemma upstream_failure_handling_witness :
  let w := world_with true failing_upstream in
  let req := direct_request "bookings" [("propertyId", PROPERTY_ID)] "GET" VNull
                            (BEDS24_READ_TOKEN w) in
  fetchBeds24Direct "bookings" [("propertyId", PROPERTY_ID)] "GET" VNull
                    (BEDS24_READ_TOKEN w) w
  = (Throw (mkExn KError (VStr "Invalid token")), emit (EvHttp req) w).
Proof.
  intros w req.
  apply (upstream_failure_handling "bookings" [("propertyId", PROPERTY_ID)] "GET" VNull
           w (status := 200) (payload := failure_payload)
           (success := VBool false) (error := VStr "Invalid token"));
    reflexivity.
Defined.

End UpstreamFailures.

(** ** Reasoning about computations that may throw *)

Section ResFacts.

Lemma res_bind_ret {A B} (r : Res A) (k : A -> Res B) (b : B) :
  res_bind r k = Ret b -> exists a, r = Ret a /\ k a = Ret b.
Proof. destruct r as [a|e]; simpl; [eauto | discriminate]. Qed.

Lemma prop_readable b k v : prop b k = Ret v -> readable b = true.
Proof. destruct b; simpl; intros H; try reflexivity; discriminate. Qed.

Lemma readable_prop b k : readable b = true -> prop b k = Ret (field k b).
Proof.
  unfold field. destruct b; simpl; intros H; try reflexivity; try discriminate.
  destruct (assoc k fields); reflexivity.
Qed.

Lemma filterM_sound {A} (p : A -> Res bool) l l' :
  filterM p l = Ret l' ->
  incl l' l /\ Forall (fun x => p x = Ret true) l'.
Proof.
  revert l'. induction l as [|x rest IH]; simpl; intros l' H.
  - inversion H. split; [apply incl_refl | constructor].
  - apply res_bind_ret in H. destruct H as [b [Hb H]].
    apply res_bind_ret in H. destruct H as [rest' [Hr H]].
    destruct (IH _ Hr) as [Hincl Hall].
    inversion H; subst. destruct b.
    + split.
      * intros y [->|Hy]; [left; reflexivity | right; apply Hincl, Hy].
      * constructor; assumption.
    + split; [apply incl_tl, Hincl | assumption].
Qed.

Lemma filterM_complete {A} (p : A -> Res bool) l l' x :
  filterM p l = Ret l' -> In x l -> p x = Ret true -> In x l'.
Proof.
  revert l'. induction l as [|y rest IH]; simpl; intros l' H Hin Hp; [contradiction|].
  apply res_bind_ret in H. destruct H as [b [Hb H]].
  apply res_bind_ret in H. destruct H as [rest' [Hr H]].
  inversion H; subst. destruct Hin as [->|Hin].
  - rewrite Hp in Hb. inversion Hb; subst. left; reflexivity.
  - destruct b; [right|]; eapply IH; eauto.
Qed.

Lemma not_cancelled_true b : not_cancelled b = Ret true -> ~ is_cancelled b.
Proof.
  unfold not_cancelled, is_cancelled. intros H Hc. rewrite Hc in H.
  simpl in H. discriminate.
Qed.

Lemma not_cancelled_readable b r : not_cancelled b = Ret r -> readable b = true.
Proof.
  unfold not_cancelled. intros H. apply res_bind_ret in H.
  destruct H as [s [Hs _]]. eapply prop_readable, Hs.
Qed.

(** What the cancellation filter lets through. *)
Lemma filter_not_cancelled l l' :
  filterM not_cancelled l = Ret l' ->
  incl l' l /\ none_cancelled l' /\ Forall (fun b => readable b = true) l'.
Proof.
  intros H. destruct (filterM_sound _ _ H) as [Hincl Hall].
  split; [assumption|]. split.
  - eapply Forall_impl; [|exact Hall]. intros b. apply not_cancelled_true.
  - eapply Forall_impl; [|exact Hall]. intros b. apply not_cancelled_readable.
Qed.

Lemma array_filter_not_cancelled v l' :
  array_filter v not_cancelled = Ret l' -> none_cancelled l'.
Proof.
  destruct v; simpl; try discriminate. intros H.
  apply filter_not_cancelled in H. tauto.
Qed.

Lemma none_cancelled_incl l l' :
  incl l' l -> none_cancelled l -> none_cancelled l'.
Proof.
  unfold none_cancelled. rewrite !Forall_forall. intros Hi H x Hx. apply H, Hi, Hx.
Qed.

Lemma map_set_values_incl m k v x :
  In x (map_values (map_set m k v)) -> x = v \/ In x (map_values m).
Proof.
  unfold map_values. induction m as [|[k' v'] rest IH]; simpl.
  - intros [H|[]]; left; congruence.
  - destruct (same_value_zero k' k); simpl.
    + intros [H|H]; [left; congruence | right; right; exact H].
    + intros [H|H]; [right; left; exact H|].
      destruct (IH H) as [?|?]; [left | right; right]; assumption.
Qed.

Lemma bookingMap_fold_from_incl records :
  forall m0 m,
    foldM (fun m b => (id <- prop b "id" ;; Ret (map_set m id b))%res) records m0 = Ret m ->
    forall x, In x (map_values m) -> In x records \/ In x (map_values m0).
Proof.
  induction records as [|b rest IH]; simpl; intros m0 m H x Hx.
  - inversion H; subst. right; exact Hx.
  - apply res_bind_ret in H. destruct H as [m1 [H1 H]].
    apply res_bind_ret in H1. destruct H1 as [id [_ H1]]. inversion H1; subst.
    destruct (IH _ _ H x Hx) as [Hr|Hm]; [left; right; exact Hr|].
    apply map_set_values_incl in Hm. destruct Hm as [->|Hm]; [left; left; reflexivity|].
    right; exact Hm.
Qed.

(** The merge returns records of its input only. *)
Lemma merge_by_id_incl records out :
  merge_by_id records = Ret out -> incl out records.
Proof.
  unfold merge_by_id, bookingMap_fold. intros H.
  apply res_bind_ret in H. destruct H as [m [Hm H]]. inversion H; subst.
  intros x Hx. destruct (bookingMap_fold_from_incl _ _ Hm x Hx) as [?|[]]. assumption.
Qed.

End ResFacts.

Ltac res_inv H :=
  repeat match type of H with
         | res_bind _ _ = Ret _ =>
             let a := fresh "v" in
             let Ha := fresh "Hv" in
             apply res_bind_ret in H; destruct H as [a [Ha H]]
         end.

(** ** Cancelled records *)

Section Cancellation.

(** C2. In the overview, calendar, movements, housekeeping and revenue
    views no record of any returned collection has status
    ["cancelled"]. *)
Theorem cancelled_records_excluded :
  (forall date c a d body,
      overview_respond date c a d = Ret body ->
      none_cancelled (ov_current body) /\ none_cancelled (ov_arrivals body)
      /\ none_cancelled (ov_departures body))
  /\ (forall start end_ days ar dr cr body,
         calendar_respond start end_ days ar dr cr = Ret body ->
         none_cancelled (cal_data body))
  /\ (forall date a d body,
         movements_respond date a d = Ret body ->
         none_cancelled (mv_checkIns body) /\ none_cancelled (mv_checkOuts body))
  /\ (forall date c d a body,
         housekeeping_respond date c d a = Ret body ->
         none_cancelled (hk_departures body) /\ none_cancelled (hk_arrivals body)
         /\ none_cancelled (hk_stayovers body))
  /\ (forall from to w body w',
         api_revenue from to w = (Ok body, w') ->
         none_cancelled (rev_bookings body)).
Proof.
  split; [|split; [|split; [|split]]].
  - intros date c a d body H. unfold overview_respond in H. res_inv H.
    inversion H; subst; simpl.
    repeat split; eapply array_filter_not_cancelled; eauto.
  - intros start end_ days ar dr cr body H. unfold calendar_respond in H. res_inv H.
    inversion H; subst; simpl.
    match goal with
    | Hf : filterM not_cancelled _ = Ret ?l, Hm : merge_by_id ?l = Ret _ |- _ =>
        apply filter_not_cancelled in Hf; apply merge_by_id_incl in Hm;
        eapply none_cancelled_incl; [exact Hm | tauto]
    end.
  - intros date a d body H. unfold movements_respond in H. res_inv H.
    inversion H; subst; simpl.
    split; eapply array_filter_not_cancelled; eauto.
  - intros date c d a body H. unfold housekeeping_respond in H. res_inv H.
    inversion H; subst; simpl.
    split; [|split]; try (eapply array_filter_not_cancelled; eauto; fail).
    match goal with
    | Hs : filterM (is_stayover _) ?cur = Ret _,
      Hc : array_filter _ not_cancelled = Ret ?cur |- _ =>
        apply filterM_sound in Hs; apply array_filter_not_cancelled in Hc;
        eapply none_cancelled_incl; [apply Hs | exact Hc]
    end.
  - intros from to w body w' H. unfold api_revenue, handle in H.
    destruct (negb (q_truthy from) || negb (q_truthy to)).
    + unfold ret in H. discriminate.
    + unfold in_template, bind, lift, ret in H.
      destruct (q_to_string from); [|discriminate].
      destruct (q_to_string to); [|discriminate].
      destruct (fetchAllBookingPages _ _ w) as [[[bs tp]|e] w1]; [|discriminate].
      simpl in H.
      destruct (filterM not_cancelled bs) as [kept|e] eqn:Hf; [|discriminate].
      destruct (revenue_totals kept); [|discriminate].
      inversion H; subst; simpl.
      apply filter_not_cancelled in Hf. tauto.
Qed.

(** The single page of [one_page_upstream] holds a cancelled booking;
    the revenue view drops it. *)
Lemma cancelled_records_excluded_witness :
  exists body w',
    api_revenue (QStr "2024-05-01") (QStr "2024-05-31")
                (world_with true one_page_upstream) = (Ok body, w')
    /\ List.length (rev_bookings body) = 1%nat
    /\ none_cancelled (rev_bookings body).
Proof.
  destruct (api_revenue (QStr "2024-05-01") (QStr "2024-05-31")
                        (world_with true one_page_upstream))
    as [[body|code err] w'] eqn:E.
  - exists body, w'. split; [reflexivity|]. split.
    + vm_compute in E. inversion E; subst. reflexivity.
    + exact (proj2 (proj2 (proj2 (proj2 cancelled_records_excluded)))
               _ _ _ _ _ E).
  - vm_compute in E. discriminate.
Defined.

End Cancellation.

(** ** Revenue totals *)

Section Revenue.

Lemma digit_of_digit_char k : 0 <= k <= 9 -> digit_of (digit_char k) = Some k.
Proof.
  intros H.
  assert (Hk : k = 0 \/ k = 1 \/ k = 2 \/ k = 3 \/ k = 4 \/ k = 5 \/ k = 6
               \/ k = 7 \/ k = 8 \/ k = 9) by lia.
  repeat (destruct Hk as [-> | Hk]; [reflexivity|]). subst. reflexivity.
Qed.

(** *** Whole numbers as doubles *)

Lemma iter_pos_invariant {A} (f : A -> A) (P : A -> Prop) :
  (forall x, P x -> P (f x)) -> forall n x, P x -> P (iter_pos f n x).
Proof. intros Hf n. induction n as [p IH|p IH|]; intros y Hy; simpl; auto. Qed.

Lemma shr_1_nonneg mrs : 0 <= shr_m mrs -> 0 <= shr_m (shr_1 mrs).
Proof.
  destruct mrs as [m r s]. simpl. intros Hm.
  destruct m as [|p|p]; [simpl; lia| |lia].
  destruct p; simpl; lia.
Qed.

Lemma shr_fexp_nonneg m e l :
  0 <= m -> 0 <= shr_m (fst (shr_fexp prec emax m e l)).
Proof.
  intros Hm. unfold shr_fexp, shr.
  assert (H0 : 0 <= shr_m (shr_record_of_loc m l)).
  { destruct l as [|[]]; exact Hm. }
  destruct (fexp prec emax (Zdigits2 m + e) - e); cbn [fst]; try exact H0.
  apply iter_pos_invariant; [exact shr_1_nonneg | exact H0].
Qed.

Lemma round_nearest_even_nonneg mx lx : 0 <= mx -> 0 <= round_nearest_even mx lx.
Proof.
  intros Hm. unfold round_nearest_even.
  destruct lx as [|[]]; try destruct (Z.even mx); lia.
Qed.

(** The double nearest to a whole number that is not negative is
    neither NaN nor the negative zero. *)
Lemma num_of_Z_plain n :
  0 <= n -> is_nan (num_of_Z n) = false /\ num_of_Z n <> S754_zero true.
Proof.
  intros Hn. unfold num_of_Z, binary_normalize.
  destruct n as [|p|p]; [split; [reflexivity|discriminate]| |lia].
  unfold binary_round. destruct (shl_align _ _ _) as [mz ez].
  unfold binary_round_aux.
  pose proof (@shr_fexp_nonneg (Zpos mz) ez loc_Exact ltac:(lia)) as H1.
  destruct (shr_fexp prec emax (Z.pos mz) ez loc_Exact) as [mrs1 e1]. cbn [fst] in H1.
  pose proof (@shr_fexp_nonneg
                (round_nearest_even (shr_m mrs1) (loc_of_shr_record mrs1)) e1 loc_Exact
                (@round_nearest_even_nonneg _ _ H1)) as H2.
  destruct (shr_fexp prec emax _ e1 loc_Exact) as [mrs2 e2]. cbn [fst] in H2.
  destruct (shr_m mrs2) as [|q|q]; [split; [reflexivity|discriminate]| |lia].
  destruct (e2 <=? emax - prec); split; try reflexivity; discriminate.
Qed.

Lemma num_or_zero_whole n : 0 <= n -> num_or_zero (num_of_Z n) = num_of_Z n.
Proof.
  intros Hn. destruct (@num_of_Z_plain n Hn) as [Hnan Hz].
  unfold num_or_zero, truthy. destruct (num_of_Z n) as [[|]| | |]; try reflexivity.
  - congruence.
  - discriminate.
Qed.

(** *** Reading the digits of a whole number *)

Lemma word_head_facts c r :
  is_word (String c r) = true ->
  (nat_of_ascii c < 128)%nat
  /\ is_ws c = false
  /\ digit_of c = None
  /\ read_sign (String c r) = (false, String c r)
  /\ String.prefix "Infinity" (String c r) = false
  /\ (forall A (a : string -> A) (b : A),
         match String c r with String "."%char rest => a rest | _ => b end = b).
Proof.
  destruct c as [[] [] [] [] [] [] [] []]; intros H; try discriminate H;
    repeat split; try reflexivity; apply Nat.ltb_lt; reflexivity.
Qed.

Lemma number_end_facts c r :
  ends_number (String c r) = true ->
  digit_of c = None
  /\ Ascii.eqb c "e" = false
  /\ Ascii.eqb c "E" = false
  /\ (forall A (a : string -> A) (b : A),
         match String c r with String "."%char rest => a rest | _ => b end = b).
Proof.
  destruct c as [[] [] [] [] [] [] [] []]; intros H; try discriminate H;
    repeat split; reflexivity.
Qed.

Lemma digit_char_facts d r :
  0 <= d <= 9 ->
  (nat_of_ascii (digit_char d) < 128)%nat
  /\ is_ws (digit_char d) = false
  /\ read_sign (String (digit_char d) r) = (false, String (digit_char d) r)
  /\ String.prefix "Infinity" (String (digit_char d) r) = false.
Proof.
  intros H.
  assert (Hd : d = 0 \/ d = 1 \/ d = 2 \/ d = 3 \/ d = 4 \/ d = 5 \/ d = 6
               \/ d = 7 \/ d = 8 \/ d = 9) by lia.
  repeat (destruct Hd as [-> | Hd];
          [repeat split; try reflexivity; apply Nat.ltb_lt; reflexivity|]).
  subst. repeat split; try reflexivity; apply Nat.ltb_lt; reflexivity.
Qed.

Lemma after_ws_ascii c s :
  (nat_of_ascii c < 128)%nat -> is_ws c = false -> after_ws (String c s) = None.
Proof.
  intros Hc Hw. unfold after_ws. rewrite Hw. unfold byte_is.
  replace (Nat.eqb (nat_of_ascii c) 194) with false by (symmetry; apply Nat.eqb_neq; lia).
  replace (Nat.eqb (nat_of_ascii c) 225) with false by (symmetry; apply Nat.eqb_neq; lia).
  replace (Nat.eqb (nat_of_ascii c) 226) with false by (symmetry; apply Nat.eqb_neq; lia).
  replace (Nat.eqb (nat_of_ascii c) 227) with false by (symmetry; apply Nat.eqb_neq; lia).
  replace (Nat.eqb (nat_of_ascii c) 239) with false by (symmetry; apply Nat.eqb_neq; lia).
  destruct s as [|c2 [|c3 s3]]; reflexivity.
Qed.

Lemma skip_ws_ascii c s :
  (nat_of_ascii c < 128)%nat -> is_ws c = false -> skip_ws (String c s) = String c s.
Proof.
  intros Hc Hw. unfold skip_ws. cbn [String.length skip_ws_upto].
  rewrite (@after_ws_ascii c s Hc Hw). reflexivity.
Qed.

Lemma decimal_digits_app fuel :
  forall n acc rest,
    (decimal_digits fuel n acc ++ rest)%string = decimal_digits fuel n (acc ++ rest)%string.
Proof.
  induction fuel as [|fuel IH]; intros n acc rest; [reflexivity|].
  cbn [decimal_digits]. destruct (n <? 10); [reflexivity|]. rewrite IH. reflexivity.
Qed.

Lemma read_digits_decimal_digits fuel :
  forall n acc,
    0 <= n < 2 ^ Z.of_nat (S fuel) ->
    exists d tail k,
      0 <= d <= 9
      /\ decimal_digits (S fuel) n acc = String (digit_char d) tail
      /\ 0 < k
      /\ forall a c,
           read_digits digit_of 10 (decimal_digits (S fuel) n acc) a c
           = read_digits digit_of 10 acc (a * 10 ^ k + n) (c + k).
Proof.
  assert (Hone : forall n acc, 0 <= n < 10 ->
            forall a c, read_digits digit_of 10 (String (digit_char n) acc) a c
                        = read_digits digit_of 10 acc (a * 10 + n) (c + 1)).
  { intros n acc Hn a c. cbn [read_digits]. rewrite (@digit_of_digit_char n ltac:(lia)).
    reflexivity. }
  induction fuel as [|fuel IH]; intros n acc Hn.
  - change (2 ^ Z.of_nat 1) with 2 in Hn. cbn [decimal_digits].
    replace (n <? 10) with true by (symmetry; apply Z.ltb_lt; lia).
    replace (n mod 10) with n by (Z.to_euclidean_division_equations; lia).
    exists n, acc, 1. split; [lia|]. split; [reflexivity|]. split; [lia|].
    intros a c. rewrite Hone by lia. rewrite Z.pow_1_r. reflexivity.
  - remember (S fuel) as f eqn:Ef. cbn [decimal_digits].
    destruct (Z.ltb_spec n 10) as [Hsmall|Hbig].
    + replace (n mod 10) with n by (Z.to_euclidean_division_equations; lia).
      exists n, acc, 1. split; [lia|]. split; [reflexivity|]. split; [lia|].
      intros a c. rewrite Hone by lia. rewrite Z.pow_1_r. reflexivity.
    + assert (Hdiv : 0 <= n / 10 < 2 ^ Z.of_nat f).
      { rewrite Nat2Z.inj_succ, Z.pow_succ_r in Hn by lia.
        Z.to_euclidean_division_equations; lia. }
      subst f.
      destruct (IH (n / 10) (String (digit_char (n mod 10)) acc) Hdiv)
        as [d [tail [k [Hd [Hhead [Hk Hread]]]]]].
      exists d, tail, (k + 1). split; [exact Hd|]. split; [exact Hhead|].
      split; [lia|]. intros a c. rewrite Hread.
      rewrite Hone by (Z.to_euclidean_division_equations; lia).
      rewrite Z.pow_add_r, Z.pow_1_r by lia.
      f_equal; [|lia].
      pose proof (Z.div_mod n 10 ltac:(lia)) as Hdm.
      generalize dependent (10 ^ k). intros. lia.
Qed.

(** A text that begins with the digits of a whole number and goes on
    with no part of a number reads as that number. *)
Lemma parseFloat_string_digits n rest :
  0 <= n -> ends_number rest = true ->
  parseFloat_string (decimal n ++ rest) = num_of_Z n.
Proof.
  intros Hn Hrest. unfold decimal. rewrite decimal_digits_app. cbn [append].
  assert (Hbound : 0 <= n < 2 ^ Z.of_nat (S (Z.to_nat (Z.log2 n)))).
  { rewrite Nat2Z.inj_succ, Z2Nat.id by apply Z.log2_nonneg.
    destruct (Z.eq_dec n 0) as [->|Hne]; [cbn; lia|].
    pose proof (Z.log2_spec n ltac:(lia)). lia. }
  destruct (@read_digits_decimal_digits _ n rest Hbound)
    as [d [tail [k [Hd [Hhead [Hk Hread]]]]]].
  unfold parseFloat_string.
  destruct (@digit_char_facts d tail Hd) as [H128 [Hws [Hsign Hinf]]].
  rewrite Hhead at 1. rewrite (@skip_ws_ascii _ tail H128 Hws), Hsign, Hinf.
  rewrite <- Hhead, Hread. cbn [Z.mul Z.add].
  assert (Hstop : read_digits digit_of 10 rest n k = (n, k, rest)
                  /\ match rest with
                     | String "."%char r => read_digits digit_of 10 r n 0
                     | _ => (n, 0, rest)
                     end = (n, 0, rest)
                  /\ read_exponent rest = 0).
  { destruct rest as [|c r]; [repeat split; reflexivity|].
    destruct (@number_end_facts c r Hrest) as [Hdig [He [HE Hdot]]].
    split; [cbn [read_digits]; rewrite Hdig; reflexivity|].
    split; [exact (Hdot _ (fun rest => read_digits digit_of 10 rest n 0) _)|].
    cbn [read_exponent]. rewrite He, HE. reflexivity. }
  destruct Hstop as [Hs1 [Hs2 Hs3]].
  rewrite Hs1, Hs2, Hs3.
  replace (k + 0 =? 0) with false by (symmetry; apply Z.eqb_neq; lia).
  cbn [signed]. unfold num_of_decimal.
  destruct n as [|p|p]; [reflexivity| |lia].
  change (0 - 0) with 0. rewrite Z.pow_0_r, Z.mul_1_r. reflexivity.
Qed.

(** A text that begins with no number reads as NaN. *)
Lemma parseFloat_string_word s : is_word s = true -> parseFloat_string s = NaN.
Proof.
  destruct s as [|c r]; [reflexivity|]. intros Hl.
  destruct (@word_head_facts c r Hl) as [H128 [Hws [Hdig [Hsign [Hinf Hdot]]]]].
  unfold parseFloat_string.
  rewrite (@skip_ws_ascii c r H128 Hws), Hsign, Hinf.
  cbn [read_digits]. rewrite Hdig.
  rewrite (Hdot _ (fun rest => read_digits digit_of 10 rest 0 0) _). reflexivity.
Qed.

(** The view reads a price or a deposit as [reads_as] says. *)
Lemma amount_reads v x : reads_as v x -> amount v = Ret x.
Proof.
  intros H. unfold amount, parseFloat.
  destruct H as [x Hnan|n rest Hn Hrest|s Hs| b | | ]; cbn [has_string_form res_bind
                                                         parseFloat_of_form].
  - f_equal. unfold num_or_zero, truthy.
    destruct x as [[|]| | |]; try reflexivity; discriminate.
  - rewrite (@parseFloat_string_digits n rest Hn Hrest), (@num_or_zero_whole n Hn). reflexivity.
  - rewrite (@parseFloat_string_word s Hs). reflexivity.
  - reflexivity.
  - reflexivity.
  - reflexivity.
Qed.

Lemma revenue_fold bookings :
  Forall (fun b => readable b = true) bookings ->
  forall prices deposits acc,
    Forall2 (fun b x => reads_as (field "price" b) x) bookings prices ->
    Forall2 (fun b x => reads_as (field "deposit" b) x) bookings deposits ->
    foldM revenue_step bookings acc =
    Ret (mkAcc (fold_left num_add prices (acc_totalPrice acc))
               (fold_left num_add deposits (acc_totalDeposit acc))
               (acc_bookingCount acc + len bookings)).
Proof.
  induction 1 as [|b rest Hb _ IH]; intros prices deposits acc Hp Hd.
  - inversion Hp; inversion Hd; subst. simpl. unfold len. simpl.
    rewrite Z.add_0_r. destruct acc; reflexivity.
  - inversion Hp as [|? p ? prices' Hp1 Hp2]; subst.
    inversion Hd as [|? d ? deposits' Hd1 Hd2]; subst.
    cbn [foldM]. unfold revenue_step at 1.
    rewrite (@readable_prop b "price" Hb). cbn [res_bind].
    rewrite (@amount_reads _ _ Hp1). cbn [res_bind].
    rewrite (@readable_prop b "deposit" Hb). cbn [res_bind].
    rewrite (@amount_reads _ _ Hd1). cbn [res_bind].
    rewrite (@IH prices' deposits' _ Hp2 Hd2).
    cbn [acc_totalPrice acc_totalDeposit acc_bookingCount fold_left].
    unfold len. simpl List.length. rewrite Nat2Z.inj_succ. f_equal. f_equal. lia.
Qed.

Lemma filterM_not_cancelled_live l :
  Forall (fun b => readable b = true) l ->
  filterM not_cancelled l = Ret (filter active l).
Proof.
  induction 1 as [|b rest Hb _ IH]; [reflexivity|].
  cbn [filterM]. unfold not_cancelled at 1.
  rewrite (@readable_prop b "status" Hb). cbn [res_bind]. rewrite IH. cbn [res_bind filter].
  reflexivity.
Qed.




End Revenue.

(** ** Housekeeping *)

Section Housekeeping.

(** A record of the filtered current-occupancy set is put on the
    stayover list exactly when its departure date is not the query
    date. *)
Lemma stayover_iff_departure_differs date current stayovers :
  Forall (fun b => readable b = true) current ->
  filterM (is_stayover date) current = Ret stayovers ->
  forall r, In r stayovers <->
            In r current /\ strict_eq (field "departure" r) date = false.
Proof.
  intros Hr Hf r. split.
  - intros Hin. destruct (filterM_sound _ _ Hf) as [Hincl Hall].
    split; [apply Hincl, Hin|].
    rewrite Forall_forall in Hall. specialize (Hall _ Hin).
    unfold is_stayover in Hall. apply res_bind_ret in Hall.
    destruct Hall as [dep [Hdep Hall]]. injection Hall as Hn.
    unfold field. rewrite Hdep. apply negb_true_iff in Hn. exact Hn.
  - intros [Hin Hd]. eapply filterM_complete; eauto.
    rewrite Forall_forall in Hr. unfold is_stayover.
    rewrite (readable_prop r "departure" (Hr _ Hin)). simpl. rewrite Hd. reflexivity.
Qed.

(** C5, at the failing input.  On 2024-05-10 one guest is in house
    and leaves the next day; another left that morning and is reported
    by the departures query only.  The stayover list holds the guest in
    house, and the summary reports zero stayovers. *)
Theorem stayover_count_differs_from_list :
  exists body,
    housekeeping_respond hk_date (result_of [hk_in_house])
                         (result_of [hk_left_today]) (result_of []) = Ret body
    /\ hk_stayovers body = [hk_in_house]
    /\ hk_stayovers_count body = 0
    /\ hk_stayovers_count body <> len (hk_stayovers body).
Proof.
  eexists. split; [vm_compute; reflexivity|]. simpl.
  split; [reflexivity|]. split; [reflexivity|]. discriminate.
Qed.

End Housekeeping.

(** ** The end date of the calendar *)

Section CalendarEnd.

(** Day numbers and civil dates correspond. *)
Lemma civil_from_days_spec z :
  let '(y, m, d) := civil_from_days z in
  1 <= m <= 12 /\ days_from_civil y m d = z.
Proof.
  unfold civil_from_days, days_from_civil. cbv zeta.
  set (z' := z + 719468).
  set (era := z' / 146097).
  set (doe := z' - era * 146097).
  assert (Hdoe : 0 <= doe < 146097).
  { unfold doe, era. pose proof (Z.div_mod z' 146097).
    pose proof (Z.mod_pos_bound z' 146097). lia. }
  set (yoe := (doe - doe / 1460 + doe / 36524 - doe / 146096) / 365).
  assert (Hyoe : 0 <= yoe <= 399).
  { unfold yoe. Z.to_euclidean_division_equations; lia. }
  set (doy := doe - (365 * yoe + yoe / 4 - yoe / 100)).
  assert (Hdoy : 0 <= doy <= 365).
  { unfold doy, yoe. Z.to_euclidean_division_equations; lia. }
  set (mp := (5 * doy + 2) / 153).
  assert (Hmp : 0 <= mp <= 11).
  { unfold mp. Z.to_euclidean_division_equations; lia. }
  destruct (Z.ltb_spec mp 10).
  - destruct (Z.leb_spec (mp + 3) 2); [lia|].
    destruct (Z.ltb_spec 2 (mp + 3)); [|lia].
    split; [lia|].
    replace ((yoe + era * 400) / 400) with era
      by (Z.to_euclidean_division_equations; lia).
    replace (mp + 3 - 3) with mp by lia.
    replace (yoe + era * 400 - era * 400) with yoe by lia.
    unfold doy, doe, z'. lia.
  - destruct (Z.leb_spec (mp - 9) 2); [|lia].
    destruct (Z.ltb_spec 2 (mp - 9)); [lia|].
    split; [lia|].
    replace (mp - 9 + 9) with mp by lia.
    replace (yoe + era * 400 + 1 - 1) with (yoe + era * 400) by lia.
    replace ((yoe + era * 400) / 400) with era
      by (Z.to_euclidean_division_equations; lia).
    replace (yoe + era * 400 - era * 400) with yoe by lia.
    unfold doy, doe, z'. lia.
Qed.

(** Replacing the day of the month by itself plus [n] moves the day
    number by [n]. *)
Lemma MakeDay_shift t n :
  MakeDay (YearFromTime t) (MonthFromTime t) (DateFromTime t + n) = Day t + n.
Proof.
  unfold YearFromTime, MonthFromTime, DateFromTime.
  pose proof (civil_from_days_spec (Day t)) as H.
  destruct (civil_from_days (Day t)) as [[y m] d]. simpl fst; simpl snd.
  destruct H as [Hm Hd]. unfold MakeDay.
  replace ((m - 1) / 12) with 0 by (Z.to_euclidean_division_equations; lia).
  replace ((m - 1) mod 12 + 1) with m by (Z.to_euclidean_division_equations; lia).
  rewrite Z.add_0_r. rewrite <- Hd. unfold days_from_civil. lia.
Qed.

(** The literal instants of the changes of Asia/Dhaka. *)
Lemma dhaka_zone_changes :
  dhaka_zone
  = zone_of_changes 21700000
      [(- 2524543300000, 21200000); (- 891582800000, 23400000);
       (- 872058600000, 19800000); (- 862637400000, 23400000);
       (- 576138600000, 21600000); (1245430800000, 25200000);
       (1262278800000, 21600000)].
Proof. unfold dhaka_zone. f_equal. Qed.

(** Since 30 September 1951, midnight +06:00 of a day lies on that day
    in Asia/Dhaka. *)
Lemma dhaka_day_of_midnight_plus6 day :
  days_from_civil 1951 9 30 <= day ->
  Day (LocalTime dhaka_zone (MakeDate day 0 - 6 * msPerHour)) = day.
Proof.
  change (days_from_civil 1951 9 30) with (- 6668). intros Hday.
  rewrite dhaka_zone_changes.
  unfold LocalTime, zone_of_changes. cbn [offset_at_utc offset_after].
  unfold MakeDate, msPerDay, msPerHour.
  repeat match goal with
         | |- context [?a <? ?b] => destruct (Z.ltb_spec a b); try lia
         end;
    unfold Day, msPerDay; Z.to_euclidean_division_equations; lia.
Qed.

(** On a host whose offset from UTC never changes, the date built at
    midnight +06:00 of day [day] and moved by [n] days of the month is
    midnight +06:00 of day [day + n], and prints in Asia/Dhaka as that
    day (for days since 30 September 1951). *)
Lemma constant_offset_host_moves_whole_days offset day n :
  Z.abs (MakeDate (day + n) 0 - 6 * msPerHour) <= 8640000000000000 ->
  let host := fixed_zone offset in
  let startDate := Some (MakeDate day 0 - 6 * msPerHour) in
  setDate host startDate (option_map (fun d => d + n) (getDate host startDate))
  = Some (MakeDate (day + n) 0 - 6 * msPerHour).
Proof.
  intros Hrange host startDate.
  unfold startDate, setDate, getDate, option_map, host, LocalTime, UTC.
  simpl offset_at_utc; simpl offset_at_local.
  rewrite MakeDay_shift.
  set (tl := MakeDate day 0 - 6 * msPerHour + offset).
  assert (Hu : MakeDate (Day tl + n) (TimeWithinDay tl) - offset
               = MakeDate (day + n) 0 - 6 * msPerHour).
  { unfold MakeDate, Day, TimeWithinDay, tl, MakeDate, msPerDay, msPerHour.
    Z.to_euclidean_division_equations; lia. }
  rewrite Hu. unfold TimeClip.
  apply Z.leb_le in Hrange. rewrite Hrange. reflexivity.
Qed.

Lemma constant_offset_host_shifts_whole_days offset day n :
  Z.abs (MakeDate (day + n) 0 - 6 * msPerHour) <= 8640000000000000 ->
  days_from_civil 1951 9 30 <= day + n ->
  let host := fixed_zone offset in
  let startDate := Some (MakeDate day 0 - 6 * msPerHour) in
  let moved := setDate host startDate
                       (option_map (fun d => d + n) (getDate host startDate)) in
  moved = Some (MakeDate (day + n) 0 - 6 * msPerHour)
  /\ toLocaleDateString_en_CA dhaka_zone moved =
     let '(y, m, d) := civil_from_days (day + n) in
     (decimal y ++ "-" ++ pad2 m ++ "-" ++ pad2 d)%string.
Proof.
  intros Hrange Hsince host startDate moved.
  assert (Hm : moved = Some (MakeDate (day + n) 0 - 6 * msPerHour)).
  { apply (@constant_offset_host_moves_whole_days offset day n Hrange). }
  split; [exact Hm|]. rewrite Hm.
  unfold toLocaleDateString_en_CA.
  rewrite (@dhaka_day_of_midnight_plus6 (day + n) Hsince). reflexivity.
Qed.

Lemma two_digits_pad2 n rest :
  0 <= n <= 99 -> two_digits (pad2 n ++ rest)%string = Some (n, rest).
Proof.
  intros H. unfold pad2. cbn [append]. unfold two_digits.
  rewrite !digit_of_digit_char by (Z.to_euclidean_division_equations; lia).
  f_equal. f_equal. Z.to_euclidean_division_equations; lia.
Qed.

(** A text that begins with a digit is read from a year of four
    digits. *)
Lemma iso_year_of_digits n rest :
  0 <= n <= 99 ->
  iso_year (pad2 n ++ rest)%string = four_digits (pad2 n ++ rest)%string.
Proof.
  intros Hn. unfold pad2. cbn [append].
  assert (Hd : 0 <= n / 10 <= 9) by (Z.to_euclidean_division_equations; lia).
  generalize (String (digit_char (n mod 10)) rest). intros tail.
  assert (Hk : n / 10 = 0 \/ n / 10 = 1 \/ n / 10 = 2 \/ n / 10 = 3 \/ n / 10 = 4
               \/ n / 10 = 5 \/ n / 10 = 6 \/ n / 10 = 7 \/ n / 10 = 8 \/ n / 10 = 9)
    by lia.
  repeat (destruct Hk as [-> | Hk]; [reflexivity|]). rewrite Hk. reflexivity.
Qed.

(** A date of the years 0 to 9999 written [YYYY-MM-DD] is read back as
    midnight +06:00 of that day. *)
Lemma parse_iso_date y m d :
  0 <= y <= 9999 -> 1 <= m <= 12 -> 1 <= d <= 31 ->
  parse_midnight_plus6 (iso_date y m d ++ "T00:00:00+06:00")%string
  = Some (MakeDate (days_from_civil y m d) 0 - 6 * msPerHour).
Proof.
  intros Hy Hm Hd. unfold parse_midnight_plus6, iso_date, pad4.
  assert (E : (((pad2 (y / 100) ++ pad2 (y mod 100)) ++ "-" ++ pad2 m ++ "-" ++ pad2 d)
                 ++ "T00:00:00+06:00"
               = pad2 (y / 100) ++ pad2 (y mod 100) ++ "-" ++ pad2 m ++ "-" ++ pad2 d
                 ++ "T00:00:00+06:00")%string) by reflexivity.
  rewrite E. clear E.
  rewrite iso_year_of_digits by (Z.to_euclidean_division_equations; lia).
  unfold four_digits.
  rewrite two_digits_pad2 by (Z.to_euclidean_division_equations; lia).
  rewrite two_digits_pad2 by (Z.to_euclidean_division_equations; lia).
  replace (100 * (y / 100) + y mod 100) with y
    by (Z.to_euclidean_division_equations; lia).
  unfold iso_month_day.
  cbn [append]. rewrite two_digits_pad2 by lia.
  cbn [append]. rewrite two_digits_pad2 by lia.
  rewrite String.eqb_refl. cbn [andb].
  replace ((1 <=? m) && (m <=? 12) && (1 <=? d) && (d <=? 31)) with true
    by (symmetry; rewrite !andb_true_iff, !Z.leb_le; lia).
  assert (Hday : MakeDay y (m - 1) d = days_from_civil y m d).
  { unfold MakeDay.
    replace ((m - 1) / 12) with 0 by (Z.to_euclidean_division_equations; lia).
    replace ((m - 1) mod 12 + 1) with m by (Z.to_euclidean_division_equations; lia).
    rewrite Z.add_0_r. unfold days_from_civil. lia. }
  rewrite Hday. unfold TimeClip.
  replace (Z.abs (MakeDate (days_from_civil y m d) 0 - 6 * msPerHour)
             <=? 8640000000000000) with true; [reflexivity|].
  symmetry. apply Z.leb_le.
  unfold MakeDate, days_from_civil, msPerDay, msPerHour.
  destruct (m <=? 2); destruct (2 <? m); Z.to_euclidean_division_equations; lia.
Qed.

(** On a host whose offset from UTC never changes, the end date of
    the calendar is the start date moved by [days] days of the civil
    calendar, whatever the offset is, for end dates since 30 September
    1951. *)
Lemma calendar_end_on_constant_offset_host offset y m d days :
  0 <= y <= 9999 -> 1 <= m <= 12 -> 1 <= d <= 31 ->
  Z.abs (MakeDate (days_from_civil y m d + days) 0 - 6 * msPerHour)
  <= 8640000000000000 ->
  days_from_civil 1951 9 30 <= days_from_civil y m d + days ->
  calendar_end (fixed_zone offset) (iso_date y m d) days =
  let '(y', m', d') := civil_from_days (days_from_civil y m d + days) in
  (decimal y' ++ "-" ++ pad2 m' ++ "-" ++ pad2 d')%string.
Proof.
  intros Hy Hm Hd Hrange Hsince. unfold calendar_end.
  rewrite (parse_iso_date Hy Hm Hd).
  apply (@constant_offset_host_shifts_whole_days offset _ _ Hrange Hsince).
Qed.

(** Under the offset Asia/Dhaka had in 1940, seven minutes short of
    six hours, midnight +06:00 lies on the day before: on any host
    with a constant offset, one day after 1940-01-01 comes out as
    1940-01-01. *)
Lemma calendar_end_in_1940 offset :
  calendar_end (fixed_zone offset) (iso_date 1940 1 1) 1 = "1940-01-01".
Proof.
  unfold calendar_end.
  rewrite (@parse_iso_date 1940 1 1) by lia.
  rewrite (@constant_offset_host_moves_whole_days offset (days_from_civil 1940 1 1) 1)
    by (vm_compute; discriminate).
  vm_compute. reflexivity.
Qed.

(** C6, at the failing input.  On a host in UTC, and on a host in
    UTC+6, one day after 2024-01-31 is 2024-02-01 and one day after
    2024-03-10 is 2024-03-11.  On a host in America/New_York one day
    after 2024-03-10 is computed as 2024-03-10: [setDate] keeps the
    host-local time of day across the change to daylight saving time,
    which is one hour short of midnight in Asia/Dhaka. *)
Theorem calendar_end_depends_on_host :
  calendar_end utc_zone "2024-01-31" 1 = "2024-02-01"
  /\ calendar_end (fixed_zone (6 * msPerHour)) "2024-01-31" 1 = "2024-02-01"
  /\ calendar_end new_york_2024 "2024-01-31" 1 = "2024-02-01"
  /\ calendar_end utc_zone "2024-03-10" 1 = "2024-03-11"
  /\ calendar_end new_york_2024 "2024-03-10" 1 = "2024-03-10".
Proof. repeat split; vm_compute; reflexivity. Qed.

End CalendarEnd.

(** ** What an upstream query does to the world *)

Section QueryEffects.

Lemma fetch_json_world req w r w' :
  fetch_json req w = (r, w') -> w' = emit (EvHttp req) w.
Proof.
  unfold fetch_json. destruct (upstream w (trace w) req); intros H; inversion H; reflexivity.
Qed.

Lemma proxy_world endpoint params method body w r w' :
  fetchBeds24ViaProxy endpoint params method body w = (r, w') ->
  let preq := proxy_request endpoint params method body in
  w' = send_if_built preq w /\ (sendable preq = false -> r = Throw no_string_form).
Proof.
  intros H preq. unfold fetchBeds24ViaProxy, bind at 1, lift, append_all in H.
  fold preq in H. unfold send_if_built. destruct (sendable preq).
  - split; [|discriminate]. unfold bind at 1 in H.
    destruct (fetch_json _ w) as [[[status payload]|e] w1] eqn:E;
      apply fetch_json_world in E; subst w1.
    + unfold bind, lift, ret in H. destruct (prop payload "data") as [inner|e].
      * destruct (truthy inner); inversion H; reflexivity.
      * inversion H; reflexivity.
    + inversion H; reflexivity.
  - inversion H. auto.
Qed.

Lemma direct_world endpoint params method body token w r w' :
  fetchBeds24Direct endpoint params method body token w = (r, w') ->
  let dreq := direct_request endpoint params method body token in
  w' = send_if_built dreq w /\ (sendable dreq = false -> r = Throw no_string_form).
Proof.
  intros H dreq. unfold fetchBeds24Direct, bind at 1, lift, append_all in H.
  fold dreq in H. unfold send_if_built. destruct (sendable dreq).
  - split; [|discriminate]. unfold bind at 1 in H.
    destruct (fetch_json _ w) as [[[status payload]|e] w1] eqn:E;
      apply fetch_json_world in E; subst w1.
    + unfold bind, lift, ret, throw in H.
      destruct (prop payload "success") as [s|e]; [|inversion H; reflexivity].
      destruct (prop payload "error") as [er|e]; [|inversion H; reflexivity].
      destruct (strict_eq s (VBool false) || truthy er); inversion H; reflexivity.
    + inversion H; reflexivity.
  - inversion H. auto.
Qed.

(** The three ways a query can go: through the proxy because the flag
    is clear; through the direct API with a result; or through the
    direct API with an exception, then the flag cleared and the proxy.
    A request is sent when it could be built. *)
Lemma fetchBeds24_world endpoint params method body w r w' :
  fetchBeds24 endpoint params method body w = (r, w') ->
  let dreq := direct_request endpoint params method body (BEDS24_READ_TOKEN w) in
  let preq := proxy_request endpoint params method body in
  (useDirectApi w = false /\ w' = send_if_built preq w
   /\ (sendable preq = false -> r = Throw no_string_form))
  \/ (useDirectApi w = true /\ sendable dreq = true
      /\ w' = emit (EvHttp dreq) w /\ exists res, r = Ret res)
  \/ (useDirectApi w = true
      /\ w' = send_if_built preq (set_useDirectApi false (send_if_built dreq w))
      /\ (sendable preq = false -> r = Throw no_string_form)).
Proof.
  intros H dreq preq. destruct (useDirectApi w) eqn:Hd.
  - rewrite (fetchBeds24_direct_mode _ _ _ _ _ Hd) in H.
    destruct (fetchBeds24Direct _ _ _ _ _ w) as [[res|e] w1] eqn:E;
      apply direct_world in E; destruct E as [-> Hun].
    + inversion H; subst. right; left. fold dreq in Hun |- *.
      unfold send_if_built. destruct (sendable dreq); [eauto|].
      specialize (Hun eq_refl). discriminate Hun.
    + apply proxy_world in H. right; right. auto.
  - rewrite (fetchBeds24_proxy_mode _ _ _ _ _ Hd) in H.
    apply proxy_world in H. left. auto.
Qed.

Lemma count_cons p e t :
  count p (e :: t) = (if p e then 1 else 0) + count p t.
Proof.
  unfold count. simpl. destruct (p e); simpl List.length; lia.
Qed.

Lemma count_app p t1 t2 : count p (t1 ++ t2) = count p t1 + count p t2.
Proof.
  unfold count. rewrite filter_app, length_app. lia.
Qed.

Lemma count_nil p : count p [] = 0.
Proof. reflexivity. Qed.

Lemma count_nonneg p t : 0 <= count p t.
Proof. unfold count. lia. Qed.

Lemma query_events_counts dh :
  query_events dh ->
  1 <= http_calls dh <= 2 /\ delays dh = 0 /\ pages_started dh = 0.
Proof.
  intros [req [older [-> [-> | [req' ->]]]]];
    unfold http_calls, delays, pages_started;
    rewrite ?count_cons, ?count_nil; simpl; lia.
Qed.

(** What one query adds to the trace: the events of a query, or
    nothing when no request could be built. *)
Lemma fetchBeds24_trace endpoint params method body w r w' :
  fetchBeds24 endpoint params method body w = (r, w') ->
  upstream w' = upstream w
  /\ exists dh,
      trace w' = dh ++ trace w
      /\ (query_events dh \/ (r = Throw no_string_form /\ dh = [])).
Proof.
  intros H. apply fetchBeds24_world in H. unfold send_if_built in H.
  destruct H as [[_ [-> Hun]] | [[_ [_ [-> _]]] | [_ [-> Hun]]]].
  - destruct (sendable (proxy_request _ _ _ _)); (split; [reflexivity|]).
    + eexists [_]. split; [reflexivity|]. left. eexists _, []. auto.
    + exists []. split; [reflexivity|]. right. auto.
  - split; [reflexivity|].
    eexists [_]. split; [reflexivity|]. left. eexists _, []. auto.
  - destruct (sendable (proxy_request _ _ _ _));
      destruct (sendable (direct_request _ _ _ _ _)); (split; [reflexivity|]).
    + eexists [_; _]. split; [reflexivity|]. left. eexists _, [_]. split; [reflexivity|eauto].
    + eexists [_]. split; [reflexivity|]. left. eexists _, []. auto.
    + eexists [_]. split; [reflexivity|]. left. eexists _, []. auto.
    + exists []. split; [reflexivity|]. right. auto.
Qed.

End QueryEffects.

(** ** Direct mode, once left, is not entered again *)

Section DirectMode.

Lemma sent_to_proxy endpoint params method body w :
  useDirectApi (send_if_built (proxy_request endpoint params method body) w) = useDirectApi w
  /\ direct_calls (trace (send_if_built (proxy_request endpoint params method body) w))
     = direct_calls (trace w).
Proof.
  unfold send_if_built. destruct (sendable _); [|auto].
  split; [reflexivity|]. unfold direct_calls. simpl trace. rewrite count_cons. reflexivity.
Qed.

Lemma step_keeps_proxy_mode w w' :
  step w w' -> useDirectApi w = false ->
  useDirectApi w' = false /\ direct_calls (trace w') = direct_calls (trace w).
Proof.
  intros Hs Hd. inversion Hs as [ep ps m b w0 | ms w0 | pg w0]; subst.
  - destruct (fetchBeds24 ep ps m b w) as [r w1] eqn:E. simpl.
    apply fetchBeds24_world in E.
    destruct E as [[_ [-> _]] | [[Ht _] | [Ht _]]]; try congruence.
    destruct (sent_to_proxy ep ps m b w) as [H1 H2]. split; congruence.
  - split; [exact Hd|]. unfold direct_calls. simpl trace. rewrite count_cons. reflexivity.
  - split; [exact Hd|]. unfold direct_calls. simpl trace. rewrite count_cons. reflexivity.
Qed.

Lemma psteps_trans p1 p2 p3 : psteps p1 p2 -> psteps p2 p3 -> psteps p1 p3.
Proof. induction 1; [auto|]. intros. eapply psteps_cons; eauto. Qed.

(** A query run to its end on its own is one of the interleavings. *)
Lemma fetchBeds24_interleaving q w :
  psteps (mkProcess w [])
         (mkProcess (snd (fetchBeds24 (q_endpoint q) (q_params q) (q_method q)
                                      (q_body q) w)) []).
Proof.
  destruct (fetchBeds24 _ _ _ _ w) as [r w'] eqn:E. simpl.
  apply fetchBeds24_world in E. unfold send_if_built in E.
  change (proxy_request (q_endpoint q) (q_params q) (q_method q) (q_body q))
    with (proxy_of q) in E.
  change (direct_request (q_endpoint q) (q_params q) (q_method q) (q_body q)
                         (BEDS24_READ_TOKEN w))
    with (direct_of q w) in E.
  destruct E as [[Hd [-> _]] | [[Hd [Hs [-> _]]] | [Hd [-> _]]]].
  - destruct (sendable (proxy_of q)) eqn:Hp; [|apply psteps_refl].
    eapply psteps_cons; [apply (@begin_proxy q w [] Hd Hp)|].
    eapply psteps_cons; [apply (@proxy_settles q _ [] [])|]. apply psteps_refl.
  - eapply psteps_cons; [apply (@begin_direct q w [] Hd Hs)|].
    eapply psteps_cons; [apply (@direct_returns q _ [] [])|]. apply psteps_refl.
  - destruct (sendable (direct_of q w)) eqn:Hs, (sendable (proxy_of q)) eqn:Hp.
    + eapply psteps_cons; [apply (@begin_direct q w [] Hd Hs)|].
      eapply psteps_cons; [apply (@direct_throws q _ [] [] Hp)|].
      eapply psteps_cons; [apply (@proxy_settles q _ [] [])|]. apply psteps_refl.
    + eapply psteps_cons; [apply (@begin_direct q w [] Hd Hs)|].
      eapply psteps_cons; [apply (@direct_throws_alone q _ [] [] Hp)|].
      apply psteps_refl.
    + eapply psteps_cons; [apply (@direct_not_sent q w [] Hd Hs Hp)|].
      eapply psteps_cons; [apply (@proxy_settles q _ [] [])|]. apply psteps_refl.
    + eapply psteps_cons; [apply (@nothing_sent q w [] Hd Hs Hp)|].
      apply psteps_refl.
Qed.

Lemma awaiting_direct_app w fl1 x fl2 :
  awaiting_direct (mkProcess w (fl1 ++ x :: fl2))
  = (awaiting_direct (mkProcess w (fl1 ++ fl2))
     + (if is_await_direct x then 1 else 0))%nat.
Proof.
  unfold awaiting_direct. simpl. rewrite !filter_app, !length_app. simpl.
  destruct (is_await_direct x); simpl; lia.
Qed.

Lemma pstep_keeps_proxy_mode p p' :
  pstep p p' -> useDirectApi (world p) = false ->
  useDirectApi (world p') = false
  /\ direct_calls (trace (world p')) = direct_calls (trace (world p))
  /\ (awaiting_direct p' <= awaiting_direct p)%nat.
Proof.
  intros Hs Hd. inversion Hs; subst; simpl in *; try congruence;
    unfold direct_calls; simpl trace; rewrite ?count_cons; simpl is_direct;
    (split; [first [exact Hd | reflexivity]|]); (split; [reflexivity|]);
    rewrite ?awaiting_direct_app; unfold awaiting_direct; simpl; lia.
Qed.

(** C9. A direct call that throws leaves [useDirectApi] false; from a
    world where it is false, whatever the process does next, it stays
    false and no request goes to the direct API; each later query is
    the proxy call.  The same holds when queries overlap: once the flag
    is false it stays false, no request is sent to the direct API, and
    no query starts waiting for it. *)
Theorem direct_mode_never_returns :
  (forall endpoint params method body w e w1,
      useDirectApi w = true ->
      fetchBeds24Direct endpoint params method body (BEDS24_READ_TOKEN w) w
      = (Throw e, w1) ->
      useDirectApi (snd (fetchBeds24 endpoint params method body w)) = false)
  /\ (forall w w',
         useDirectApi w = false -> steps w w' ->
         useDirectApi w' = false
         /\ direct_calls (trace w') = direct_calls (trace w))
  /\ (forall endpoint params method body w,
         useDirectApi w = false ->
         fetchBeds24 endpoint params method body w
         = fetchBeds24ViaProxy endpoint params method body w)
  /\ (forall p p',
         useDirectApi (world p) = false -> psteps p p' ->
         useDirectApi (world p') = false
         /\ direct_calls (trace (world p')) = direct_calls (trace (world p))
         /\ (awaiting_direct p' <= awaiting_direct p)%nat).
Proof.
  split; [|split; [|split]].
  - intros endpoint params method body w e w1 Hd Hthrow.
    rewrite (fetchBeds24_direct_mode _ _ _ _ _ Hd), Hthrow.
    destruct (fetchBeds24ViaProxy _ _ _ _ _) as [r w2] eqn:E.
    apply proxy_world in E. destruct E as [-> _]. cbn [snd].
    rewrite (proj1 (sent_to_proxy _ _ _ _ _)). reflexivity.
  - intros w w' Hd Hsteps. induction Hsteps as [w | w1 w2 w3 Hstep _ IH].
    + auto.
    + destruct (step_keeps_proxy_mode Hstep Hd) as [Hd2 Hc2].
      destruct (IH Hd2) as [Hd3 Hc3]. split; [exact Hd3 | congruence].
  - intros. apply fetchBeds24_proxy_mode. assumption.
  - intros p p' Hd Hsteps. induction Hsteps as [p | p1 p2 p3 Hstep _ IH].
    + auto.
    + destruct (pstep_keeps_proxy_mode Hstep Hd) as [Hd2 [Hc2 Ha2]].
      destruct (IH Hd2) as [Hd3 [Hc3 Ha3]].
      split; [exact Hd3|]. split; [congruence | lia].
Qed.

(** The first query meets a failing direct API; the second no longer
    tries it. *)
Lemma direct_mode_never_returns_witness :
  let q := fetchBeds24 "bookings" [("propertyId", PROPERTY_ID)] "GET" VNull in
  let w0 := world_with true failing_upstream in
  let w1 := snd (q w0) in
  let w2 := snd (q w1) in
  useDirectApi w1 = false
  /\ useDirectApi w2 = false
  /\ direct_calls (trace w2) = direct_calls (trace w1)
  /\ http_calls (trace w2) = http_calls (trace w1) + 1.
Proof.
  intros q w0 w1 w2.
  destruct direct_mode_never_returns as [Hthrow [Hstay _]].
  assert (H1 : useDirectApi w1 = false).
  { apply (Hthrow "bookings" [("propertyId", PROPERTY_ID)] "GET" VNull w0
                  (mkExn KError (VStr "Invalid token"))
                  (emit (EvHttp (direct_request "bookings" [("propertyId", PROPERTY_ID)]
                                                "GET" VNull (BEDS24_READ_TOKEN w0))) w0));
      reflexivity. }
  split; [exact H1|].
  destruct (Hstay w1 w2 H1) as [H2 H3].
  { eapply steps_cons; [apply step_query | apply steps_refl]. }
  split; [exact H2|]. split; [exact H3|]. vm_compute. reflexivity.
Defined.

End DirectMode.

(** ** The page walker *)

Section PageWalker.

(** One turn of the loop: the page line, the events of one query (none
    when no request could be built, and then the turn throws), and a
    pause exactly when a further page was announced. *)
Lemma loop_body_trace params st w r w1 :
  loop_body params st w = (r, w1) ->
  upstream w1 = upstream w
  /\ exists dh,
      (query_events dh \/ (dh = [] /\ exists e, r = Throw e))
      /\ match r with
         | Throw _ => trace w1 = dh ++ EvLogPage (currentPage st) :: trace w
         | Ret st' =>
             (hasMorePages st' = true
              /\ currentPage st' = currentPage st + 1
              /\ totalPages st' = currentPage st + 1
              /\ trace w1 = EvDelay 50 :: dh ++ EvLogPage (currentPage st) :: trace w)
             \/ (hasMorePages st' = false
                 /\ currentPage st' = currentPage st
                 /\ totalPages st' = totalPages st
                 /\ trace w1 = dh ++ EvLogPage (currentPage st) :: trace w)
         end.
Proof.
  unfold loop_body, bind at 1, tell. unfold bind at 1.
  set (w0 := emit (EvLogPage (currentPage st)) w).
  destruct (fetchBeds24 _ _ _ _ w0) as [[result|e] wf] eqn:E;
    apply fetchBeds24_trace in E; destruct E as [Hu [dh [Ht Hq]]]; simpl in Ht.
  - destruct Hq as [Hq | [Hq _]]; [|discriminate Hq].
    unfold bind, lift, ret, sleep, tell.
    destruct (prop (data result) "data") as [inner|e];
      [|intros H; inversion H; subst; split; [exact Hu | exists dh; auto]].
    destruct (prop (data result) "pages") as [pf|e];
      [|intros H; inversion H; subst; split; [exact Hu | exists dh; auto]].
    destruct (prop (or_else pf (VObj [])) "nextPageExists") as [nx|e];
      [|intros H; inversion H; subst; split; [exact Hu | exists dh; auto]].
    destruct (strict_eq nx (VBool true)); intros H; inversion H; subst;
      (split; [exact Hu | exists dh; split; [left; exact Hq|]]).
    + left. simpl. rewrite Ht. auto.
    + right. simpl. auto.
  - intros H; inversion H; subst. split; [exact Hu|]. exists dh.
    split; [|exact Ht]. destruct Hq as [Hq | [_ Hq]]; [left; exact Hq|].
    right. eauto.
Qed.

Lemma walk_unfold params maxPages st w :
  walk params maxPages st w =
  if loop_cond maxPages st then
    match loop_body params st w with
    | (Ret st', w') => walk params maxPages st' w'
    | (Throw e, w') => (Throw e, w')
    end
  else (Ret st, w).
Proof.
  apply (walk_elim
           (fun params maxPages st w res =>
              res = if loop_cond maxPages st then
                      match loop_body params st w with
                      | (Ret st', w') => walk params maxPages st' w'
                      | (Throw e, w') => (Throw e, w')
                      end
                    else (Ret st, w))).
  - intros ps mp s Hc w0 _. rewrite Hc. reflexivity.
  - intros ps mp s Hc w0 st' w' Hb _ _ _. rewrite Hc, Hb. reflexivity.
  - intros ps mp s Hc w0 e w' Hb _ _. rewrite Hc, Hb. reflexivity.
Qed.

Lemma loop_cond_true maxPages st :
  loop_cond maxPages st = true ->
  hasMorePages st = true /\ currentPage st <= maxPages.
Proof.
  unfold loop_cond. intros H. apply andb_prop in H. destruct H as [H1 H2].
  apply Z.leb_le in H2. auto.
Qed.

Lemma loop_cond_false maxPages st :
  loop_cond maxPages st = false ->
  hasMorePages st = false \/ maxPages < currentPage st.
Proof.
  unfold loop_cond. intros H. apply andb_false_iff in H. destruct H as [H|H].
  - left; exact H.
  - right. apply Z.leb_gt in H. exact H.
Qed.

Ltac count_simpl :=
  unfold http_calls, delays, pages_started in *;
  repeat (rewrite ?count_app, ?count_cons, ?count_nil in *; simpl is_http in *;
          simpl is_delay in *; simpl is_page_log in * );
  cbv iota in *.

Lemma walk_spec params maxPages st w :
  totalPages st = currentPage st ->
  walk_post maxPages st w (walk params maxPages st w).
Proof.
  apply (walk_elim
           (fun params maxPages st w res =>
              totalPages st = currentPage st -> walk_post maxPages st w res)).
  - (* the condition fails at once *)
    intros ps mp s Hc w0 _ Htp. unfold walk_post. simpl.
    split; [reflexivity|]. exists []. simpl.
    count_simpl.
    split; [reflexivity|]. split; [lia|]. split; [lia|]. split; [lia|]. split; [auto|].
    split; [exact Htp|]. split.
    + intros Hf Ht. congruence.
    + intros Ht. destruct (loop_cond_false _ _ Hc) as [Hf|Hgt]; [congruence|].
      repeat split; try lia.
  - (* one turn, then the rest *)
    intros ps mp s Hc w0 st' w' Hb IH _ _ Htp.
    destruct (loop_cond_true _ _ Hc) as [Hmore Hle].
    destruct (loop_body_trace _ _ _ Hb) as [Hu [dh [Hq Hcase]]].
    destruct Hq as [Hq | [_ [e He]]]; [|discriminate He].
    pose proof (query_events_counts Hq) as [Hh [Hd0 Hp0]].
    destruct Hq as [req [older [Hdh _]]].
    assert (Htp' : totalPages st' = currentPage st').
    { destruct Hcase as [[_ [-> [-> _]]] | [_ [-> [-> _]]]]; [reflexivity | exact Htp]. }
    specialize (IH Htp'). unfold walk_post in *.
    destruct IH as [Hu' [delta' [Ht' [Hhp [Hlow [Hbound [Hstop Hres]]]]]]].
    split; [congruence|].
    destruct Hcase as [[Hm' [Hc' [_ Htr]]] | [Hm' [Hc' [_ Htr]]]].
    + (* a further page was announced *)
      exists (delta' ++ EvDelay 50 :: dh ++ [EvLogPage (currentPage s)]).
      split. { rewrite Ht', Htr. rewrite <- !app_assoc. simpl. rewrite <- app_assoc. reflexivity. }
      count_simpl.
      split; [lia|].
      split; [destruct (fst (walk ps mp st' w')); lia|].
      split; [lia|]. split; [intros; congruence|].
      destruct (fst (walk ps mp st' w')) as [stf|e].
      * destruct Hres as [Htpf [Hno Hyes]]. split; [exact Htpf|]. split.
        -- intros Hf _. destruct (Hno Hf Hm') as [Hcp [Hdl [rq [ol Hdelta]]]].
           split; [lia|]. split; [lia|]. subst delta'. simpl. eauto.
        -- intros Ht. destruct (Hyes Ht) as [Hcp [Hdl [Hgt Hcap]]].
           split; [lia|]. split; [lia|]. split; [lia|]. intros _.
           destruct (Z.le_gt_cases (currentPage st') mp) as [Hin|Hout].
           ++ destruct (Hcap Hin) as [Hend [ol Hdelta]]. split; [exact Hend|].
              subst delta'. simpl. eauto.
           ++ assert (Hcf : loop_cond mp st' = false).
              { unfold loop_cond. rewrite Hm'. simpl. apply Z.leb_gt. lia. }
              destruct (Hstop Hcf) as [Hnil _]. subst delta'. simpl.
              count_simpl. split; [lia|]. eauto.
      * lia.
    + (* no further page *)
      assert (Hcf : loop_cond mp st' = false).
      { unfold loop_cond. rewrite Hm'. reflexivity. }
      destruct (Hstop Hcf) as [Hnil Hret]. subst delta'.
      exists (dh ++ [EvLogPage (currentPage s)]).
      split. { rewrite Ht', Htr. simpl. rewrite <- app_assoc. reflexivity. }
      count_simpl. rewrite Hret.
      split; [lia|]. split; [lia|]. split; [lia|]. split; [intros; congruence|].
      split; [exact Htp'|]. split.
      * intros _ _. split; [lia|]. split; [lia|]. subst dh. simpl. eauto.
      * intros Ht. congruence.
  - (* the turn throws *)
    intros ps mp s Hc w0 e w' Hb _ _ Htp.
    destruct (loop_cond_true _ _ Hc) as [Hmore Hle].
    destruct (loop_body_trace _ _ _ Hb) as [Hu [dh [Hq Htr]]].
    assert (Hcounts : 0 <= http_calls dh <= 2 /\ delays dh = 0 /\ pages_started dh = 0).
    { destruct Hq as [Hq | [-> _]].
      - pose proof (query_events_counts Hq). lia.
      - unfold http_calls, delays, pages_started. rewrite !count_nil. lia. }
    destruct Hcounts as [Hh [Hd0 Hp0]].
    unfold walk_post. cbn [fst snd]. split; [exact Hu|].
    exists (dh ++ [EvLogPage (currentPage s)]).
    split. { rewrite Htr. rewrite <- app_assoc. reflexivity. }
    count_simpl.
    split; [lia|]. split; [lia|]. split; [lia|]. split; [intros; congruence|]. lia.
Qed.

Lemma steps_trans w1 w2 w3 : steps w1 w2 -> steps w2 w3 -> steps w1 w3.
Proof.
  induction 1; [auto|]. intros H3. eapply steps_cons; eauto.
Qed.

Lemma steps_one w1 w2 : step w1 w2 -> steps w1 w2.
Proof. intros H. eapply steps_cons; [exact H | apply steps_refl]. Qed.

Lemma loop_body_steps params st w : steps w (snd (loop_body params st w)).
Proof.
  unfold loop_body, bind at 1, tell. unfold bind at 1.
  set (w0 := emit (EvLogPage (currentPage st)) w).
  set (pageParams := obj_set params "page" _).
  assert (H0 : steps w w0) by (apply steps_one, step_log).
  assert (H1 : step w0 (snd (fetchBeds24 "bookings" pageParams "GET" VNull w0)))
    by apply step_query.
  destruct (fetchBeds24 "bookings" pageParams "GET" VNull w0) as [[result|e] wf];
    simpl in H1.
  - unfold bind, lift, ret, sleep, tell.
    destruct (prop (data result) "data") as [inner|e];
      [|simpl; eapply steps_trans; [exact H0 | apply steps_one, H1]].
    destruct (prop (data result) "pages") as [pf|e];
      [|simpl; eapply steps_trans; [exact H0 | apply steps_one, H1]].
    destruct (prop (or_else pf (VObj [])) "nextPageExists") as [nx|e];
      [|simpl; eapply steps_trans; [exact H0 | apply steps_one, H1]].
    destruct (strict_eq nx (VBool true)); simpl.
    + eapply steps_trans; [exact H0|]. eapply steps_cons; [exact H1|].
      apply steps_one, step_pause.
    + eapply steps_trans; [exact H0 | apply steps_one, H1].
  - simpl. eapply steps_trans; [exact H0 | apply steps_one, H1].
Qed.

(** A run of the page walker is a sequence of steps of the process. *)
Lemma walk_steps params maxPages st w :
  steps w (snd (walk params maxPages st w)).
Proof.
  apply (walk_elim (fun params maxPages st w res => steps w (snd res))).
  - intros ps mp s Hc w0 _. apply steps_refl.
  - intros ps mp s Hc w0 st' w' Hb IH _ _.
    eapply steps_trans; [|exact IH].
    pose proof (loop_body_steps ps s w0) as H. rewrite Hb in H. exact H.
  - intros ps mp s Hc w0 e w' Hb _ _.
    pose proof (loop_body_steps ps s w0) as H. rewrite Hb in H. exact H.
Qed.

Lemma fetchAllBookingPages_steps params maxPages w :
  steps w (snd (fetchAllBookingPages params maxPages w)).
Proof.
  unfold fetchAllBookingPages.
  pose proof (walk_steps params maxPages loop_start w) as H.
  destruct (walk params maxPages loop_start w) as [[st|e] w']; exact H.
Qed.

Lemma announces_next_page_inv payload :
  announces_next_page payload = true ->
  exists inner pages,
    prop payload "data" = Ret inner
    /\ prop payload "pages" = Ret pages
    /\ prop (or_else pages (VObj [])) "nextPageExists" = Ret (VBool true).
Proof.
  unfold announces_next_page.
  destruct (prop payload "pages") as [pg|] eqn:Hpg; [|discriminate].
  destruct (prop (or_else pg (VObj [])) "nextPageExists") as [nx|] eqn:Hnx;
    [|discriminate].
  intros Hx.
  assert (Hd : exists inner, prop payload "data" = Ret inner).
  { destruct payload; try discriminate Hpg; simpl; eauto.
    destruct (assoc "data" _); eauto. }
  destruct Hd as [inner Hd]. exists inner, pg. split; [exact Hd|]. split; [reflexivity|].
  destruct nx as [| |b| | | |]; simpl in Hx; try discriminate.
  destruct b; [exact Hnx|discriminate].
Qed.

(** Requests for parameters that all have a string form can be built,
    whatever the page number set among them. *)
Lemma sendable_with_page params k x endpoint method body token :
  Forall (fun kv => has_string_form (snd kv) = true) params ->
  sendable (direct_request endpoint (obj_set params k (VNum x)) method body token) = true
  /\ sendable (proxy_request endpoint (obj_set params k (VNum x)) method body) = true.
Proof.
  intros Hall.
  assert (Hset : Forall (fun kv : string * Value => has_string_form (snd kv) = true)
                        (obj_set params k (VNum x))).
  { induction Hall as [|[k' v'] rest Hv Hrest IH]; simpl.
    - constructor; [reflexivity|constructor].
    - destruct (String.eqb k k'); constructor; auto. }
  rewrite Forall_forall in Hset.
  unfold sendable, direct_request, proxy_request. cbn [query]. split.
  - destruct (String.eqb method "GET"); [|reflexivity].
    apply forallb_forall. intros kv Hin. apply filter_In in Hin. apply Hset. tauto.
  - apply forallb_forall. intros kv Hin. apply filter_In in Hin. apply Hset. tauto.
Qed.

(** Against an upstream that always announces a further page, the
    proxy call returns the payload as it came. *)
Lemma proxy_always_next endpoint params method body w :
  always_next (upstream w) ->
  sendable (proxy_request endpoint params method body) = true ->
  exists status payload,
    fetchBeds24ViaProxy endpoint params method body w
    = (Ret (mkFetchResult payload status),
       emit (EvHttp (proxy_request endpoint params method body)) w)
    /\ announces_next_page payload = true.
Proof.
  intros Hnext Hs. set (req := proxy_request endpoint params method body) in *.
  specialize (Hnext (trace w) req).
  unfold fetchBeds24ViaProxy, bind at 1, lift, append_all. fold req. rewrite Hs.
  unfold bind at 1, fetch_json.
  destruct (upstream w (trace w) req) as [msg|code msg|status payload];
    try discriminate Hnext.
  cbn [route req proxy_request] in Hnext. destruct Hnext as [Hdata Ha].
  exists status, payload. split; [|exact Ha].
  unfold carries_data in Hdata. unfold bind, lift.
  destruct (prop payload "data") as [inner|]; [|discriminate]. rewrite Hdata. reflexivity.
Qed.

(** The direct call returns such a payload as it came, or throws; the
    request has been sent. *)
Lemma direct_always_next endpoint params method body token w :
  always_next (upstream w) ->
  sendable (direct_request endpoint params method body token) = true ->
  (exists status payload,
      fetchBeds24Direct endpoint params method body token w
      = (Ret (mkFetchResult payload status),
         emit (EvHttp (direct_request endpoint params method body token)) w)
      /\ announces_next_page payload = true)
  \/ (exists e,
         fetchBeds24Direct endpoint params method body token w
         = (Throw e, emit (EvHttp (direct_request endpoint params method body token)) w)).
Proof.
  intros Hnext Hs. set (req := direct_request endpoint params method body token) in *.
  specialize (Hnext (trace w) req).
  remember (fetchBeds24Direct endpoint params method body token w) as out eqn:Hout.
  unfold fetchBeds24Direct, bind at 1, lift, append_all in Hout. fold req in Hout.
  rewrite Hs in Hout. unfold bind at 1, fetch_json in Hout.
  destruct (upstream w (trace w) req) as [msg|code msg|status payload];
    [right; subst out; eauto | right; subst out; eauto |].
  cbn [route req direct_request] in Hnext. unfold reports_failure in Hnext.
  unfold bind, lift, throw, ret in Hout.
  destruct (prop payload "success") as [s|]; [|right; subst out; eauto].
  destruct (prop payload "error") as [er|]; [|right; subst out; eauto].
  destruct (strict_eq s (VBool false) || truthy er); [right; subst out; eauto|].
  left. exists status, payload. split; [exact Hout | exact (Hnext eq_refl)].
Qed.

(** A query sends one request, or two when the direct call failed, and
    returns a payload that announces a further page. *)
Lemma fetchBeds24_always_next endpoint params method body w :
  always_next (upstream w) ->
  sendable (direct_request endpoint params method body (BEDS24_READ_TOKEN w)) = true ->
  sendable (proxy_request endpoint params method body) = true ->
  exists status payload w1 dh,
    fetchBeds24 endpoint params method body w = (Ret (mkFetchResult payload status), w1)
    /\ announces_next_page payload = true
    /\ upstream w1 = upstream w
    /\ trace w1 = dh ++ trace w
    /\ pages_started dh = 0
    /\ ((useDirectApi w1 = useDirectApi w /\ http_calls dh = 1)
        \/ (useDirectApi w = true /\ useDirectApi w1 = false /\ http_calls dh = 2)).
Proof.
  intros Hnext Hsd Hsp. destruct (useDirectApi w) eqn:Hd.
  - rewrite (fetchBeds24_direct_mode _ _ _ _ _ Hd).
    destruct (direct_always_next endpoint params method body (BEDS24_READ_TOKEN w) w
                                 Hnext Hsd)
      as [[status [payload [Hr Ha]]] | [e Hr]]; rewrite Hr.
    + eexists status, payload, _, [_]. split; [reflexivity|]. split; [exact Ha|].
      split; [reflexivity|]. split; [reflexivity|].
      split; [reflexivity|]. left. split; [exact Hd | reflexivity].
    + destruct (proxy_always_next endpoint params method body
                  (set_useDirectApi false
                     (emit (EvHttp (direct_request endpoint params method body
                                                   (BEDS24_READ_TOKEN w))) w))
                  Hnext Hsp)
        as [status [payload [Hp Ha]]].
      rewrite Hp. eexists status, payload, _, [_; _].
      split; [reflexivity|]. split; [exact Ha|].
      split; [reflexivity|]. split; [reflexivity|].
      split; [reflexivity|]. right. repeat split; reflexivity.
  - rewrite (fetchBeds24_proxy_mode _ _ _ _ _ Hd).
    destruct (proxy_always_next endpoint params method body w Hnext Hsp)
      as [status [payload [Hp Ha]]].
    rewrite Hp. eexists status, payload, _, [_].
    split; [reflexivity|]. split; [exact Ha|].
    split; [reflexivity|]. split; [reflexivity|].
    split; [reflexivity|]. left. split; [exact Hd | reflexivity].
Qed.

Lemma loop_body_always_next params st w :
  always_next (upstream w) ->
  Forall (fun kv => has_string_form (snd kv) = true) params ->
  exists bookings w1 dh,
    loop_body params st w
    = (Ret (mkLoop bookings (currentPage st + 1) true (currentPage st + 1)), w1)
    /\ upstream w1 = upstream w
    /\ trace w1 = EvDelay 50 :: dh ++ EvLogPage (currentPage st) :: trace w
    /\ pages_started dh = 0
    /\ ((useDirectApi w1 = useDirectApi w /\ http_calls dh = 1)
        \/ (useDirectApi w = true /\ useDirectApi w1 = false /\ http_calls dh = 2)).
Proof.
  intros Hnext Hall. unfold loop_body, bind at 1, tell. unfold bind at 1.
  set (w0 := emit (EvLogPage (currentPage st)) w).
  destruct (sendable_with_page "page" (num_of_Z (currentPage st)) "bookings" "GET" VNull
                               (BEDS24_READ_TOKEN w0) Hall) as [Hsd Hsp].
  destruct (fetchBeds24_always_next "bookings"
              (obj_set params "page" (VNum (num_of_Z (currentPage st)))) "GET" VNull w0
              Hnext Hsd Hsp)
    as [status [payload [w1 [dh [Hf [Ha [Hu [Ht [Hp Hflag]]]]]]]]].
  rewrite Hf.
  destruct (announces_next_page_inv _ Ha) as [inner [pg [Hi [Hpg Hnx]]]].
  unfold bind, lift, sleep, tell, ret. simpl data. rewrite Hi, Hpg, Hnx. simpl.
  eexists _, _, dh. split; [reflexivity|]. split; [exact Hu|].
  split; [simpl; rewrite Ht; reflexivity|]. split; [exact Hp|]. exact Hflag.
Qed.

(** Against such an upstream the loop runs to the cap: one request a
    page, and one more for the page on which the direct API failed. *)
Lemma walk_always_next params maxPages :
  Forall (fun kv => has_string_form (snd kv) = true) params ->
  forall (k : nat) st w,
    Z.to_nat (maxPages + 1 - currentPage st) = k ->
    always_next (upstream w) ->
    hasMorePages st = true ->
    currentPage st <= maxPages + 1 ->
    exists stf w' delta,
      walk params maxPages st w = (Ret stf, w')
      /\ trace w' = delta ++ trace w
      /\ hasMorePages stf = true
      /\ currentPage stf = maxPages + 1
      /\ pages_started delta = maxPages + 1 - currentPage st
      /\ http_calls delta
         = maxPages + 1 - currentPage st
           + (if useDirectApi w && negb (useDirectApi w') then 1 else 0)
      /\ (useDirectApi w = false -> useDirectApi w' = false).
Proof.
  intros Hall.
  induction k as [|k IH]; intros st w Hk Hnext Hmore Hle; rewrite walk_unfold.
  - assert (Hc : loop_cond maxPages st = false).
    { unfold loop_cond. rewrite Hmore. simpl. apply Z.leb_gt. lia. }
    rewrite Hc. exists st, w, []. count_simpl.
    rewrite andb_negb_r. repeat split; auto; lia.
  - assert (Hc : loop_cond maxPages st = true).
    { unfold loop_cond. rewrite Hmore. simpl. apply Z.leb_le. lia. }
    rewrite Hc.
    destruct (loop_body_always_next st w Hnext Hall)
      as [bs [w1 [dh [Hb [Hu [Ht1 [Hp1 Hflag]]]]]]].
    rewrite Hb.
    set (st' := mkLoop bs (currentPage st + 1) true (currentPage st + 1)).
    destruct (IH st' w1) as [stf [w' [delta [Hw [Ht [Hm [Hcp [Hp [Hh Hstay]]]]]]]]];
      try (simpl; auto; lia).
    { rewrite Hu. exact Hnext. }
    exists stf, w', (delta ++ EvDelay 50 :: dh ++ [EvLogPage (currentPage st)]).
    split; [exact Hw|]. split.
    { rewrite Ht, Ht1. rewrite <- !app_assoc. simpl. rewrite <- app_assoc. reflexivity. }
    split; [exact Hm|]. split; [exact Hcp|].
    simpl currentPage in Hh, Hp. count_simpl.
    destruct Hflag as [[Hsame Hone] | [Hwas [Hnow Htwo]]].
    + rewrite Hsame in Hh, Hstay. split; [lia|]. split; [lia | exact Hstay].
    + rewrite Hwas. rewrite Hnow in Hh. rewrite (Hstay Hnow). simpl in Hh |- *.
      split; [lia|]. split; [lia | discriminate].
Qed.

End PageWalker.

Section PageCap.

Lemma endless_upstream_always_next : always_next endless_upstream.
Proof.
  intros history req. unfold endless_upstream.
  destruct (route req); [intros _; reflexivity | split; reflexivity].
Qed.

Lemma direct_down_upstream_always_next : always_next direct_down_upstream.
Proof.
  intros history req. unfold direct_down_upstream.
  destruct (route req); [discriminate | split; reflexivity].
Qed.

(** The claim of C3 as it is stated fails: every answer of this
    upstream announces a further page, and with three pages allowed the
    walk sends four requests, because the first answer of the direct
    API carries an error message as well and its page is asked again
    from the proxy. *)
Lemma failed_direct_call_adds_a_request :
  let w := world_with true direct_down_upstream in
  (forall history req,
      exists payload,
        upstream w history req = JsonReply 200 payload
        /\ carries_data payload = true
        /\ announces_next_page payload = true)
  /\ exists bookings w',
      fetchAllBookingPages [("propertyId", PROPERTY_ID)] 3 w = (Ret (bookings, 4), w')
      /\ pages_started (trace w') = 3
      /\ http_calls (trace w') = 4.
Proof.
  intros w. split.
  - intros history req. simpl. unfold direct_down_upstream.
    destruct (route req); eexists; repeat split; reflexivity.
  - eexists _, _. split; [vm_compute; reflexivity|]. split; vm_compute; reflexivity.
Qed.

(** C3, amended.  For a positive [maxPages] the walk ends, whatever the
    upstream does, after at most [maxPages] turns of the loop and at
    most two requests a turn.  Against an upstream that always
    announces a further page, and for parameters whose values all have
    a string form, it runs exactly [maxPages] turns and sends one
    request a turn, and one more when the direct API failed during the
    walk (its page is then asked again from the proxy and
    [useDirectApi] is cleared): exactly [maxPages] requests in proxy
    mode and while the direct API does not fail. *)
Theorem page_walk_is_capped params maxPages w :
  0 < maxPages ->
  (exists r w' delta,
      fetchAllBookingPages params maxPages w = (r, w')
      /\ trace w' = delta ++ trace w
      /\ pages_started delta <= maxPages
      /\ http_calls delta <= 2 * maxPages)
  /\ (always_next (upstream w) ->
      Forall (fun kv => has_string_form (snd kv) = true) params ->
      exists bookings w' delta,
        fetchAllBookingPages params maxPages w = (Ret (bookings, maxPages + 1), w')
        /\ trace w' = delta ++ trace w
        /\ pages_started delta = maxPages
        /\ http_calls delta
           = maxPages + (if useDirectApi w && negb (useDirectApi w') then 1 else 0)).
Proof.
  intros Hpos. split.
  - pose proof (walk_spec params maxPages loop_start w eq_refl) as Hpost.
    unfold walk_post in Hpost.
    destruct Hpost as [_ [delta [Ht [Hhp [_ [Hbound _]]]]]].
    simpl currentPage in Hbound.
    unfold fetchAllBookingPages.
    destruct (walk params maxPages loop_start w) as [[st|e] w'];
      simpl in Ht; eexists _, w', delta; (split; [reflexivity|]);
      (split; [exact Ht|]); lia.
  - intros Hnext Hall.
    destruct (@walk_always_next params maxPages Hall (Z.to_nat maxPages) loop_start w)
      as [stf [w' [delta [Hw [Ht [Hm [Hcp [Hp [Hh _]]]]]]]]];
      try (simpl; auto; f_equal; lia).
    pose proof (walk_spec params maxPages loop_start w eq_refl) as Hpost.
    unfold walk_post in Hpost. rewrite Hw in Hpost. cbn [fst snd] in Hpost.
    destruct Hpost as [_ [_ [_ [_ [_ [_ [_ [Htp _]]]]]]]].
    exists (allBookings stf), w', delta.
    unfold fetchAllBookingPages. rewrite Hw.
    simpl currentPage in Hh, Hp.
    split; [rewrite Htp, Hcp; reflexivity|]. split; [exact Ht|].
    split; [lia|]. rewrite Hh. lia.
Qed.

(** Three pages allowed and a direct API that fails on the first of
    them: three pages are started and four requests sent. *)
Lemma page_walk_is_capped_witness :
  0 < 3
  /\ exists bookings w' delta,
       fetchAllBookingPages [("propertyId", PROPERTY_ID)] 3
                            (world_with true direct_down_upstream)
       = (Ret (bookings, 3 + 1), w')
       /\ trace w' = delta ++ []
       /\ pages_started delta = 3
       /\ http_calls delta = 3 + (if true && negb (useDirectApi w') then 1 else 0).
Proof.
  assert (H : 0 < 3) by lia. split; [exact H|].
  refine (proj2 (@page_walk_is_capped [("propertyId", PROPERTY_ID)] 3
                   (world_with true direct_down_upstream) H)
                direct_down_upstream_always_next _).
  constructor; [reflexivity|constructor].
Defined.

(** C10. The returned [totalPages] is the number of pages fetched when
    the loop ends on a page that announced no further page (and then
    the newest event is the last request: no pause follows it); it is
    that number plus one when the loop ends with [hasMorePages] still
    set, that is at the cap, and then a pause was taken after every
    page, the last one included. *)
Theorem total_pages_at_loop_exit params maxPages w bookings pages w' :
  fetchAllBookingPages params maxPages w = (Ret (bookings, pages), w') ->
  exists st delta,
    walk params maxPages loop_start w = (Ret st, w')
    /\ bookings = allBookings st /\ pages = totalPages st
    /\ trace w' = delta ++ trace w
    /\ (hasMorePages st = false ->
        pages = pages_started delta
        /\ delays delta = pages_started delta - 1
        /\ exists req older, delta = EvHttp req :: older)
    /\ (hasMorePages st = true ->
        maxPages < currentPage st
        /\ pages = pages_started delta + 1
        /\ delays delta = pages_started delta
        /\ (0 < maxPages ->
            pages_started delta = maxPages
            /\ exists older, delta = EvDelay 50 :: older)).
Proof.
  unfold fetchAllBookingPages. intros H.
  pose proof (walk_spec params maxPages loop_start w eq_refl) as Hpost.
  unfold walk_post in Hpost.
  destruct (walk params maxPages loop_start w) as [[st|e] w1]; [|discriminate].
  inversion H; subst. cbn [fst snd] in Hpost.
  change (currentPage loop_start) with 1 in Hpost.
  change (hasMorePages loop_start) with true in Hpost.
  destruct Hpost as [_ [delta [Ht [_ [_ [_ [_ [Htp [Hno Hyes]]]]]]]]].
  exists st, delta. repeat (split; [reflexivity|]). split; [exact Ht|]. split.
  - intros Hf. destruct (Hno Hf eq_refl) as [Hcp [Hd Hhead]].
    split; [lia|]. split; [exact Hd | exact Hhead].
  - intros Hmore. destruct (Hyes Hmore) as [Hcp [Hd [Hgt Hcap]]].
    split; [exact Hgt|]. split; [lia|]. split; [exact Hd|].
    intros Hpos. destruct Hcap as [Hend Hhead]; [lia|]. split; [lia | exact Hhead].
Qed.

(** Two pages allowed, an upstream that never stops: two pages are
    fetched, [totalPages] is 3 and two pauses are taken. *)
Lemma total_pages_at_loop_exit_witness :
  exists bookings pages w' st delta,
    fetchAllBookingPages [("propertyId", PROPERTY_ID)] 2
                         (world_with true endless_upstream)
    = (Ret (bookings, pages), w')
    /\ walk [("propertyId", PROPERTY_ID)] 2 loop_start
            (world_with true endless_upstream) = (Ret st, w')
    /\ trace w' = delta ++ []
    /\ hasMorePages st = true
    /\ pages = 3 /\ pages_started delta = 2 /\ delays delta = 2.
Proof.
  destruct (fetchAllBookingPages [("propertyId", PROPERTY_ID)] 2
                                 (world_with true endless_upstream))
    as [[[bookings pages]|e] w'] eqn:E; [|vm_compute in E; discriminate].
  destruct (total_pages_at_loop_exit _ _ _ E)
    as [st [delta [Hw [_ [Hp [Ht [_ Hcap]]]]]]].
  assert (Hm : hasMorePages st = true).
  { vm_compute in Hw. inversion Hw. reflexivity. }
  destruct (Hcap Hm) as [_ [Hpages [Hd Hn]]].
  destruct Hn as [Hn _]; [lia|].
  exists bookings, pages, w', st, delta.
  split; [reflexivity|]. split; [exact Hw|]. split; [exact Ht|].
  split; [exact Hm|]. split; [lia|]. split; [exact Hn | lia].
Defined.

End PageCap.

(** ** Merging by identifier *)

Section Merge.

Lemma SFeqb_true x y :
  SFeqb x y = true <->
  is_nan x = false /\ is_nan y = false /\ canon_num x = canon_num y.
Proof.
  unfold SFeqb.
  destruct x as [sx|sx| |sx mx ex]; destruct y as [sy|sy| |sy my ey];
    try destruct sx; try destruct sy; simpl;
    try (split; [intros _; repeat split; reflexivity | intros _; reflexivity]);
    try (split; [discriminate | intros [H1 [H2 H3]]; discriminate]).
  - change (PosDef.Pos.compare_cont Eq mx my) with (Pos.compare mx my).
    destruct (Z.compare_spec ex ey) as [He|He|He];
      [destruct (Pos.compare_spec mx my) as [Hm|Hm|Hm]|..]; simpl;
      try (split; [discriminate | intros [_ [_ H]]; inversion H; subst; lia]).
    subst. split; [intros _; repeat split; reflexivity | reflexivity].
  - change (PosDef.Pos.compare_cont Eq mx my) with (Pos.compare mx my).
    destruct (Z.compare_spec ex ey) as [He|He|He];
      [destruct (Pos.compare_spec mx my) as [Hm|Hm|Hm]|..]; simpl;
      try (split; [discriminate | intros [_ [_ H]]; inversion H; subst; lia]).
    subst. split; [intros _; repeat split; reflexivity | reflexivity].
Qed.

Lemma same_value_zero_key a b :
  same_value_zero a b = true <->
  exists k, key_of a = Some k /\ key_of b = Some k.
Proof.
  destruct a as [| |x|x|x|x|x]; destruct b as [| |y|y|y|y|y]; simpl;
    try (split; [discriminate | intros [k [H1 H2]]; congruence]);
    try (split; [intros _; eexists; split; reflexivity | reflexivity]).
  - split.
    + intros H. apply Bool.eqb_prop in H. subst. eexists; split; reflexivity.
    + intros [k [H1 H2]]. assert (x = y) by congruence. subst. apply Bool.eqb_reflx.
  - split.
    + intros H. apply orb_prop in H. destruct H as [H|H].
      * apply SFeqb_true in H. destruct H as [_ [_ H]]. rewrite H.
        eexists; split; reflexivity.
      * apply andb_prop in H. destruct H as [Hx Hy].
        destruct x; try discriminate. destruct y; try discriminate.
        eexists; split; reflexivity.
    + intros [k [H1 H2]]. assert (Hc : canon_num x = canon_num y) by congruence.
      destruct (is_nan x) eqn:Hx.
      * destruct x; try discriminate. destruct y as [s| | |]; try discriminate;
          try reflexivity.
      * destruct (is_nan y) eqn:Hy.
        -- destruct y; try discriminate. destruct x as [s| | |]; discriminate.
        -- apply orb_true_iff. left. apply SFeqb_true. auto.
  - split.
    + intros H. apply String.eqb_eq in H. subst. eexists; split; reflexivity.
    + intros [k [H1 H2]]. assert (x = y) by congruence. subst. apply String.eqb_refl.
Qed.

Lemma same_value_zero_sym a b :
  same_value_zero a b = true -> same_value_zero b a = true.
Proof.
  rewrite !same_value_zero_key. intros [k [H1 H2]]. eauto.
Qed.

Lemma same_value_zero_trans a b c :
  same_value_zero a b = true -> same_value_zero b c = true ->
  same_value_zero a c = true.
Proof.
  rewrite !same_value_zero_key. intros [k [H1 H2]] [k' [H3 H4]].
  exists k. split; [assumption | congruence].
Qed.

(** Keys that are equal are equal to the same keys. *)
Lemma same_value_zero_compat a b k :
  same_value_zero a b = true -> same_value_zero a k = same_value_zero b k.
Proof.
  intros H. destruct (same_value_zero b k) eqn:E.
  - eapply same_value_zero_trans; eauto.
  - destruct (same_value_zero a k) eqn:E'; [|reflexivity].
    rewrite <- E. symmetry. eapply same_value_zero_trans; [|exact E'].
    apply same_value_zero_sym, H.
Qed.

Lemma map_set_keyed m b : keyed m -> keyed (map_set m (id_of b) b).
Proof.
  unfold keyed. induction m as [|[k0 v0] rest IH]; simpl; intros Hk k' v Hin k.
  - destruct Hin as [Hin|[]]. inversion Hin; subst. reflexivity.
  - destruct (same_value_zero k0 (id_of b)) eqn:E.
    + destruct Hin as [Hin|Hin].
      * inversion Hin; subst. unfold has_id. apply same_value_zero_compat, E.
      * apply Hk. right; exact Hin.
    + destruct Hin as [Hin|Hin].
      * inversion Hin; subst. apply Hk. left; reflexivity.
      * apply IH; [|exact Hin]. intros k1 v1 H1. apply Hk. right; exact H1.
Qed.

(** Setting a record whose identifier is [k]: that record becomes the
    only one answering to [k]. *)
Lemma map_set_same m b k :
  keyed m ->
  has_id k b = true ->
  (List.length (filter (has_id k) (map_values m)) <= 1)%nat ->
  filter (has_id k) (map_values (map_set m (id_of b) b)) = [b].
Proof.
  unfold map_values. induction m as [|[k0 v0] rest IH]; simpl; intros Hk Hb Hlen.
  - rewrite Hb. reflexivity.
  - assert (H0 : same_value_zero k0 k = has_id k v0) by (apply (Hk k0 v0); left; reflexivity).
    destruct (same_value_zero k0 (id_of b)) eqn:E; simpl.
    + rewrite Hb. f_equal.
      assert (Hv : has_id k v0 = true).
      { rewrite <- H0. eapply same_value_zero_trans; [exact E | exact Hb]. }
      rewrite Hv in Hlen. simpl in Hlen.
      destruct (filter (has_id k) (map snd rest)); [reflexivity | simpl in Hlen; lia].
    + assert (Hv : has_id k v0 = false).
      { rewrite <- H0. destruct (same_value_zero k0 k) eqn:E0; [|reflexivity].
        rewrite <- E. symmetry. eapply same_value_zero_trans; [exact E0|].
        apply same_value_zero_sym, Hb. }
      rewrite Hv in *. apply IH; auto.
      intros k1 v1 H1. apply Hk. right; exact H1.
Qed.

(** Setting a record with another identifier leaves the records
    answering to [k] as they were. *)
Lemma map_set_other m b k :
  keyed m ->
  has_id k b = false ->
  filter (has_id k) (map_values (map_set m (id_of b) b))
  = filter (has_id k) (map_values m).
Proof.
  unfold map_values. induction m as [|[k0 v0] rest IH]; simpl; intros Hk Hb.
  - rewrite Hb. reflexivity.
  - assert (H0 : same_value_zero k0 k = has_id k v0) by (apply (Hk k0 v0); left; reflexivity).
    destruct (same_value_zero k0 (id_of b)) eqn:E; simpl.
    + rewrite Hb.
      assert (Hv : has_id k v0 = false).
      { rewrite <- H0. rewrite (same_value_zero_compat _ _ k E). exact Hb. }
      rewrite Hv. reflexivity.
    + rewrite IH; auto. intros k1 v1 H1. apply Hk. right; exact H1.
Qed.

Lemma option_list_length {A} (o : option A) : (List.length (option_list o) <= 1)%nat.
Proof. destruct o; simpl; lia. Qed.

Lemma foldM_app {A S} (f : S -> A -> Res S) l1 l2 s :
  foldM f (l1 ++ l2) s = (s' <- foldM f l1 s ;; foldM f l2 s')%res.
Proof.
  revert s. induction l1 as [|x rest IH]; simpl; intros s; [reflexivity|].
  destruct (f s x); simpl; [apply IH | reflexivity].
Qed.

Lemma find_last_snoc {A} (p : A -> bool) l x :
  find_last p (l ++ [x]) = if p x then Some x else find_last p l.
Proof. unfold find_last. rewrite rev_app_distr. reflexivity. Qed.

(** The [Map] fold keeps, for every identifier, the last record that
    carries it, and no other. *)
Lemma bookingMap_fold_last records :
  Forall (fun r => readable r = true) records ->
  exists m,
    bookingMap_fold records = Ret m
    /\ keyed m
    /\ forall k, filter (has_id k) (map_values m)
                 = option_list (find_last (has_id k) records).
Proof.
  unfold bookingMap_fold.
  induction records as [|b l IH] using rev_ind; intros Hr.
  - exists []. split; [reflexivity|]. split; [intros ? ? []|]. intros k. reflexivity.
  - apply Forall_app in Hr. destruct Hr as [Hl Hb]. inversion Hb as [|? ? Hb' _]; subst.
    destruct (IH Hl) as [m [Hm [Hk Hf]]].
    exists (map_set m (id_of b) b). split; [|split].
    + rewrite foldM_app, Hm. simpl.
      rewrite (readable_prop b "id" Hb'). reflexivity.
    + apply map_set_keyed, Hk.
    + intros k. rewrite find_last_snoc. destruct (has_id k b) eqn:E.
      * apply map_set_same; auto. rewrite Hf. apply option_list_length.
      * rewrite map_set_other; auto.
Qed.

(** The [seen]-set filter keeps, for every identifier not seen before,
    the first record that carries it, and no other. *)
Lemma unique_from_first records :
  Forall (fun r => readable r = true) records ->
  forall seen,
  exists out,
    unique_from seen records = Ret out
    /\ forall k, same_value_zero k k = true ->
                 filter (has_id k) out
                 = if existsb (fun s => same_value_zero s k) seen then []
                   else option_list (find (has_id k) records).
Proof.
  induction 1 as [|b rest Hb _ IH]; intros seen.
  - exists []. split; [reflexivity|]. intros k _. simpl.
    destruct (existsb _ seen); reflexivity.
  - simpl. rewrite (readable_prop b "id" Hb). simpl. fold (id_of b).
    destruct (existsb (fun k0 => same_value_zero k0 (id_of b)) seen) eqn:Eseen.
    + destruct (IH seen) as [out [Ho Hf]]. exists out. split; [exact Ho|].
      intros k Hk. rewrite (Hf k Hk).
      destruct (existsb (fun s => same_value_zero s k) seen) eqn:Ek; [reflexivity|].
      assert (Hn : has_id k b = false).
      { destruct (has_id k b) eqn:E; [|reflexivity].
        apply existsb_exists in Eseen. destruct Eseen as [s [Hin Hs]].
        rewrite <- Ek. symmetry. apply existsb_exists. exists s. split; [exact Hin|].
        eapply same_value_zero_trans; [exact Hs | exact E]. }
      rewrite Hn. reflexivity.
    + destruct (IH (seen ++ [id_of b])) as [out [Ho Hf]].
      exists (b :: out). split; [rewrite Ho; reflexivity|].
      intros k Hk. simpl. rewrite (Hf k Hk). rewrite existsb_app. simpl.
      rewrite orb_false_r. fold (has_id k b).
      destruct (existsb (fun s => same_value_zero s k) seen) eqn:Ek; simpl.
      * assert (Hn : has_id k b = false).
        { destruct (has_id k b) eqn:E; [|reflexivity].
          apply existsb_exists in Ek. destruct Ek as [s [Hin Hs]].
          rewrite <- Eseen. symmetry. apply existsb_exists. exists s. split; [exact Hin|].
          eapply same_value_zero_trans; [exact Hs|]. apply same_value_zero_sym, E. }
        rewrite Hn. reflexivity.
      * destruct (has_id k b); reflexivity.
Qed.

Lemma find_present {A} (p : A -> bool) l x :
  In x l -> p x = true -> exists y, find p l = Some y.
Proof.
  induction l as [|z rest IH]; simpl; [contradiction|].
  intros [->|Hin] Hp.
  - rewrite Hp. eauto.
  - destruct (p z); eauto.
Qed.

Lemma find_app_first {A} (p : A -> bool) l1 l2 y :
  find p l1 = Some y -> find p (l1 ++ l2) = Some y.
Proof.
  induction l1 as [|z rest IH]; simpl; [discriminate|].
  destruct (p z); auto.
Qed.

(** The claim of C1 as it is stated fails for the merge of [index.js]:
    the two sets hold different versions of "B1", and the version of
    the first set survives. *)
Lemma first_source_wins_in_dashboard_bookings :
  has_id (VStr "B1") b1_from_A = true
  /\ has_id (VStr "B1") b1_from_B = true
  /\ b1_from_A <> b1_from_B
  /\ uniqueBookings ([b1_from_A] ++ [b1_from_B]) = Ret [b1_from_A].
Proof.
  split; [reflexivity|]. split; [reflexivity|]. split; [discriminate | reflexivity].
Qed.

Lemma has_id_reflexive_key k r :
  has_id k r = true -> same_value_zero k k = true.
Proof.
  unfold has_id. intros H.
  eapply same_value_zero_trans; [|exact H]. apply same_value_zero_sym, H.
Qed.

Lemma filter_nothing {A} (p : A -> bool) l :
  (forall x, p x = false) -> filter p l = [].
Proof.
  intros H. induction l as [|x rest IH]; simpl; [reflexivity|].
  rewrite H. exact IH.
Qed.

(** The default listing of GET /getBookings returns the merge of the
    two record sets. *)
Lemma getBookings_combine_data past future body :
  getBookings_combine past future = Ret body ->
  merge_by_id (fst past ++ fst future) = Ret (bk_data body).
Proof.
  unfold getBookings_combine. intros H. apply res_bind_ret in H.
  destruct H as [merged [Hm H]]. injection H as <-. exact Hm.
Qed.

(** C1, amended.  When both sets hold a record with the same
    identifier, each merge returns exactly one record with that
    identifier, and at most one with any identifier.  The [Map] fold of
    the v6.5 server returns the version met last, that of [setB]; the
    [seen]-set filter of [index.js] returns the version met first, that
    of [setA].  Both are functions of the two sets in their order and
    of nothing else. *)
Theorem one_record_per_identifier setA setB a b :
  Forall (fun r => readable r = true) (setA ++ setB) ->
  In a setA -> In b setB ->
  has_id (id_of a) b = true ->
  exists merged unique lastB firstA,
    merge_by_id (setA ++ setB) = Ret merged
    /\ uniqueBookings (setA ++ setB) = Ret unique
    /\ (forall k, (List.length (filter (has_id k) merged) <= 1)%nat
                  /\ (List.length (filter (has_id k) unique) <= 1)%nat)
    /\ find_last (has_id (id_of a)) setB = Some lastB
    /\ find (has_id (id_of a)) setA = Some firstA
    /\ filter (has_id (id_of a)) merged = [lastB]
    /\ filter (has_id (id_of a)) unique = [firstA].
Proof.
  intros Hr Ha Hb Hsame.
  assert (Hkk : same_value_zero (id_of a) (id_of a) = true)
    by (eapply has_id_reflexive_key, Hsame).
  destruct (bookingMap_fold_last Hr) as [m [Hm [_ Hlast]]].
  destruct (unique_from_first Hr []) as [unique [Hu Hfirst]].
  destruct (find_present (has_id (id_of a)) (rev setB) b) as [lastB HlastB];
    [apply in_rev in Hb; exact Hb | exact Hsame |].
  destruct (find_present (has_id (id_of a)) setA a) as [firstA HfirstA];
    [exact Ha | exact Hkk |].
  exists (map_values m), unique, lastB, firstA.
  split; [unfold merge_by_id; rewrite Hm; reflexivity|].
  split; [exact Hu|]. split; [|split; [exact HlastB|split; [exact HfirstA|split]]].
  - intros k. split.
    + rewrite Hlast. apply option_list_length.
    + destruct (same_value_zero k k) eqn:Ek.
      * rewrite (Hfirst k Ek). simpl. apply option_list_length.
      * rewrite filter_nothing; [simpl; lia|].
        intros r. destruct (has_id k r) eqn:E; [|reflexivity].
        apply has_id_reflexive_key in E. congruence.
  - rewrite Hlast. unfold find_last. rewrite rev_app_distr.
    rewrite (find_app_first _ _ _ HlastB). reflexivity.
  - rewrite (Hfirst _ Hkk). simpl.
    rewrite (find_app_first _ _ _ HfirstA). reflexivity.
Qed.

Lemma one_record_per_identifier_witness :
  exists merged unique,
    merge_by_id ([b1_from_A] ++ [b1_from_B]) = Ret merged
    /\ uniqueBookings ([b1_from_A] ++ [b1_from_B]) = Ret unique
    /\ filter (has_id (VStr "B1")) merged = [b1_from_B]
    /\ filter (has_id (VStr "B1")) unique = [b1_from_A].
Proof.
  destruct (@one_record_per_identifier [b1_from_A] [b1_from_B] b1_from_A b1_from_B)
    as [merged [unique [lastB [firstA [Hm [Hu [_ [Hl [Hf [H1 H2]]]]]]]]]].
  - repeat constructor.
  - left; reflexivity.
  - left; reflexivity.
  - reflexivity.
  - exists merged, unique. split; [exact Hm|]. split; [exact Hu|].
    inversion Hl; subst lastB. inversion Hf; subst firstA.
    split; [exact H1 | exact H2].
Defined.

End Merge.

(* ================================================================== *)
(** * Further properties *)
(* ================================================================== *)

Import Listing Cache Auth MoreProps.

(** ** The upstream client *)

Section UpstreamClient.

Lemma proxy_when_sendable endpoint params method body w :
  sendable (proxy_request endpoint params method body) = true ->
  fetchBeds24ViaProxy endpoint params method body w
  = (r <- fetch_json (proxy_request endpoint params method body) ;;
     let '(status, data) := r in
     inner <- lift (prop data "data") ;;
     if truthy inner then ret (mkFetchResult data status)
     else ret (mkFetchResult (VObj [("data", data)]) status))%m w.
Proof.
  intros Hs. unfold fetchBeds24ViaProxy, bind at 1, lift, append_all.
  rewrite Hs. reflexivity.
Qed.

Lemma proxy_when_not_sendable endpoint params method body w :
  sendable (proxy_request endpoint params method body) = false ->
  fetchBeds24ViaProxy endpoint params method body w = (Throw no_string_form, w).
Proof.
  intros Hs. unfold fetchBeds24ViaProxy, bind at 1, lift, append_all.
  rewrite Hs. reflexivity.
Qed.

Lemma direct_when_sendable endpoint params method body token w :
  sendable (direct_request endpoint params method body token) = true ->
  fetchBeds24Direct endpoint params method body token w
  = (r <- fetch_json (direct_request endpoint params method body token) ;;
     let '(status, data) := r in
     success <- lift (prop data "success") ;;
     error <- lift (prop data "error") ;;
     if strict_eq success (VBool false) || truthy error then
       throw (new_Error (or_else error (VStr "API request failed")))
     else ret (mkFetchResult data status))%m w.
Proof.
  intros Hs. unfold fetchBeds24Direct, bind at 1, lift, append_all.
  rewrite Hs. reflexivity.
Qed.

Lemma direct_when_not_sendable endpoint params method body token w :
  sendable (direct_request endpoint params method body token) = false ->
  fetchBeds24Direct endpoint params method body token w = (Throw no_string_form, w).
Proof.
  intros Hs. unfold fetchBeds24Direct, bind at 1, lift, append_all.
  rewrite Hs. reflexivity.
Qed.

Lemma proxy_result_readable endpoint params method body w r w' :
  fetchBeds24ViaProxy endpoint params method body w = (Ret r, w') ->
  readable (data r) = true.
Proof.
  destruct (sendable (proxy_request endpoint params method body)) eqn:Hs;
    [rewrite (proxy_when_sendable _ _ _ _ _ Hs)
    |rewrite (proxy_when_not_sendable _ _ _ _ _ Hs); discriminate].
  unfold bind at 1. intros H.
  destruct (fetch_json _ w) as [[[st payload]|e] w1]; [|discriminate].
  unfold bind, lift, ret in H.
  destruct (prop payload "data") as [inner|e] eqn:E; [|discriminate].
  apply prop_readable in E.
  destruct (truthy inner); inversion H; subst; simpl; auto.
Qed.

Lemma direct_result_readable endpoint params method body token w r w' :
  fetchBeds24Direct endpoint params method body token w = (Ret r, w') ->
  readable (data r) = true.
Proof.
  destruct (sendable (direct_request endpoint params method body token)) eqn:Hs;
    [rewrite (direct_when_sendable _ _ _ _ _ _ Hs)
    |rewrite (direct_when_not_sendable _ _ _ _ _ _ Hs); discriminate].
  unfold bind at 1. intros H.
  destruct (fetch_json _ w) as [[[st payload]|e] w1]; [|discriminate].
  unfold bind, lift, ret, throw in H.
  destruct (prop payload "success") as [s|e] eqn:E; [|discriminate].
  apply prop_readable in E.
  destruct (prop payload "error") as [er|e]; [|discriminate].
  destruct (strict_eq s (VBool false) || truthy er); inversion H; subst; exact E.
Qed.

Lemma fetchBeds24_cases endpoint params method body w r w' :
  fetchBeds24 endpoint params method body w = (r, w') ->
  (useDirectApi w = true
   /\ exists res, r = Ret res
      /\ fetchBeds24Direct endpoint params method body (BEDS24_READ_TOKEN w) w
         = (Ret res, w'))
  \/ (exists w1,
        (useDirectApi w = false /\ w1 = w
         \/ useDirectApi w = true
            /\ w1 = set_useDirectApi false
                      (send_if_built (direct_request endpoint params method body
                                            (BEDS24_READ_TOKEN w)) w))
        /\ fetchBeds24ViaProxy endpoint params method body w1 = (r, w')).
Proof.
  intros H. destruct (useDirectApi w) eqn:Hd.
  - rewrite (fetchBeds24_direct_mode _ _ _ _ _ Hd) in H.
    destruct (fetchBeds24Direct _ _ _ _ _ w) as [[res|e] w1] eqn:E.
    + inversion H; subst. left. eauto.
    + apply direct_world in E. destruct E as [-> _]. right.
      eexists. split; [right; eauto|exact H].
  - rewrite (fetchBeds24_proxy_mode _ _ _ _ _ Hd) in H.
    right. exists w. auto.
Qed.

Lemma fetchBeds24_result_readable endpoint params method body w r w' :
  fetchBeds24 endpoint params method body w = (Ret r, w') ->
  readable (data r) = true.
Proof.
  intros H. apply fetchBeds24_cases in H.
  destruct H as [[_ [res [Hres Hd]]] | [w1 [_ Hp]]].
  - inversion Hres; subst. eapply direct_result_readable; eauto.
  - eapply proxy_result_readable; eauto.
Qed.

(** X1.  Whatever [fetchBeds24] returns can be read the way every
    handler reads it: [result.data] is neither [null] nor [undefined],
    so [result.data.data || []] never throws and is never falsy. *)
Theorem fetchBeds24_result_can_be_read endpoint params method body w r w' :
  fetchBeds24 endpoint params method body w = (Ret r, w') ->
  readable (data r) = true
  /\ exists records, data_or_empty r = Ret records /\ truthy records = true.
Proof.
  intros H. pose proof (fetchBeds24_result_readable _ _ _ _ _ H) as Hr.
  split; [exact Hr|].
  unfold data_or_empty. rewrite (readable_prop _ "data" Hr). simpl.
  eexists. split; [reflexivity|].
  unfold or_else. destruct (truthy (field "data" (data r))) eqn:E; auto.
Qed.

Lemma fetchBeds24_result_can_be_read_witness :
  let r := mkFetchResult one_page_payload 200 in
  readable (data r) = true
  /\ exists records, data_or_empty r = Ret records /\ truthy records = true.
Proof.
  intros r.
  apply (@fetchBeds24_result_can_be_read
           "bookings" [("propertyId", PROPERTY_ID)] "GET" VNull
           (world_with true one_page_upstream) r
           (snd (fetchBeds24 "bookings" [("propertyId", PROPERTY_ID)] "GET" VNull
                             (world_with true one_page_upstream)))).
  vm_compute. reflexivity.
Defined.

Lemma filter_incl_all {A} (f : A -> bool) (l : list A) : incl (filter f l) l.
Proof. intros x Hx. apply filter_In in Hx. tauto. Qed.

Lemma sendable_forall req :
  sendable req = true ->
  forall kv, In kv (query req) -> has_string_form (snd kv) = true.
Proof. unfold sendable. intros H. apply forallb_forall. exact H. Qed.

Lemma direct_request_tidy endpoint params method body token :
  sendable (direct_request endpoint params method body token) = true ->
  tidy_request endpoint params method (direct_request endpoint params method body token).
Proof.
  intros Hs. pose proof (sendable_forall _ Hs) as Hform. revert Hform.
  unfold tidy_request, direct_request, request_body.
  cbn [Api.method query route Api.body url]. intros Hform.
  split; [reflexivity|]. split.
  { destruct (String.eqb method "GET"); [apply filter_incl_all | intros x []]. }
  split.
  { apply Forall_forall. intros kv Hkv. split; [|apply Hform; exact Hkv].
    destruct (String.eqb method "GET"); [|destruct Hkv].
    apply filter_In in Hkv. tauto. }
  split.
  { intros ->. rewrite andb_false_r. reflexivity. }
  split; [reflexivity|].
  intros Hm. destruct (String.eqb method "GET") eqn:E; [|reflexivity].
  apply String.eqb_eq in E. contradiction.
Qed.

Lemma proxy_request_tidy endpoint params method body :
  sendable (proxy_request endpoint params method body) = true ->
  tidy_request endpoint params method (proxy_request endpoint params method body).
Proof.
  intros Hs. pose proof (sendable_forall _ Hs) as Hform. revert Hform.
  unfold tidy_request, proxy_request, request_body.
  cbn [Api.method query route Api.body token_header url]. intros Hform.
  split; [reflexivity|]. split; [apply filter_incl_all|]. split.
  { apply Forall_forall. intros kv Hkv. split; [|apply Hform; exact Hkv].
    apply filter_In in Hkv.
    destruct Hkv as [_ Hkv]. apply andb_prop in Hkv. tauto. }
  split.
  { intros ->. rewrite andb_false_r. reflexivity. }
  split; [reflexivity|]. split; [reflexivity|].
  intros Hin. apply in_map_iff in Hin. destruct Hin as [kv [Hk Hkv]].
  apply filter_In in Hkv. destruct Hkv as [_ Hkv]. apply andb_prop in Hkv.
  destruct Hkv as [_ Hkv]. rewrite Hk in Hkv. discriminate.
Qed.

(** The requests of a query: those it could build, of the request to
    the direct API and the request to the proxy. *)
Lemma fetchBeds24_sends endpoint params method body w r w' :
  fetchBeds24 endpoint params method body w = (r, w') ->
  exists requests,
    trace w' = requests ++ trace w
    /\ (query_events requests \/ (requests = [] /\ r = Throw no_string_form))
    /\ (sendable (proxy_request endpoint params method body) = true \/ (exists res, r = Ret res)
        -> query_events requests)
    /\ forall req, In (EvHttp req) requests ->
                   sendable req = true
                   /\ (req = proxy_request endpoint params method body
                       \/ req = direct_request endpoint params method body
                                               (BEDS24_READ_TOKEN w)).
Proof.
  intros H. apply fetchBeds24_world in H. unfold send_if_built in H.
  destruct H as [[_ [-> Hun]] | [[_ [Hs [-> [res ->]]]] | [_ [-> Hun]]]].
  - destruct (sendable (proxy_request _ _ _ _)) eqn:Hp.
    + eexists [_]. split; [reflexivity|].
      split; [left; eexists _, []; auto|].
      split; [intros; eexists _, []; auto|].
      intros req [Hreq|[]]. inversion Hreq; subst. auto.
    + exists []. split; [reflexivity|]. split; [right; auto|].
      split; [intros [Hyes | [res Hres]];
              [discriminate | rewrite (Hun eq_refl) in Hres; discriminate]|].
      intros req [].
  - eexists [_]. split; [reflexivity|].
    split; [left; eexists _, []; auto|].
    split; [intros; eexists _, []; auto|].
    intros req [Hreq|[]]. inversion Hreq; subst. auto.
  - destruct (sendable (proxy_request _ _ _ _)) eqn:Hp;
      destruct (sendable (direct_request _ _ _ _ _)) eqn:Hdr.
    + eexists [_; _]. split; [reflexivity|].
      split; [left; eexists _, [_]; split; [reflexivity|eauto]|].
      split; [intros; eexists _, [_]; split; [reflexivity|eauto]|].
      intros req [Hreq|[Hreq|[]]]; inversion Hreq; subst; auto.
    + eexists [_]. split; [reflexivity|].
      split; [left; eexists _, []; auto|].
      split; [intros; eexists _, []; auto|].
      intros req [Hreq|[]]. inversion Hreq; subst. auto.
    + eexists [_]. split; [reflexivity|].
      split; [left; eexists _, []; auto|].
      split; [intros; eexists _, []; auto|].
      intros req [Hreq|[]]. inversion Hreq; subst. auto.
    + exists []. split; [reflexivity|]. split; [right; auto|].
      split; [intros [Hyes | [res Hres]];
              [discriminate | rewrite (Hun eq_refl) in Hres; discriminate]|].
      intros req [].
Qed.

(** X2.  Every request a query sends is clean: it uses the caller's
    method; the parameters it appends to the URL it starts from (the
    endpoint's URL on the direct route, [proxy_url] on the proxy route)
    are parameters of the caller that are not [undefined], [null] or
    the empty string and that have a string form; a GET carries no
    body; a request to the direct API appends parameters only for GET;
    and a request to the proxy carries no token and does not append
    [propertyId].  A query sends one or two requests; it sends none
    only when no request could be built, and then it throws the
    TypeError of the conversion. *)
Theorem fetchBeds24_requests_are_tidy endpoint params method body w r w' :
  fetchBeds24 endpoint params method body w = (r, w') ->
  exists requests,
    trace w' = requests ++ trace w
    /\ (query_events requests \/ (requests = [] /\ r = Throw no_string_form))
    /\ forall req, In (EvHttp req) requests ->
                   tidy_request endpoint params method req.
Proof.
  intros H.
  destruct (fetchBeds24_sends _ _ _ _ _ H) as [requests [Ht [Hq [_ Hreq]]]].
  exists requests. split; [exact Ht|]. split; [exact Hq|].
  intros req Hin. destruct (Hreq req Hin) as [Hs [-> | ->]].
  - apply proxy_request_tidy. exact Hs.
  - apply direct_request_tidy. exact Hs.
Qed.

Lemma fetchBeds24_requests_are_tidy_witness :
  let params := [("propertyId", PROPERTY_ID); ("arrivalFrom", VStr "");
                 ("filter", VStr "current")] in
  let w := world_with true failing_upstream in
  exists requests,
    trace (snd (fetchBeds24 "bookings" params "GET" VNull w)) = requests ++ trace w
    /\ (query_events requests
        \/ (requests = []
            /\ fst (fetchBeds24 "bookings" params "GET" VNull w) = Throw no_string_form))
    /\ forall req, In (EvHttp req) requests -> tidy_request "bookings" params "GET" req.
Proof.
  intros params w.
  apply (@fetchBeds24_requests_are_tidy "bookings" params "GET" VNull w
           (fst (fetchBeds24 "bookings" params "GET" VNull w))
           (snd (fetchBeds24 "bookings" params "GET" VNull w))).
  vm_compute. reflexivity.
Defined.

(** X3.  An exception leaves [fetchBeds24] only from the proxy call,
    made in proxy mode or after the direct call failed; it leaves
    [useDirectApi] false.  Either the proxy request could not be built,
    because a parameter value has no string form: the exception is the
    TypeError of the conversion and nothing was sent to the proxy.  Or
    the last request went to the proxy, and [fetch] failed there, or
    the body was no JSON, or it decoded to [null] or [undefined].  A
    failure of the direct API alone never reaches the caller. *)
Theorem fetchBeds24_throws_only_from_proxy endpoint params method body w e w' :
  fetchBeds24 endpoint params method body w = (Throw e, w') ->
  let preq := proxy_request endpoint params method body in
  let dreq := direct_request endpoint params method body (BEDS24_READ_TOKEN w) in
  exists w1,
    (useDirectApi w = false /\ w1 = w
     \/ useDirectApi w = true /\ w1 = set_useDirectApi false (send_if_built dreq w))
    /\ fetchBeds24ViaProxy endpoint params method body w1 = (Throw e, w')
    /\ useDirectApi w' = false
    /\ if sendable preq then
         w' = emit (EvHttp preq) w1
         /\ match upstream w1 (trace w1) preq with
            | NetworkError msg => e = mkExn KTypeError (VStr msg)
            | NotJson _ msg => e = mkExn KSyntaxError (VStr msg)
            | JsonReply _ payload => readable payload = false
            end
       else w' = w1 /\ e = no_string_form.
Proof.
  intros H preq dreq. apply fetchBeds24_cases in H.
  destruct H as [[_ [res [Hres _]]] | [w1 [Hw1 Hp]]]; [discriminate|].
  exists w1. split; [exact Hw1|]. split; [exact Hp|].
  assert (Hflag : useDirectApi w1 = false).
  { destruct Hw1 as [[Hd ->] | [_ ->]]; [exact Hd | reflexivity]. }
  fold preq in Hp.
  destruct (sendable preq) eqn:Hs.
  - rewrite (proxy_when_sendable _ _ _ _ _ Hs) in Hp. fold preq in Hp.
    unfold bind at 1, fetch_json in Hp.
    destruct (upstream w1 (trace w1) preq) as [msg|st msg|st payload].
    + inversion Hp. subst. auto.
    + inversion Hp. subst. auto.
    + unfold bind, lift, ret in Hp. destruct payload; simpl in Hp;
        try discriminate Hp; inversion Hp; subst; auto.
      destruct (assoc "data" fields) as [v|]; [destruct (truthy v)|]; discriminate.
  - rewrite (proxy_when_not_sendable _ _ _ _ _ Hs) in Hp. inversion Hp. subst. auto.
Qed.

Lemma fetchBeds24_throws_only_from_proxy_witness :
  let w := world_with true (unreachable "connect ECONNREFUSED" "getaddrinfo ENOTFOUND") in
  let params := [("propertyId", PROPERTY_ID)] in
  let q := fetchBeds24 "bookings" params "GET" VNull in
  let e := mkExn KTypeError (VStr "getaddrinfo ENOTFOUND") in
  let preq := proxy_request "bookings" params "GET" VNull in
  let dreq := direct_request "bookings" params "GET" VNull (BEDS24_READ_TOKEN w) in
  fst (q w) = Throw e
  /\ exists w1,
       (useDirectApi w = false /\ w1 = w
        \/ useDirectApi w = true /\ w1 = set_useDirectApi false (send_if_built dreq w))
       /\ fetchBeds24ViaProxy "bookings" params "GET" VNull w1 = (Throw e, snd (q w))
       /\ useDirectApi (snd (q w)) = false
       /\ if sendable preq then
            snd (q w) = emit (EvHttp preq) w1
            /\ match upstream w1 (trace w1) preq with
               | NetworkError msg => e = mkExn KTypeError (VStr msg)
               | NotJson _ msg => e = mkExn KSyntaxError (VStr msg)
               | JsonReply _ payload => readable payload = false
               end
          else snd (q w) = w1 /\ e = no_string_form.
Proof.
  intros w params q e preq dreq. split; [vm_compute; reflexivity|].
  apply (@fetchBeds24_throws_only_from_proxy "bookings" params "GET" VNull w e (snd (q w))).
  vm_compute. reflexivity.
Defined.

(** X4.  Through the proxy, the records end up under [data.data]
    whatever shape the proxy answered in: a payload whose [data] is
    truthy is passed on unchanged, and any other payload (a bare
    array, for one) is wrapped as exactly [{ data: payload }]; the
    status is passed on, and one request is sent. *)
Theorem proxy_payload_is_normalised endpoint params method body w status payload :
  useDirectApi w = false ->
  sendable (proxy_request endpoint params method body) = true ->
  upstream w (trace w) (proxy_request endpoint params method body)
  = JsonReply status payload ->
  readable payload = true ->
  fetchBeds24 endpoint params method body w
  = (Ret (mkFetchResult (if truthy (field "data" payload) then payload
                         else VObj [("data", payload)]) status),
     emit (EvHttp (proxy_request endpoint params method body)) w)
  /\ (forall records,
         payload = VArr records ->
         data_or_empty (mkFetchResult (VObj [("data", payload)]) status) = Ret payload
         /\ truthy (field "data" payload) = false).
Proof.
  intros Hd Hs Hu Hr.
  rewrite (fetchBeds24_proxy_mode _ _ _ _ _ Hd).
  rewrite (proxy_when_sendable _ _ _ _ _ Hs).
  unfold bind at 1, fetch_json. rewrite Hu.
  unfold bind, lift, ret. rewrite (readable_prop _ "data" Hr).
  split.
  - destruct (truthy (field "data" payload)); reflexivity.
  - intros records ->. split; reflexivity.
Qed.

Lemma proxy_payload_is_normalised_witness :
  let w := world_with false (constant_upstream (VArr [b1_from_A])) in
  let params := [("propertyId", PROPERTY_ID)] in
  fetchBeds24 "bookings" params "GET" VNull w
  = (Ret (mkFetchResult (if truthy (field "data" (VArr [b1_from_A]))
                         then VArr [b1_from_A]
                         else VObj [("data", VArr [b1_from_A])]) 200),
     emit (EvHttp (proxy_request "bookings" params "GET" VNull)) w)
  /\ (forall records,
         VArr [b1_from_A] = VArr records ->
         data_or_empty (mkFetchResult (VObj [("data", VArr [b1_from_A])]) 200)
         = Ret (VArr [b1_from_A])
         /\ truthy (field "data" (VArr [b1_from_A])) = false).
Proof.
  intros w params.
  apply (@proxy_payload_is_normalised "bookings" params "GET" VNull w 200
           (VArr [b1_from_A])); reflexivity.
Defined.

End UpstreamClient.

(** ** The page walker *)

Section PageOrder.

Lemma assoc_filter_obj_set {A} (f : string * A -> bool) k v :
  f (k, v) = true ->
  forall l, assoc k (filter f (obj_set l k v)) = Some v.
Proof.
  intros Hf. induction l as [|[k' v'] rest IH]; simpl.
  - rewrite Hf. simpl. rewrite String.eqb_refl. reflexivity.
  - destruct (String.eqb k k') eqn:E.
    + apply String.eqb_eq in E. subst k'. simpl. rewrite Hf. simpl.
      rewrite String.eqb_refl. reflexivity.
    + simpl. destruct (f (k', v')); [simpl; rewrite E|]; exact IH.
Qed.

Lemma page_request_carries_page params k req token :
  let pageParams := obj_set params "page" (VNum (num_of_Z k)) in
  sendable req = true ->
  req = proxy_request "bookings" pageParams "GET" VNull
  \/ req = direct_request "bookings" pageParams "GET" VNull token ->
  carries_page params k (EvHttp req).
Proof.
  intros pageParams Hs H. exists req. split; [reflexivity|].
  destruct H as [-> | ->].
  - split; [apply proxy_request_tidy; exact Hs|]. unfold proxy_request. cbn [query].
    apply assoc_filter_obj_set. reflexivity.
  - split; [apply direct_request_tidy; exact Hs|]. unfold direct_request. cbn [query].
    rewrite String.eqb_refl. apply assoc_filter_obj_set. reflexivity.
Qed.

Lemma query_events_length dh : query_events dh -> dh <> [] /\ (List.length dh <= 2)%nat.
Proof.
  intros [req [older [-> [-> | [req' ->]]]]]; split; try discriminate; simpl; lia.
Qed.

(** One turn of the loop, oldest event first. *)
Lemma loop_body_page_trace params st w r w1 :
  loop_body params st w = (r, w1) ->
  exists requests,
    (List.length requests <= 2)%nat
    /\ Forall (carries_page params (currentPage st)) requests
    /\ match r with
       | Throw _ =>
           trace w1 = rev (EvLogPage (currentPage st) :: requests) ++ trace w
       | Ret st' =>
           requests <> []
           /\ ((hasMorePages st' = true
                /\ currentPage st' = currentPage st + 1
                /\ trace w1 = rev (EvLogPage (currentPage st) :: requests ++ [EvDelay 50])
                              ++ trace w)
               \/ (hasMorePages st' = false
                   /\ trace w1 = rev (EvLogPage (currentPage st) :: requests)
                                 ++ trace w))
       end.
Proof.
  unfold loop_body, bind at 1, tell. unfold bind at 1.
  set (w0 := emit (EvLogPage (currentPage st)) w).
  destruct (fetchBeds24 _ _ _ _ w0) as [[result|e] wf] eqn:E;
    apply fetchBeds24_sends in E; destruct E as [requests [Ht [Hq [Hres Hreq]]]];
    simpl in Ht.
  all: assert (Hlen : (List.length (rev requests) <= 2)%nat) by
      (rewrite length_rev; destruct Hq as [Hq | [-> _]];
       [apply query_events_length in Hq; tauto | simpl; lia]).
  all: assert (Hall : Forall (carries_page params (currentPage st)) (rev requests)) by
      (apply Forall_rev; apply Forall_forall; intros ev Hin;
       assert (Hev : exists req, ev = EvHttp req) by
         (destruct Hq as [[rq [older [-> [-> | [rq' ->]]]]] | [-> _]];
          simpl in Hin;
          repeat match goal with
                 | H : _ \/ _ |- _ => destruct H
                 | H : False |- _ => destruct H
                 end; eauto);
       destruct Hev as [req ->]; destruct (Hreq req Hin) as [Hs Hwhich];
       exact (@page_request_carries_page params (currentPage st) req
                                         (BEDS24_READ_TOKEN w0) Hs Hwhich)).
  all: assert (Hthrow : trace wf
                        = rev (EvLogPage (currentPage st) :: rev requests) ++ trace w)
      by (rewrite Ht; simpl; rewrite rev_involutive, <- app_assoc; reflexivity).
  - assert (Hne : rev requests <> []).
    { destruct (query_events_length (Hres (or_intror (ex_intro _ result eq_refl))))
        as [Hne _].
      intros Hnil. apply Hne. rewrite <- (rev_involutive requests), Hnil. reflexivity. }
    unfold bind, lift, ret, sleep, tell.
    destruct (prop (data result) "data") as [inner|e];
      [|intros H; inversion H; subst; exists (rev requests); auto].
    destruct (prop (data result) "pages") as [pf|e];
      [|intros H; inversion H; subst; exists (rev requests); auto].
    destruct (prop (or_else pf (VObj [])) "nextPageExists") as [nx|e];
      [|intros H; inversion H; subst; exists (rev requests); auto].
    destruct (strict_eq nx (VBool true)); intros H; inversion H; subst;
      exists (rev requests);
      (split; [exact Hlen|split; [exact Hall|split; [exact Hne|]]]).
    + left. split; [reflexivity|]. split; [reflexivity|].
      cbn [trace emit]. rewrite Ht. simpl.
      rewrite rev_app_distr, rev_involutive. simpl. rewrite <- app_assoc. reflexivity.
    + right. split; [reflexivity|]. exact Hthrow.
  - intros H; inversion H; subst. exists (rev requests). auto.
Qed.

Lemma walk_page_trace params maxPages st w :
  hasMorePages st = true ->
  exists delta,
    trace (snd (walk params maxPages st w)) = delta ++ trace w
    /\ page_trace params maxPages (currentPage st) (rev delta).
Proof.
  apply (walk_elim
           (fun params maxPages st w res =>
              hasMorePages st = true ->
              exists delta, trace (snd res) = delta ++ trace w
                            /\ page_trace params maxPages (currentPage st) (rev delta))).
  - intros ps mp s Hc w0 _ Hmore. exists []. split; [reflexivity|].
    apply page_trace_capped.
    destruct (loop_cond_false _ _ Hc) as [Hf|Hgt]; [congruence | exact Hgt].
  - intros ps mp s Hc w0 st' w' Hb IH _ _ Hmore.
    destruct (loop_cond_true _ _ Hc) as [_ Hle].
    destruct (loop_body_page_trace _ _ _ Hb) as [requests [Hlen [Hall [Hne Hcase]]]].
    destruct Hcase as [[Hm [Hcp Htr]] | [Hm Htr]].
    + destruct (IH Hm) as [delta' [Ht' Hpt]].
      exists (delta' ++ rev (EvLogPage (currentPage s) :: requests ++ [EvDelay 50])).
      split. { rewrite Ht', Htr, <- app_assoc. reflexivity. }
      rewrite rev_app_distr, rev_involutive. simpl. rewrite <- app_assoc.
      apply page_trace_more; auto. rewrite <- Hcp. exact Hpt.
    + rewrite walk_unfold. unfold loop_cond. rewrite Hm. cbn [andb snd].
      exists (rev (EvLogPage (currentPage s) :: requests)).
      split; [exact Htr|]. rewrite rev_involutive.
      apply page_trace_last; auto.
  - intros ps mp s Hc w0 e w' Hb _ _ Hmore.
    destruct (loop_cond_true _ _ Hc) as [_ Hle].
    destruct (loop_body_page_trace _ _ _ Hb) as [requests [Hlen [Hall Htr]]].
    exists (rev (EvLogPage (currentPage s) :: requests)).
    split; [exact Htr|]. rewrite rev_involutive.
    apply page_trace_last; auto.
Qed.


End PageOrder.

Section PagedUpstream.

Lemma fetchBeds24_paged pages params w :
  upstream w = paged_upstream pages ->
  sendable (direct_request "bookings" params "GET" VNull (BEDS24_READ_TOKEN w)) = true ->
  sendable (proxy_request "bookings" params "GET" VNull) = true ->
  let k := List.length (filter is_http (trace w)) in
  exists req,
    fetchBeds24 "bookings" params "GET" VNull w
    = (Ret (mkFetchResult
              (page_payload (nth k pages []) (Nat.ltb (S k) (List.length pages))) 200),
       emit (EvHttp req) w).
Proof.
  intros Hu Hsd Hsp k. destruct (useDirectApi w) eqn:Hd.
  - rewrite (fetchBeds24_direct_mode _ _ _ _ _ Hd).
    rewrite (direct_when_sendable _ _ _ _ _ _ Hsd).
    unfold bind at 1, fetch_json. rewrite Hu.
    unfold paged_upstream. fold k. eexists. reflexivity.
  - rewrite (fetchBeds24_proxy_mode _ _ _ _ _ Hd).
    rewrite (proxy_when_sendable _ _ _ _ _ Hsp).
    unfold bind at 1, fetch_json. rewrite Hu.
    unfold paged_upstream. fold k. eexists. reflexivity.
Qed.

Lemma loop_body_paged pages params st w :
  upstream w = paged_upstream pages ->
  Forall (fun kv => has_string_form (snd kv) = true) params ->
  let k := List.length (filter is_http (trace w)) in
  let records := nth k pages [] in
  exists w1,
    loop_body params st w
    = (Ret (if Nat.ltb (S k) (List.length pages)
            then mkLoop (allBookings st ++ records) (currentPage st + 1) true
                        (currentPage st + 1)
            else mkLoop (allBookings st ++ records) (currentPage st) false
                        (totalPages st)), w1)
    /\ upstream w1 = upstream w
    /\ useDirectApi w1 = useDirectApi w
    /\ List.length (filter is_http (trace w1)) = S k.
Proof.
  intros Hu Hall k records.
  unfold loop_body, bind at 1, tell. unfold bind at 1.
  set (w0 := emit (EvLogPage (currentPage st)) w).
  destruct (@sendable_with_page params "page" (num_of_Z (currentPage st)) "bookings"
                                "GET" VNull (BEDS24_READ_TOKEN w0) Hall) as [Hsd Hsp].
  destruct (@fetchBeds24_paged pages
              (obj_set params "page" (VNum (num_of_Z (currentPage st)))) w0 Hu Hsd Hsp)
    as [req Hf].
  cbv zeta in Hf. change (trace w0) with (EvLogPage (currentPage st) :: trace w) in Hf.
  cbn [filter is_http] in Hf. fold k in Hf. fold records in Hf.
  rewrite Hf. clear Hf.
  destruct (Nat.ltb (S k) (List.length pages));
    unfold bind, lift, ret, sleep, tell, page_payload; cbn;
    eexists; (split; [reflexivity|]); cbn; auto.
Qed.

Lemma walk_paged pages params maxPages :
  Forall (fun kv => has_string_form (snd kv) = true) params ->
  forall rest done st w,
    pages = done ++ rest -> rest <> [] ->
    upstream w = paged_upstream pages ->
    List.length (filter is_http (trace w)) = List.length done ->
    currentPage st = Z.of_nat (List.length done) + 1 ->
    hasMorePages st = true ->
    totalPages st = currentPage st ->
    Z.of_nat (List.length done) <= maxPages ->
    exists stf w',
      walk params maxPages st w = (Ret stf, w')
      /\ allBookings stf
         = allBookings st
           ++ List.concat (firstn (Z.to_nat maxPages - List.length done) rest)
      /\ totalPages stf
         = (if maxPages <? Z.of_nat (List.length pages)
            then maxPages + 1 else Z.of_nat (List.length pages))
      /\ useDirectApi w' = useDirectApi w
      /\ Z.of_nat (List.length (filter is_http (trace w')))
         = Z.min maxPages (Z.of_nat (List.length pages)).
Proof.
  intros Hform.
  induction rest as [|p rest' IH]; intros done st w Hpages Hne Hu Hk Hcp Hmore Htp Hle;
    [contradiction|].
  assert (Hlen : List.length pages = (List.length done + S (List.length rest'))%nat).
  { rewrite Hpages, length_app. reflexivity. }
  rewrite walk_unfold. unfold loop_cond. rewrite Hmore. cbn [andb].
  destruct (currentPage st <=? maxPages) eqn:Hc.
  - apply Z.leb_le in Hc.
    destruct (@loop_body_paged pages params st w Hu Hform) as [w1 [Hb [Hu1 [Hd1 Hk1]]]].
    rewrite Hk in Hb, Hk1.
    assert (Hnth : nth (List.length done) pages [] = p).
    { rewrite Hpages, app_nth2, Nat.sub_diag by lia. reflexivity. }
    rewrite Hnth in Hb. rewrite Hb.
    assert (Hfirst : (Z.to_nat maxPages - List.length done
                      = S (Z.to_nat maxPages - S (List.length done)))%nat) by lia.
    destruct rest' as [|p' rest''].
    + (* the last page *)
      replace (Nat.ltb (S (List.length done)) (List.length pages)) with false
        by (symmetry; apply Nat.ltb_ge; simpl in Hlen; lia).
      rewrite walk_unfold. unfold loop_cond. cbn [hasMorePages andb].
      eexists _, _. split; [reflexivity|]. cbn [allBookings totalPages].
      rewrite Hfirst. cbn [firstn]. rewrite firstn_nil. cbn [List.concat].
      rewrite app_nil_r.
      split; [reflexivity|]. simpl in Hlen.
      replace (maxPages <? Z.of_nat (List.length pages)) with false
        by (symmetry; apply Z.ltb_ge; lia).
      split; [lia|]. split; [exact Hd1|]. lia.
    + (* a further page follows *)
      replace (Nat.ltb (S (List.length done)) (List.length pages)) with true
        by (symmetry; apply Nat.ltb_lt; simpl in Hlen; lia).
      destruct (IH (done ++ [p])
                   (mkLoop (allBookings st ++ p) (currentPage st + 1) true
                           (currentPage st + 1)) w1)
        as [stf [w' [Hw [Hall [Htot [Hd' Hk']]]]]].
      * rewrite <- app_assoc. exact Hpages.
      * discriminate.
      * congruence.
      * rewrite Hk1, length_app. simpl. lia.
      * cbn [currentPage]. rewrite length_app. simpl. lia.
      * reflexivity.
      * reflexivity.
      * rewrite length_app. simpl. lia.
      * exists stf, w'. split; [exact Hw|]. split.
        { rewrite Hall. cbn [allBookings]. rewrite Hfirst.
          rewrite length_app. simpl List.length.
          replace (Z.to_nat maxPages - (List.length done + 1))%nat
            with (Z.to_nat maxPages - S (List.length done))%nat by lia.
          cbn [firstn List.concat]. rewrite <- app_assoc. reflexivity. }
        split; [exact Htot|]. split; [congruence|exact Hk'].
  - apply Z.leb_gt in Hc. exists st, w. split; [reflexivity|].
    replace (Z.to_nat maxPages - List.length done)%nat with O by lia.
    simpl. rewrite app_nil_r. split; [reflexivity|].
    replace (maxPages <? Z.of_nat (List.length pages)) with true
      by (symmetry; apply Z.ltb_lt; lia).
    split; [lia|]. split; [reflexivity|]. lia.
Qed.

(** X6.  Against an upstream that serves a fixed number of pages, a
    walk for parameters whose values all have a string form returns
    the records of the pages in order, without loss or repetition, up
    to the cap: the first [maxPages] pages.  It sends one request per
    page walked, in either mode, and reports the number of pages when
    it reached the last one, and [maxPages + 1] when the cap cut it
    short. *)
Theorem walker_concatenates_pages pages params maxPages w :
  upstream w = paged_upstream pages ->
  Forall (fun kv => has_string_form (snd kv) = true) params ->
  http_calls (trace w) = 0 ->
  pages <> [] ->
  1 <= maxPages ->
  exists w',
    fetchAllBookingPages params maxPages w
    = (Ret (List.concat (firstn (Z.to_nat maxPages) pages),
            if maxPages <? Z.of_nat (List.length pages)
            then maxPages + 1 else Z.of_nat (List.length pages)), w')
    /\ useDirectApi w' = useDirectApi w
    /\ http_calls (trace w') = Z.min maxPages (Z.of_nat (List.length pages)).
Proof.
  intros Hu Hform H0 Hne Hmax.
  destruct (@walk_paged pages params maxPages Hform pages [] loop_start w)
    as [stf [w' [Hw [Hall [Htot [Hd Hk]]]]]]; auto.
  - unfold http_calls, count in H0. simpl. lia.
  - simpl. lia.
  - exists w'. unfold fetchAllBookingPages. rewrite Hw.
    rewrite Hall, Htot. simpl. rewrite Nat.sub_0_r.
    split; [reflexivity|]. split; [exact Hd|exact Hk].
Qed.

Lemma walker_concatenates_pages_witness :
  let pages := [[b1_from_A]; []; [b1_from_B; hk_in_house]] in
  let w := world_with true (paged_upstream pages) in
  exists w',
    fetchAllBookingPages [("propertyId", PROPERTY_ID)] 2 w
    = (Ret ([b1_from_A], 3), w')
    /\ useDirectApi w' = true
    /\ http_calls (trace w') = 2.
Proof.
  intros pages w.
  apply (@walker_concatenates_pages pages [("propertyId", PROPERTY_ID)] 2 w).
  - reflexivity.
  - constructor; [reflexivity|constructor].
  - reflexivity.
  - discriminate.
  - lia.
Defined.

End PagedUpstream.

(** ** The listing handlers *)

Section ListingParams.

Lemma assoc_obj_set {A} k k' (v : A) l :
  assoc k (obj_set l k' v) = if String.eqb k k' then Some v else assoc k l.
Proof.
  induction l as [|[k0 v0] rest IH]; simpl.
  - reflexivity.
  - destruct (String.eqb_spec k' k0) as [->|Hne]; simpl.
    + destruct (String.eqb k k0); reflexivity.
    + rewrite IH. destruct (String.eqb_spec k k') as [->|Hne'].
      * apply String.eqb_neq in Hne. rewrite Hne. reflexivity.
      * reflexivity.
Qed.

Lemma params_fold_lookup (q : ReqQuery) k :
  forall names init,
    assoc k
      (fold_left
         (fun params param =>
            if negb (is_undefined (query_get q param)) && negb (String.eqb param "page")
            then obj_set params param (value_of_q (query_get q param))
            else params)
         names init)
    = if existsb (String.eqb k) names && negb (String.eqb k "page")
         && negb (is_undefined (query_get q k))
      then Some (value_of_q (query_get q k))
      else assoc k init.
Proof.
  induction names as [|x names IH]; intros init; [reflexivity|].
  cbn [fold_left existsb]. rewrite IH.
  destruct (String.eqb_spec k x) as [->|Hne].
  - cbn [orb].
    destruct (negb (is_undefined (query_get q x))) eqn:E1;
      destruct (negb (String.eqb x "page")) eqn:E2;
      cbn [andb]; rewrite ?andb_false_r; cbn [andb];
      rewrite ?assoc_obj_set, ?String.eqb_refl;
      destruct (existsb (String.eqb x) names); reflexivity.
  - cbn [orb].
    destruct (existsb (String.eqb k) names && negb (String.eqb k "page")
              && negb (is_undefined (query_get q k))); [reflexivity|].
    destruct (negb (is_undefined (query_get q x)) && negb (String.eqb x "page"));
      [|reflexivity].
    rewrite assoc_obj_set. apply String.eqb_neq in Hne. rewrite Hne. reflexivity.
Qed.

(** X7.  What GET /getBookings passes upstream: a name of the
    supported list other than [page] carries the value the client sent
    for it when the client sent one; [propertyId] otherwise stands for
    the resort; nothing else is passed on, so unknown names and the
    client's own [page] are dropped. *)
Theorem getBookings_params_lookup (q : ReqQuery) k :
  assoc k (getBookings_params q)
  = if existsb (String.eqb k) BOOKING_PARAMS && negb (String.eqb k "page")
       && negb (is_undefined (query_get q k))
    then Some (value_of_q (query_get q k))
    else if String.eqb k "propertyId" then Some PROPERTY_ID else None.
Proof.
  unfold getBookings_params. rewrite params_fold_lookup.
  destruct (existsb (String.eqb k) BOOKING_PARAMS && negb (String.eqb k "page")
            && negb (is_undefined (query_get q k))); [reflexivity|].
  reflexivity.
Qed.

(** The filtered listing asks upstream for nothing but supported
    names and the walker's page. *)
Lemma getBookings_params_keys (q : ReqQuery) k v :
  In (k, v) (getBookings_params q) ->
  existsb (String.eqb k) BOOKING_PARAMS = true /\ k <> "page".
Proof.
  unfold getBookings_params.
  assert (Hgen : forall names init,
             In (k, v)
                (fold_left
                   (fun params param =>
                      if negb (is_undefined (query_get q param))
                         && negb (String.eqb param "page")
                      then obj_set params param (value_of_q (query_get q param))
                      else params)
                   names init) ->
             In k (map fst init) \/ (In k names /\ k <> "page")).
  { induction names as [|x names IH]; intros init Hin.
    - left. apply in_map_iff. exists (k, v). auto.
    - cbn [fold_left] in Hin. apply IH in Hin. destruct Hin as [Hin|[Hin Hp]].
      + destruct (negb (is_undefined (query_get q x))
                  && negb (String.eqb x "page")) eqn:E; [|auto].
        apply andb_prop in E. destruct E as [_ E].
        apply negb_true_iff, String.eqb_neq in E.
        clear IH. revert Hin. generalize (value_of_q (query_get q x)) as vx.
        induction init as [|[k0 v0] rest IHi]; intros vx Hin.
        * simpl in Hin. destruct Hin as [<-|[]]. right. split; [left; auto|auto].
        * simpl in Hin. destruct (String.eqb x k0).
          -- simpl in Hin. simpl. tauto.
          -- simpl in Hin. destruct Hin as [<-|Hin]; [left; left; reflexivity|].
             destruct (IHi vx Hin) as [H|H]; [left; right; exact H|right; exact H].
      + right. split; [right; exact Hin|exact Hp]. }
  intros Hin. apply Hgen in Hin. destruct Hin as [Hin|[Hin Hp]].
  - simpl in Hin. destruct Hin as [<-|[]]. split; [reflexivity|discriminate].
  - split; [|exact Hp]. apply existsb_exists. exists k. split; [exact Hin|].
    apply String.eqb_refl.
Qed.

End ListingParams.

Section ListingHandlers.

Lemma obj_set_in {A} l k' (v' : A) k v :
  In (k, v) (obj_set l k' v') -> k = k' \/ In (k, v) l.
Proof.
  induction l as [|[k0 v0] rest IH]; simpl.
  - intros [H|[]]. inversion H. auto.
  - destruct (String.eqb_spec k' k0) as [->|Hne]; simpl.
    + intros [H|H]; [inversion H; auto | auto].
    + intros [H|H]; [auto|]. destruct (IH H); auto.
Qed.

Lemma page_trace_requests params maxPages k t :
  page_trace params maxPages k t ->
  forall req, In (EvHttp req) t -> exists page, carries_page params page (EvHttp req).
Proof.
  induction 1 as [k Hk|k requests Hk Hlen Hall|k requests rest Hk Hne Hlen Hall _ IH];
    intros req Hin.
  - destruct Hin.
  - destruct Hin as [Hin|Hin]; [discriminate|].
    exists k. rewrite Forall_forall in Hall. apply Hall. exact Hin.
  - destruct Hin as [Hin|Hin]; [discriminate|].
    apply in_app_or in Hin. destruct Hin as [Hin|Hin].
    + exists k. rewrite Forall_forall in Hall. apply Hall. exact Hin.
    + destruct Hin as [Hin|Hin]; [discriminate|]. apply IH. exact Hin.
Qed.

(** X8.  GET /getBookings with a date filter or a [filter]: the pages
    are asked for in order from page 1, up to the default cap, and no
    request carries a URL parameter outside the supported list,
    whatever the client sent.  A page may be logged and not asked for:
    for [?filter[toString]=1], whose value has no string form, the
    handler logs page 1, sends nothing and answers 500 with the
    message of the TypeError. *)
Theorem getBookings_filtered_requests (q : ReqQuery) w :
  (exists delta,
      trace (snd (getBookings_filtered q w)) = delta ++ trace w
      /\ page_trace (getBookings_params q) default_maxPages 1 (rev delta)
      /\ forall req k v,
           In (EvHttp req) delta -> In (k, v) (query req) ->
           existsb (String.eqb k) BOOKING_PARAMS = true)
  /\ getBookings_filtered [("filter", QObj [("toString", QStr "1")])]
                          (world_with true endless_upstream)
     = (Fail 500 (VStr "Cannot convert object to primitive value"),
        emit (EvLogPage 1) (world_with false endless_upstream)).
Proof.
  split; [|vm_compute; reflexivity].
  destruct (@walk_page_trace (getBookings_params q) default_maxPages loop_start w eq_refl)
    as [delta [Ht Hp]].
  exists delta.
  assert (Hw : trace (snd (getBookings_filtered q w)) = delta ++ trace w).
  { unfold getBookings_filtered, handle, bind, ret, fetchAllBookingPages.
    destruct (walk _ _ loop_start w) as [[st|e] w']; exact Ht. }
  split; [exact Hw|]. split; [exact Hp|].
  intros req k v Hreq Hkv.
  destruct (page_trace_requests Hp req) as [page [req' [Heq [Htidy _]]]].
  { apply in_rev in Hreq. exact Hreq. }
  inversion Heq; subst req'.
  destruct Htidy as [_ [Hincl _]].
  apply Hincl in Hkv. apply obj_set_in in Hkv. destruct Hkv as [-> | Hkv].
  - reflexivity.
  - apply getBookings_params_keys in Hkv. tauto.
Qed.

(** X9.  GET /api/booking/:id answers 500 exactly when the upstream
    query throws.  Otherwise it answers with success: with the first
    record of the list when there is one, and with [null] when the
    list is empty or missing, so an unknown booking is no error. *)
Theorem api_booking_first_or_null bookingId w :
  let params := [("propertyId", PROPERTY_ID); ("id", VStr bookingId);
                 ("includeInvoiceItems", VBool true);
                 ("includeInfoItems", VBool true)] in
  match fetchBeds24 "bookings" params "GET" VNull w with
  | (Throw e, w') => api_booking bookingId w = (Fail 500 (exn_message e), w')
  | (Ret r, w') =>
      exists found,
        api_booking bookingId w = (Ok found, w')
        /\ (truthy (field "data" (data r)) = false -> found = VNull)
        /\ (forall records,
              field "data" (data r) = VArr records ->
              found = match records with
                      | [] => VNull
                      | first :: _ => or_else first VNull
                      end)
  end.
Proof.
  intros params.
  destruct (fetchBeds24 "bookings" params "GET" VNull w) as [[r|e] w'] eqn:E;
    unfold api_booking, handle; unfold bind at 1; fold params; rewrite E;
    [|reflexivity].
  pose proof (fetchBeds24_result_readable _ _ _ _ _ E) as Hr.
  unfold bind, lift, ret, data_or_empty. rewrite (readable_prop _ "data" Hr).
  cbn [res_bind]. eexists. split; [reflexivity|]. split.
  - intros Hf. unfold or_else at 2. rewrite Hf. reflexivity.
  - intros records Hrec. rewrite Hrec. destruct records; reflexivity.
Qed.

Lemma with_propertyId_defaulted b b' :
  with_propertyId b = Ret b' -> readable b = true /\ defaulted b b'.
Proof.
  unfold with_propertyId. intros H.
  destruct (prop b "propertyId") as [p|e] eqn:E; [|discriminate].
  pose proof (prop_readable _ _ E) as Hr. split; [exact Hr|].
  rewrite (readable_prop _ "propertyId" Hr) in E. injection E as <-.
  cbn [res_bind] in H. injection H as <-.
  unfold defaulted. destruct b as [| |x|x|x|x|fields]; try reflexivity;
    try (destruct (truthy _); reflexivity).
  destruct (truthy (field "propertyId" (VObj fields))); [reflexivity|].
  split; [|split].
  - unfold field, prop. rewrite assoc_obj_set, String.eqb_refl. reflexivity.
  - intros k Hk. unfold field, prop. rewrite assoc_obj_set.
    apply String.eqb_neq in Hk. rewrite Hk. reflexivity.
  - eauto.
Qed.

Lemma mapM_with_propertyId batch out :
  mapM with_propertyId batch = Ret out -> Forall2 defaulted batch out.
Proof.
  revert out. induction batch as [|b rest IH]; intros out H; simpl in H.
  - injection H as <-. constructor.
  - destruct (with_propertyId b) as [b'|e] eqn:E; [|discriminate].
    cbn [res_bind] in H.
    destruct (mapM with_propertyId rest) as [rest'|e]; [|discriminate].
    injection H as <-. constructor; [|apply IH; reflexivity].
    apply with_propertyId_defaulted in E. tauto.
Qed.

Lemma mapM_with_propertyId_total batch :
  Forall (fun b => readable b = true) batch ->
  exists out, mapM with_propertyId batch = Ret out.
Proof.
  induction 1 as [|b rest Hb _ [out IH]]; simpl.
  - eauto.
  - unfold with_propertyId at 1. rewrite (readable_prop _ "propertyId" Hb).
    cbn [res_bind]. rewrite IH. cbn [res_bind]. eauto.
Qed.

Lemma mapM_with_propertyId_throws batch b :
  In b batch -> readable b = false ->
  exists e, mapM with_propertyId batch = Throw e.
Proof.
  intros Hin Hb. induction batch as [|x rest IH]; [destruct Hin|].
  simpl. destruct (with_propertyId x) as [x'|e] eqn:E; cbn [res_bind]; [|eauto].
  destruct Hin as [->|Hin].
  - apply with_propertyId_defaulted in E. destruct E as [E _]. congruence.
  - destruct (IH Hin) as [e He]. rewrite He. cbn [res_bind]. eauto.
Qed.

(** X10.  POST /bookings sends the whole batch in one POST without URL
    parameters: every record as it came, except that an object without
    a truthy [propertyId] gets the resort's, all its other properties
    untouched; a single object is sent as a batch of one.  When a
    record of the batch is [null], the handler answers 500 and sends
    nothing. *)
Theorem post_bookings_fills_in_propertyId bookingData w :
  let batch := as_batch bookingData in
  (Forall (fun b => readable b = true) batch ->
   exists sent_batch sent,
     Forall2 defaulted batch sent_batch
     /\ query_events sent
     /\ trace (snd (post_bookings bookingData w)) = sent ++ trace w
     /\ forall req, In (EvHttp req) sent ->
                    Api.method req = "POST" /\ query req = []
                    /\ Api.body req = Some (VArr sent_batch))
  /\ (forall b, In b batch -> readable b = false ->
      exists message, post_bookings bookingData w = (Fail 500 message, w)).
Proof.
  intros batch. split.
  - intros Hall. destruct (mapM_with_propertyId_total Hall) as [out Hout].
    exists out. pose proof (mapM_with_propertyId _ Hout) as Hdef.
    destruct (fetchBeds24 "bookings" [] "POST" (VArr out) w) as [r w'] eqn:E.
    destruct (fetchBeds24_sends _ _ _ _ _ E) as [sent [Ht [_ [Hq Hreq]]]].
    exists sent. split; [exact Hdef|]. split; [exact (Hq (or_introl eq_refl))|]. split.
    + unfold post_bookings, handle, bind at 1, lift. fold batch. rewrite Hout.
      unfold bind, ret. rewrite E. destruct r; exact Ht.
    + intros req Hin. destruct (Hreq req Hin) as [_ [-> | ->]]; auto.
  - intros b Hin Hb. destruct (mapM_with_propertyId_throws _ _ Hin Hb) as [e He].
    exists (exn_message e).
    unfold post_bookings, handle, bind at 1, lift. fold batch. rewrite He. reflexivity.
Qed.

Lemma post_bookings_fills_in_propertyId_witness :
  let bookingData := VObj [("roomId", n 5); ("arrival", VStr "2024-05-10")] in
  let w := world_with true one_page_upstream in
  exists sent_batch sent,
    Forall2 defaulted [bookingData] sent_batch
    /\ query_events sent
    /\ trace (snd (post_bookings bookingData w)) = sent ++ trace w
    /\ forall req, In (EvHttp req) sent ->
                   Api.method req = "POST" /\ query req = []
                   /\ Api.body req = Some (VArr sent_batch).
Proof.
  intros bookingData w.
  apply (proj1 (@post_bookings_fills_in_propertyId bookingData w)).
  repeat constructor.
Defined.

End ListingHandlers.

(** ** Merging and cancelled records *)

Section MergeOrder.

Lemma filterM_not_cancelled_filter l l' :
  filterM not_cancelled l = Ret l' ->
  l' = filter active l /\ Forall (fun b => readable b = true) l.
Proof.
  revert l'. induction l as [|b rest IH]; intros l' H; simpl in H.
  - injection H as <-. auto.
  - destruct (not_cancelled b) as [keep|e] eqn:E; [|discriminate].
    cbn [res_bind] in H.
    destruct (filterM not_cancelled rest) as [rest'|e]; [|discriminate].
    destruct (IH _ eq_refl) as [-> Hall].
    pose proof (not_cancelled_readable _ E) as Hr.
    unfold not_cancelled in E. rewrite (readable_prop _ "status" Hr) in E.
    cbn [res_bind] in E. injection E as <-. cbn [res_bind] in H. injection H as <-.
    split; [reflexivity|constructor; assumption].
Qed.

Lemma bookingMap_fold_readable records :
  forall m0 m,
    foldM (fun m b => (id <- prop b "id" ;; Ret (map_set m id b))%res) records m0 = Ret m ->
    Forall (fun r => readable r = true) records.
Proof.
  induction records as [|b rest IH]; intros m0 m H; [constructor|].
  simpl in H. destruct (prop b "id") as [id|e] eqn:E; [|discriminate].
  cbn [res_bind] in H. constructor; [eapply prop_readable; eauto|eapply IH; eauto].
Qed.

Lemma merge_by_id_last records out :
  merge_by_id records = Ret out ->
  Forall (fun r => readable r = true) records
  /\ forall k, filter (has_id k) out = option_list (find_last (has_id k) records).
Proof.
  unfold merge_by_id. intros H.
  destruct (bookingMap_fold records) as [m|e] eqn:E; [|discriminate].
  cbn [res_bind] in H. injection H as <-.
  pose proof (bookingMap_fold_readable _ _ E) as Hall. split; [exact Hall|].
  destruct (bookingMap_fold_last Hall) as [m' [Hm' [_ Hlast]]].
  rewrite E in Hm'. injection Hm' as <-. exact Hlast.
Qed.

Lemma filter_swap {A} (p q : A -> bool) l :
  filter p (filter q l) = filter q (filter p l).
Proof.
  induction l as [|x rest IH]; [reflexivity|]. simpl.
  destruct (q x) eqn:Hq; destruct (p x) eqn:Hp; simpl; rewrite ?Hq, ?Hp, IH; reflexivity.
Qed.

(** X11.  GET /dashboard/data merges first and drops cancelled records
    afterwards: for every identifier, [data] holds the last record of
    current, arrivals and departures (in that order) that carries it,
    provided that record is not cancelled, and nothing otherwise; a
    cancelled last version hides the earlier ones.  A fetch that was
    rejected counts as an empty list.  [totalActive] is the length of
    [data], and [occupied] counts the records of current that are not
    cancelled. *)
Theorem dashboard_data_shows_live_last_versions today c a d body :
  dashboard_data_respond today c a d = Ret body ->
  exists cs ars ds,
    settled_list c = Ret cs /\ settled_list a = Ret ars /\ settled_list d = Ret ds
    /\ (forall k, filter (has_id k) (db_data body)
                  = filter active (option_list (find_last (has_id k) (cs ++ ars ++ ds))))
    /\ db_totalActive body = len (db_data body)
    /\ db_occupied body = len (filter active cs)
    /\ (forall e, c = Rejected e -> cs = []).
Proof.
  unfold dashboard_data_respond, settled_list. intros H.
  destruct (settled_records c) as [current|e] eqn:Ec; [|discriminate].
  destruct (settled_records a) as [arrivals|e] eqn:Ea; [|discriminate].
  destruct (settled_records d) as [departures|e] eqn:Ed; [|discriminate].
  cbn [res_bind] in *.
  destruct (spread current) as [cs|e] eqn:Sc; [|discriminate].
  destruct (spread arrivals) as [ars|e] eqn:Sa; [|discriminate].
  destruct (spread departures) as [ds|e] eqn:Sd; [|discriminate].
  cbn [res_bind] in H.
  destruct (merge_by_id (cs ++ ars ++ ds)) as [merged|e] eqn:Em; [|discriminate].
  cbn [res_bind] in H.
  destruct (filterM not_cancelled merged) as [unique|e] eqn:Ef; [|discriminate].
  cbn [res_bind] in H.
  destruct (array_filter current not_cancelled) as [occupied|e] eqn:Eo; [|discriminate].
  cbn [res_bind] in H.
  destruct (array_filter arrivals _) as [ins|e]; [|discriminate].
  destruct (array_filter departures _) as [outs|e]; [|discriminate].
  cbn [res_bind] in H. injection H as <-. cbn [db_data db_totalActive db_occupied].
  exists cs, ars, ds. repeat (split; [reflexivity|]).
  apply filterM_not_cancelled_filter in Ef. destruct Ef as [-> _].
  apply merge_by_id_last in Em. destruct Em as [_ Hlast].
  split; [|split; [reflexivity|split]].
  - intros k. rewrite filter_swap, Hlast. reflexivity.
  - destruct current; try discriminate. simpl in Sc. injection Sc as <-.
    simpl in Eo. apply filterM_not_cancelled_filter in Eo. destruct Eo as [-> _].
    reflexivity.
  - intros e ->. simpl in Ec. injection Ec as <-. simpl in Sc. injection Sc as <-.
    reflexivity.
Qed.

Lemma dashboard_data_shows_live_last_versions_witness :
  let gone := booking (VStr "B1") "cancelled" "2024-05-12" (n 120) (n 50) in
  exists body,
    dashboard_data_respond "2024-05-10"
      (Fulfilled (result_of [b1_from_A; hk_in_house]))
      (Rejected (type_error "fetch failed"))
      (Fulfilled (result_of [gone])) = Ret body
    /\ db_data body = [hk_in_house]
    /\ exists cs ars ds,
        settled_list (Fulfilled (result_of [b1_from_A; hk_in_house])) = Ret cs
        /\ settled_list (Rejected (type_error "fetch failed")) = Ret ars
        /\ settled_list (Fulfilled (result_of [gone])) = Ret ds
        /\ (forall k, filter (has_id k) (db_data body)
                      = filter active
                          (option_list (find_last (has_id k) (cs ++ ars ++ ds))))
        /\ db_totalActive body = len (db_data body)
        /\ db_occupied body = len (filter active cs)
        /\ (forall e, Fulfilled (result_of [b1_from_A; hk_in_house]) = Rejected e ->
            cs = []).
Proof.
  intros gone. eexists. split; [vm_compute; reflexivity|].
  split; [reflexivity|].
  apply (@dashboard_data_shows_live_last_versions "2024-05-10"
           (Fulfilled (result_of [b1_from_A; hk_in_house]))
           (Rejected (type_error "fetch failed"))
           (Fulfilled (result_of [gone]))).
  vm_compute. reflexivity.
Defined.

(** X12.  GET /api/calendar drops cancelled records first and merges
    afterwards: for every identifier, [data] holds the last record of
    arrivals, departures and current (in that order) that carries it
    and is not cancelled; a cancelled version never hides a live one. *)
Theorem calendar_shows_last_live_versions start end_ days ar dr cr body :
  calendar_respond start end_ days ar dr cr = Ret body ->
  exists current_items,
    result_list cr = Ret current_items
    /\ (forall k, filter (has_id k) (cal_data body)
                  = option_list
                      (find_last (has_id k)
                         (filter active (fst ar ++ fst dr ++ current_items))))
    /\ cal_count body = len (cal_data body).
Proof.
  unfold calendar_respond, result_list. intros H.
  destruct (data_or_empty cr) as [current|e]; [|discriminate].
  cbn [res_bind] in *.
  destruct (spread current) as [items|e]; [|discriminate].
  cbn [res_bind] in H.
  destruct (filterM not_cancelled _) as [live|e] eqn:Ef; [|discriminate].
  cbn [res_bind] in H.
  destruct (merge_by_id live) as [bookings|e] eqn:Em; [|discriminate].
  cbn [res_bind] in H. injection H as <-. cbn [cal_data cal_count].
  exists items. split; [reflexivity|]. split; [|reflexivity].
  apply filterM_not_cancelled_filter in Ef. destruct Ef as [-> _].
  apply merge_by_id_last in Em. destruct Em as [_ Hlast]. exact Hlast.
Qed.

Lemma calendar_shows_last_live_versions_witness :
  let gone := booking (VStr "B1") "cancelled" "2024-05-12" (n 120) (n 50) in
  exists body,
    calendar_respond (VStr "2024-05-10") "2024-05-17" 7
      ([b1_from_A], 1) ([hk_in_house], 1) (result_of [gone]) = Ret body
    /\ cal_data body = [b1_from_A; hk_in_house]
    /\ exists current_items,
        result_list (result_of [gone]) = Ret current_items
        /\ (forall k, filter (has_id k) (cal_data body)
                      = option_list
                          (find_last (has_id k)
                             (filter active
                                (fst ([b1_from_A], 1) ++ fst ([hk_in_house], 1)
                                 ++ current_items))))
        /\ cal_count body = len (cal_data body).
Proof.
  intros gone. eexists. split; [vm_compute; reflexivity|].
  split; [reflexivity|].
  apply (@calendar_shows_last_live_versions (VStr "2024-05-10") "2024-05-17" 7
           ([b1_from_A], 1) ([hk_in_house], 1) (result_of [gone])).
  vm_compute. reflexivity.
Defined.

End MergeOrder.

(** ** The booking cache of the v4.0 server *)

Section BookingCache.

Lemma strict_eq_sym a b : strict_eq a b = strict_eq b a.
Proof.
  destruct a, b; try reflexivity; simpl.
  - destruct b, b0; reflexivity.
  - apply eq_true_iff_eq. rewrite !SFeqb_true. intuition congruence.
  - apply String.eqb_sym.
Qed.

Lemma strict_eq_compat a b k :
  strict_eq a b = true -> strict_eq a k = strict_eq b k.
Proof.
  destruct a, b; try discriminate; simpl; intros H.
  - reflexivity.
  - reflexivity.
  - apply Bool.eqb_prop in H. subst. reflexivity.
  - destruct k; try reflexivity.
    apply eq_true_iff_eq. rewrite SFeqb_true in H. rewrite !SFeqb_true.
    intuition congruence.
  - apply String.eqb_eq in H. subst. reflexivity.
Qed.

Lemma FOP_app {A} (R : A -> A -> Prop) l1 l2 :
  ForallOrdPairs R (l1 ++ l2)
  <-> ForallOrdPairs R l1 /\ ForallOrdPairs R l2
      /\ forall a b, In a l1 -> In b l2 -> R a b.
Proof.
  induction l1 as [|x l1 IH]; simpl.
  - split.
    + intros H. split; [constructor|]. split; [exact H|]. intros a b [].
    + tauto.
  - split.
    + intros H. inversion H as [|? ? Hx Hrest]; subst.
      apply IH in Hrest. destruct Hrest as [H1 [H2 H12]].
      rewrite Forall_forall in Hx.
      split; [constructor; [apply Forall_forall; intros y Hy; apply Hx, in_or_app; auto|exact H1]|].
      split; [exact H2|].
      intros a b [<-|Ha] Hb; [apply Hx, in_or_app; auto|apply H12; auto].
    + intros [H1 [H2 H12]]. inversion H1 as [|? ? Hx Hrest]; subst.
      constructor.
      * apply Forall_forall. intros y Hy. apply in_app_or in Hy.
        rewrite Forall_forall in Hx. destruct Hy; [apply Hx; auto|apply H12; auto].
      * apply IH. split; [exact Hrest|]. split; [exact H2|].
        intros a b Ha Hb. apply H12; auto.
Qed.

Lemma same_booking_spec booking b t :
  same_booking booking b = Ret t ->
  readable b = true /\ t = has_strict_id (id_of booking) b.
Proof.
  unfold same_booking. intros H.
  destruct (prop b "id") as [bid|e] eqn:E; [|discriminate].
  pose proof (prop_readable _ _ E) as Hr.
  cbn [res_bind] in H.
  destruct (prop booking "id") as [id|e] eqn:E'; [|discriminate].
  pose proof (prop_readable _ _ E') as Hr'.
  cbn [res_bind] in H. injection H as <-.
  unfold has_strict_id, id_of, field. rewrite E, E'. auto.
Qed.

Lemma findIndexM_spec p l r :
  findIndexM p l = Ret r ->
  match r with
  | None => Forall (fun x => p x = Ret false) l
  | Some i =>
      exists before x after,
        l = before ++ x :: after
        /\ List.length before = i
        /\ p x = Ret true
        /\ Forall (fun y => p y = Ret false) before
  end.
Proof.
  revert r. induction l as [|y rest IH]; intros r H; simpl in H.
  - injection H as <-. constructor.
  - destruct (p y) as [[|]|e] eqn:E; cbn [res_bind] in H; [| |discriminate].
    + injection H as <-. exists [], y, rest. auto.
    + destruct (findIndexM p rest) as [i|e]; [|discriminate].
      cbn [res_bind] in H. injection H as <-.
      specialize (IH _ eq_refl). destruct i as [i|]; simpl.
      * destruct IH as [before [x [after [-> [Hlen [Hx Hb]]]]]].
        exists (y :: before), x, after. simpl. auto.
      * constructor; assumption.
Qed.

Lemma remove_at_middle before x after :
  remove_at (List.length before) (before ++ x :: after) = before ++ after.
Proof. induction before; simpl; congruence. Qed.

Lemma replace_at_middle before x after v :
  replace_at (List.length before) v (before ++ x :: after) = before ++ v :: after.
Proof. induction before; simpl; congruence. Qed.

Lemma filter_none {A} (p : A -> bool) l :
  Forall (fun x => p x = false) l -> filter p l = [].
Proof.
  induction 1 as [|x rest Hx _ IH]; simpl; [reflexivity|]. rewrite Hx. exact IH.
Qed.

(** What the update does to a list, by cases. *)
Lemma apply_booking_cases bookings booking out :
  apply_booking bookings booking = Ret out ->
  let mine := has_strict_id (id_of booking) in
  (Forall (fun b => mine b = false) bookings
   /\ out = if active booking then bookings ++ [booking] else bookings)
  \/ (exists before x after,
        bookings = before ++ x :: after
        /\ mine x = true
        /\ Forall (fun b => mine b = false) before
        /\ out = if active booking then before ++ booking :: after
                 else before ++ after).
Proof.
  intros H mine. unfold apply_booking in H.
  destruct (findIndexM (same_booking booking) bookings) as [idx|e] eqn:E; [|discriminate].
  cbn [res_bind] in H.
  destruct (prop booking "status") as [status|e] eqn:Es; [|discriminate].
  pose proof (prop_readable _ _ Es) as Hr.
  rewrite (readable_prop _ "status" Hr) in Es. injection Es as <-.
  cbn [res_bind] in H. injection H as <-.
  apply findIndexM_spec in E.
  assert (Hfalse : forall l, Forall (fun x => same_booking booking x = Ret false) l ->
                             Forall (fun b => mine b = false) l).
  { intros l Hl. eapply Forall_impl; [|exact Hl]. intros b Hb.
    apply same_booking_spec in Hb. destruct Hb as [_ Hb]. symmetry. exact Hb. }
  unfold active. destruct idx as [i|].
  - right. destruct E as [before [x [after [-> [<- [Hx Hb]]]]]].
    exists before, x, after. split; [reflexivity|].
    apply same_booking_spec in Hx. destruct Hx as [_ Hx].
    split; [symmetry; exact Hx|]. split; [apply Hfalse; exact Hb|].
    rewrite remove_at_middle, replace_at_middle.
    destruct (strict_eq (field "status" booking) (VStr "cancelled")); reflexivity.
  - left. split; [apply Hfalse; exact E|].
    destruct (strict_eq (field "status" booking) (VStr "cancelled")); reflexivity.
Qed.

(** X13.  The webhook's cache update keeps the cached list in order:
    on a list without two records of the same [id], and for a booking
    whose [id] is a string, a number other than NaN, or a boolean, the
    list written back again has no two records of the same [id]; it
    holds the booking, once, when the booking is not cancelled, and no
    record of that [id] when it is; records of other ids stay as they
    were; and no cancelled record comes in. *)
Theorem cache_update_keeps_one_live_version bookings booking out :
  updateSingleBookingInCache (Some (VArr bookings)) booking = Some out ->
  distinct_ids strict_eq bookings ->
  strict_id booking = true ->
  distinct_ids strict_eq out
  /\ filter (has_strict_id (id_of booking)) out
     = (if active booking then [booking] else [])
  /\ (forall k, strict_eq (id_of booking) k = false ->
                filter (has_strict_id k) out = filter (has_strict_id k) bookings)
  /\ (Forall (fun b => active b = true) bookings ->
      Forall (fun b => active b = true) out).
Proof.
  unfold updateSingleBookingInCache. cbn [or_else truthy].
  destruct (apply_booking bookings booking) as [l|e] eqn:E; [|discriminate].
  intros H Hdist Hid. injection H as <-.
  apply apply_booking_cases in E. cbv zeta in E.
  set (mine := has_strict_id (id_of booking)) in *.
  assert (Hmine : mine booking = true) by exact Hid.
  destruct E as [[Hnone ->] | [before [x [after [-> [Hx [Hb ->]]]]]]].
  - (* the booking was not in the list *)
    destruct (active booking) eqn:Ha.
    + split; [|split; [|split]].
      * apply FOP_app. split; [exact Hdist|]. split; [repeat constructor|].
        intros a b Ha' [<-|[]]. rewrite Forall_forall in Hnone. apply (Hnone a Ha').
      * rewrite filter_app, (filter_none _ Hnone). simpl. rewrite Hmine. reflexivity.
      * intros k Hk. rewrite filter_app. unfold has_strict_id. simpl.
        rewrite Hk. apply app_nil_r.
      * intros Hall. apply Forall_app. split; [exact Hall|]. repeat constructor. exact Ha.
    + split; [exact Hdist|]. split; [apply filter_none; exact Hnone|].
      split; [reflexivity|auto].
  - (* the booking replaces, or removes, the record [x] *)
    apply FOP_app in Hdist. destruct Hdist as [Hd1 [Hd2 Hd12]].
    inversion Hd2 as [|? ? Hxa Hda]; subst.
    assert (Hxk : forall k, strict_eq (id_of x) k = strict_eq (id_of booking) k).
    { intros k. apply strict_eq_compat. exact Hx. }
    assert (Hafter : Forall (fun b => mine b = false) after).
    { rewrite Forall_forall in Hxa. apply Forall_forall. intros b Hb'.
      unfold mine, has_strict_id. rewrite strict_eq_sym, <- Hxk. apply Hxa. exact Hb'. }
    destruct (active booking) eqn:Ha.
    + split; [|split; [|split]].
      * apply FOP_app. split; [exact Hd1|]. split.
        -- constructor; [|exact Hda].
           apply Forall_forall. intros b Hb'. rewrite <- Hxk.
           rewrite Forall_forall in Hxa. apply Hxa. exact Hb'.
        -- intros a b Ha' [<-|Hb'].
           ++ rewrite Forall_forall in Hb. apply (Hb a Ha').
           ++ apply Hd12; [exact Ha'|right; exact Hb'].
      * rewrite filter_app. simpl. rewrite Hmine.
        rewrite (filter_none _ Hb), (filter_none _ Hafter). reflexivity.
      * intros k Hk. rewrite !filter_app. unfold has_strict_id. simpl.
        rewrite Hxk, Hk. reflexivity.
      * intros Hall. apply Forall_app in Hall. destruct Hall as [H1 H2].
        inversion H2; subst. apply Forall_app. split; [exact H1|].
        constructor; assumption.
    + split; [|split; [|split]].
      * apply FOP_app. split; [exact Hd1|]. split; [exact Hda|].
        intros a b Ha' Hb'. apply Hd12; [exact Ha'|right; exact Hb'].
      * rewrite filter_app, (filter_none _ Hb), (filter_none _ Hafter). reflexivity.
      * intros k Hk. rewrite !filter_app. unfold has_strict_id. simpl.
        rewrite Hxk, Hk. reflexivity.
      * intros Hall. apply Forall_app in Hall. destruct Hall as [H1 H2].
        inversion H2; subst. apply Forall_app. split; assumption.
Qed.

Lemma cache_update_keeps_one_live_version_witness :
  let bookings := [b1_from_A; hk_in_house] in
  let out := [b1_from_B; hk_in_house] in
  distinct_ids strict_eq out
  /\ filter (has_strict_id (id_of b1_from_B)) out
     = (if active b1_from_B then [b1_from_B] else [])
  /\ (forall k, strict_eq (id_of b1_from_B) k = false ->
                filter (has_strict_id k) out = filter (has_strict_id k) bookings)
  /\ (Forall (fun b => active b = true) bookings ->
      Forall (fun b => active b = true) out).
Proof.
  intros bookings out.
  apply (@cache_update_keeps_one_live_version bookings b1_from_B out).
  - vm_compute. reflexivity.
  - repeat constructor.
  - reflexivity.
Defined.

End BookingCache.

(** ** Dates *)

Section Dates.

(** A date of the calendar is the date of its day number. *)
Lemma civil_round_trip y m d :
  valid_date y m d ->
  civil_from_days (days_from_civil y m d) = (y, m, d).
Proof.
  intros [Hm Hd].
  unfold days_from_civil. cbv zeta.
  set (y0 := if m <=? 2 then y - 1 else y).
  set (era := y0 / 400).
  set (yoe := y0 - era * 400).
  assert (Hyoe : 0 <= yoe <= 399).
  { unfold yoe, era. Z.to_euclidean_division_equations; lia. }
  set (mp := if 2 <? m then m - 3 else m + 9).
  assert (Hmp : 0 <= mp <= 11 /\ (mp < 10 -> m = mp + 3) /\ (10 <= mp -> m = mp - 9)).
  { unfold mp. destruct (Z.ltb_spec 2 m); lia. }
  set (doy := (153 * mp + 2) / 5 + d - 1).
  assert (Hleap : m = 2 -> d = 29 -> (yoe + 1) mod 4 = 0 /\ ((yoe + 1) mod 100 <> 0 \/ yoe = 399)).
  { intros -> ->. unfold days_in_month, is_leap in Hd. simpl in Hd.
    assert (Hy0 : y0 = y - 1) by reflexivity.
    destruct (y mod 4 =? 0) eqn:E4; [|simpl in Hd; lia].
    apply Z.eqb_eq in E4.
    destruct (y mod 100 =? 0) eqn:E100; simpl in Hd.
    - destruct (y mod 400 =? 0) eqn:E400; [|lia].
      apply Z.eqb_eq in E400. unfold yoe, era. rewrite Hy0.
      Z.to_euclidean_division_equations; lia.
    - apply Z.eqb_neq in E100. unfold yoe, era. rewrite Hy0.
      Z.to_euclidean_division_equations; lia. }
  assert (Hdim : d <= 31 /\ (m = 4 \/ m = 6 \/ m = 9 \/ m = 11 -> d <= 30)
                 /\ (m = 2 -> d <= 29)).
  { unfold days_in_month in Hd.
    destruct (Z.eqb_spec m 2); [destruct (is_leap y); lia|].
    destruct (Z.eqb_spec m 4); [simpl in Hd; lia|].
    destruct (Z.eqb_spec m 6); [simpl in Hd; lia|].
    destruct (Z.eqb_spec m 9); [simpl in Hd; lia|].
    destruct (Z.eqb_spec m 11); [simpl in Hd; lia|].
    simpl in Hd. lia. }
  assert (Hdoy : 0 <= doy <= 365 /\ (doy = 365 -> m = 2 /\ d = 29)).
  { unfold doy. Z.to_euclidean_division_equations; lia. }
  set (doe := yoe * 365 + yoe / 4 - yoe / 100 + doy).
  assert (Hdoe : 0 <= doe < 146097).
  { unfold doe. Z.to_euclidean_division_equations; lia. }
  unfold civil_from_days. cbv zeta.
  replace (era * 146097 + doe - 719468 + 719468) with (doe + era * 146097) by lia.
  replace ((doe + era * 146097) / 146097) with era
    by (Z.to_euclidean_division_equations; lia).
  replace (doe + era * 146097 - era * 146097) with doe by lia.
  assert (Hy : (doe - doe / 1460 + doe / 36524 - doe / 146096) / 365 = yoe).
  { destruct (Z.eq_dec doy 365) as [E|E].
    - destruct Hdoy as [_ Hd29]. destruct (Hd29 E) as [E2 E29].
      destruct (Hleap E2 E29) as [L4 L100].
      unfold doe. rewrite E. Z.to_euclidean_division_equations; lia.
    - unfold doe. Z.to_euclidean_division_equations; lia. }
  rewrite Hy.
  replace (doe - (365 * yoe + yoe / 4 - yoe / 100)) with doy by (unfold doe; lia).
  assert (Hmp' : (5 * doy + 2) / 153 = mp).
  { unfold doy. Z.to_euclidean_division_equations; lia. }
  rewrite Hmp'.
  assert (Hd' : doy - (153 * mp + 2) / 5 + 1 = d) by (unfold doy; lia).
  rewrite Hd'.
  assert (Hyear : yoe + era * 400 = y0) by (unfold yoe; lia).
  rewrite Hyear.
  unfold y0. destruct (Z.ltb_spec mp 10).
  - replace (mp + 3) with m by lia. destruct (Z.leb_spec m 2); [lia|]. reflexivity.
  - replace (mp - 9) with m by lia. destruct (Z.leb_spec m 2); [|lia].
    f_equal. f_equal. lia.
Qed.

Lemma decimal_pad4 y : 1000 <= y <= 9999 -> decimal y = pad4 y.
Proof.
  intros Hy. unfold decimal.
  assert (Hlog : 9 <= Z.log2 y).
  { change 9 with (Z.log2 1000). apply Z.log2_le_mono. lia. }
  destruct (Z.to_nat (Z.log2 y)) as [|[|[|k]]] eqn:E; try lia.
  cbn [decimal_digits].
  destruct (Z.ltb_spec y 10); [lia|].
  destruct (Z.ltb_spec (y / 10) 10); [Z.to_euclidean_division_equations; lia|].
  destruct (Z.ltb_spec (y / 10 / 10) 10); [Z.to_euclidean_division_equations; lia|].
  destruct (Z.ltb_spec (y / 10 / 10 / 10) 10); [|Z.to_euclidean_division_equations; lia].
  unfold pad4, pad2. cbn [append].
  replace ((y / 10 / 10 / 10) mod 10) with (y / 100 / 10)
    by (Z.to_euclidean_division_equations; lia).
  replace ((y / 10 / 10) mod 10) with ((y / 100) mod 10)
    by (Z.to_euclidean_division_equations; lia).
  replace ((y / 10) mod 10) with (y mod 100 / 10)
    by (Z.to_euclidean_division_equations; lia).
  replace (y mod 10) with ((y mod 100) mod 10) at 1
    by (Z.to_euclidean_division_equations; lia).
  reflexivity.
Qed.

Lemma days_from_civil_range y m d :
  0 <= y <= 9999 -> 1 <= m <= 12 -> 1 <= d <= 31 ->
  - 800000 <= days_from_civil y m d <= 3000000.
Proof.
  intros Hy Hm Hd. unfold days_from_civil.
  destruct (m <=? 2); destruct (2 <? m); Z.to_euclidean_division_equations; lia.
Qed.

Lemma days_in_month_le y m : days_in_month y m <= 31.
Proof.
  unfold days_in_month. destruct (m =? 2); [destruct (is_leap y); lia|].
  destruct ((m =? 4) || (m =? 6) || (m =? 9) || (m =? 11)); lia.
Qed.

(** The dates from October 1951 on come after 30 September 1951. *)
Lemma days_from_civil_since_1951 y m d :
  1952 <= y \/ (y = 1951 /\ 10 <= m) -> 1 <= m <= 12 -> 1 <= d ->
  days_from_civil 1951 9 30 <= days_from_civil y m d.
Proof.
  change (days_from_civil 1951 9 30) with (- 6668).
  intros Hy Hm Hd. destruct Hy as [Hy | [-> Hm10]].
  - unfold days_from_civil.
    destruct (Z.leb_spec m 2); destruct (Z.ltb_spec 2 m); try lia;
      Z.to_euclidean_division_equations; lia.
  - assert (Hcases : m = 10 \/ m = 11 \/ m = 12) by lia.
    destruct Hcases as [-> | [-> | ->]]; unfold days_from_civil;
      cbn [Z.leb Z.ltb Z.compare Pos.compare Pos.compare_cont];
      Z.to_euclidean_division_equations; lia.
Qed.

(** Since 30 September 1951, midnight +06:00 of a day prints in
    Asia/Dhaka as that day. *)
Lemma print_midnight_plus6 y m d :
  1000 <= y <= 9999 -> valid_date y m d ->
  days_from_civil 1951 9 30 <= days_from_civil y m d ->
  toLocaleDateString_en_CA dhaka_zone
    (Some (MakeDate (days_from_civil y m d) 0 - 6 * msPerHour))
  = iso_date y m d.
Proof.
  intros Hy Hv Hsince. unfold toLocaleDateString_en_CA.
  rewrite (@dhaka_day_of_midnight_plus6 _ Hsince), (civil_round_trip Hv),
    (decimal_pad4 Hy).
  reflexivity.
Qed.

(** X14.  On a host whose offset from UTC never changes, the end date
    of the calendar is the date of the civil calendar [days] days
    after the start date (before it for a negative [days]), across
    months, years and leap days, whatever the host's offset is: for
    start dates of the years 1000 to 9999 and end dates of the years
    1952 to 9999.  (Asia/Dhaka is at UTC+6 or UTC+7 since 30 September
    1951; under its earlier offsets midnight +06:00 does not always lie
    on the same day there, and one day after 1940-01-01 comes out as
    1940-01-01.) *)
Theorem calendar_end_is_the_date_days_later offset y m d days y' m' d' :
  1000 <= y <= 9999 -> valid_date y m d ->
  1952 <= y' <= 9999 -> valid_date y' m' d' ->
  days_from_civil y' m' d' = days_from_civil y m d + days ->
  calendar_end (fixed_zone offset) (iso_date y m d) days = iso_date y' m' d'
  /\ calendar_end (fixed_zone offset) "1940-01-01" 1 = "1940-01-01".
Proof.
  intros Hy [Hm Hd] Hy' Hv' Hdays. split.
  - pose proof (days_in_month_le y m) as Hle.
    pose proof (days_in_month_le y' m') as Hle'.
    assert (Hr : - 800000 <= days_from_civil y' m' d' <= 3000000).
    { destruct Hv'. apply days_from_civil_range; lia. }
    assert (Hsince : days_from_civil 1951 9 30 <= days_from_civil y' m' d').
    { destruct Hv'. apply days_from_civil_since_1951; lia. }
    rewrite calendar_end_on_constant_offset_host; try lia.
    + rewrite <- Hdays, (civil_round_trip Hv'), (@decimal_pad4 y' ltac:(lia)).
      reflexivity.
    + rewrite <- Hdays. unfold MakeDate, msPerDay, msPerHour. lia.
  - apply (calendar_end_in_1940 offset).
Qed.

Lemma calendar_end_is_the_date_days_later_witness :
  calendar_end (fixed_zone (- 8 * msPerHour)) (iso_date 2024 2 28) 2
  = iso_date 2024 3 1
  /\ calendar_end (fixed_zone (- 8 * msPerHour)) "1940-01-01" 1 = "1940-01-01".
Proof.
  apply (@calendar_end_is_the_date_days_later (- 8 * msPerHour) 2024 2 28 2 2024 3 1).
  - lia.
  - split; [lia|vm_compute; split; discriminate].
  - lia.
  - split; [lia|vm_compute; split; discriminate].
  - reflexivity.
Defined.

Lemma days_in_month_ge y m : 28 <= days_in_month y m.
Proof.
  unfold days_in_month. destruct (m =? 2); [destruct (is_leap y); lia|].
  destruct ((m =? 4) || (m =? 6) || (m =? 9) || (m =? 11)); lia.
Qed.

Lemma days_from_civil_linear y m d :
  days_from_civil y m d = days_from_civil y m 1 + d - 1.
Proof. unfold days_from_civil. lia. Qed.

(** [MakeDay] one month back. *)
Lemma MakeDay_previous_month y m dt :
  1 <= m <= 12 ->
  MakeDay y (m - 1 - 1) dt
  = if m =? 1 then days_from_civil (y - 1) 12 dt else days_from_civil y (m - 1) dt.
Proof.
  intros Hm. unfold MakeDay. destruct (Z.eqb_spec m 1) as [->|Hne].
  - change ((1 - 1 - 1) / 12) with (- 1). change ((1 - 1 - 1) mod 12 + 1) with 12.
    rewrite (days_from_civil_linear (y - 1) 12 dt).
    replace (y + - 1) with (y - 1) by lia. reflexivity.
  - replace ((m - 1 - 1) / 12) with 0 by (Z.to_euclidean_division_equations; lia).
    replace ((m - 1 - 1) mod 12 + 1) with (m - 1)
      by (Z.to_euclidean_division_equations; lia).
    rewrite Z.add_0_r. rewrite (days_from_civil_linear y (m - 1) dt). reflexivity.
Qed.

(** Under the offsets Asia/Dhaka had before 30 September 1951 the
    window does not start on the same day of the month before: for
    1940-03-15, on a host in UTC+6, it starts on 1940-02-14. *)
Lemma one_month_ago_in_1940 :
  oneMonthAgoStr (fixed_zone (6 * msPerHour)) (iso_date 1940 3 15) = "1940-02-14"
  /\ iso_date 1940 2 15 <> "1940-02-14".
Proof. split; [vm_compute; reflexivity | vm_compute; discriminate]. Qed.

(** X15.  The start of the "recent past" window of GET /getBookings,
    for the years 1952 to 9999 (Asia/Dhaka is at UTC+6 or UTC+7 since
    30 September 1951): on a host whose offset from UTC never changes,
    from the second to the 28th of a month it is the same day of the
    month before (of December of the year before, in January).  The
    month is taken from the host's date at midnight in Dhaka, so that
    on a host in UTC the first of March counts from the end of
    February and gives the 30th of January; and a day the month before
    does not have runs over, so that the 31st of March gives the second
    of March.  Under the earlier offsets of Asia/Dhaka the day can come
    out one too early: 1940-03-15 gives 1940-02-14. *)
Theorem one_month_ago_is_the_same_day_last_month :
  (forall offset y m d,
      1952 <= y <= 9999 -> 1 <= m <= 12 -> 2 <= d <= 28 ->
      - 18 * msPerHour <= offset < 30 * msPerHour ->
      oneMonthAgoStr (fixed_zone offset) (iso_date y m d)
      = if m =? 1 then iso_date (y - 1) 12 d else iso_date y (m - 1) d)
  /\ oneMonthAgoStr utc_zone "2024-03-01" = "2024-01-30"
  /\ oneMonthAgoStr (fixed_zone (6 * msPerHour)) "2024-03-01" = "2024-02-01"
  /\ oneMonthAgoStr (fixed_zone (6 * msPerHour)) "2024-03-31" = "2024-03-02"
  /\ oneMonthAgoStr (fixed_zone (6 * msPerHour)) "1940-03-15" = "1940-02-14".
Proof.
  split; [|repeat split; vm_compute; reflexivity].
  intros offset y m d Hy Hm Hd Hoff.
  pose proof (days_in_month_ge y m) as Hdim.
  unfold oneMonthAgoStr. rewrite parse_iso_date by lia.
  set (D := days_from_civil y m d).
  unfold setMonth, getMonth, option_map, fixed_zone, LocalTime, UTC.
  simpl offset_at_utc; simpl offset_at_local.
  set (tl := MakeDate D 0 - 6 * msPerHour + offset).
  set (py := if m =? 1 then y - 1 else y).
  set (pm := if m =? 1 then 12 else m - 1).
  assert (Hpv : valid_date py pm d /\ 1000 <= py <= 9999).
  { unfold py, pm, valid_date. pose proof (days_in_month_ge (y - 1) 12).
    pose proof (days_in_month_ge y (m - 1)).
    destruct (Z.eqb_spec m 1); lia. }
  destruct Hpv as [Hpv Hpy].
  assert (Hsince : days_from_civil 1951 9 30 <= days_from_civil py pm d).
  { apply days_from_civil_since_1951; unfold py, pm;
      destruct (Z.eqb_spec m 1); lia. }
  assert (Hnew : MakeDate (MakeDay (YearFromTime tl) (MonthFromTime tl - 1)
                                   (DateFromTime tl)) (TimeWithinDay tl) - offset
                 = MakeDate (days_from_civil py pm d) 0 - 6 * msPerHour).
  { unfold YearFromTime, MonthFromTime, DateFromTime.
    destruct (Z.le_gt_cases (6 * msPerHour) offset) as [Heast|Hwest].
    - (* the host's date is the date in Dhaka *)
      assert (Hday : Day tl = D /\ TimeWithinDay tl = offset - 6 * msPerHour).
      { unfold Day, TimeWithinDay, tl, MakeDate, msPerDay, msPerHour in *.
        Z.to_euclidean_division_equations; lia. }
      destruct Hday as [-> ->]. unfold D.
      rewrite civil_round_trip by (split; lia). cbn [fst snd].
      rewrite (MakeDay_previous_month y d Hm). fold py pm.
      replace (if m =? 1 then days_from_civil (y - 1) 12 d
               else days_from_civil y (m - 1) d)
        with (days_from_civil py pm d) by (unfold py, pm; destruct (m =? 1); reflexivity).
      unfold MakeDate. lia.
    - (* the host's date is the day before *)
      assert (Hday : Day tl = days_from_civil y m (d - 1)
                     /\ TimeWithinDay tl = offset + 18 * msPerHour).
      { rewrite (days_from_civil_linear y m (d - 1)).
        pose proof (days_from_civil_linear y m d) as Hlin. fold D in Hlin.
        unfold Day, TimeWithinDay, tl, MakeDate, msPerDay, msPerHour in *.
        Z.to_euclidean_division_equations; lia. }
      destruct Hday as [-> ->].
      rewrite civil_round_trip by (split; lia). cbn [fst snd].
      rewrite (MakeDay_previous_month y (d - 1) Hm).
      replace (if m =? 1 then days_from_civil (y - 1) 12 (d - 1)
               else days_from_civil y (m - 1) (d - 1))
        with (days_from_civil py pm (d - 1))
        by (unfold py, pm; destruct (m =? 1); reflexivity).
      rewrite (days_from_civil_linear py pm (d - 1)), (days_from_civil_linear py pm d).
      unfold MakeDate, msPerDay, msPerHour. lia. }
  rewrite Hnew. unfold TimeClip.
  replace (Z.abs (MakeDate (days_from_civil py pm d) 0 - 6 * msPerHour)
           <=? 8640000000000000) with true.
  - rewrite (print_midnight_plus6 Hpy Hpv Hsince). unfold py, pm.
    destruct (m =? 1); reflexivity.
  - symmetry. apply Z.leb_le.
    assert (Hr : - 800000 <= days_from_civil py pm d <= 3000000).
    { destruct Hpv. apply days_from_civil_range; lia. }
    unfold MakeDate, msPerDay, msPerHour. lia.
Qed.

Lemma one_month_ago_is_the_same_day_last_month_witness :
  oneMonthAgoStr utc_zone (iso_date 2024 1 15) = iso_date 2023 12 15.
Proof.
  apply (proj1 one_month_ago_is_the_same_day_last_month 0 2024 1 15);
    unfold msPerHour; lia.
Defined.

End Dates.

(** ** Merging lists without repeated identifiers *)

Section MergeIdentity.

Lemma map_set_fresh m k v :
  Forall (fun e => same_value_zero (fst e) k = false) m ->
  map_set m k v = m ++ [(k, v)].
Proof.
  induction 1 as [|[k' v'] rest Hk _ IH]; simpl; [reflexivity|].
  simpl in Hk. rewrite Hk, IH. reflexivity.
Qed.

Lemma fold_distinct l :
  forall done,
    Forall (fun r => readable r = true) l ->
    distinct_ids same_value_zero (done ++ l) ->
    foldM (fun m b => (id <- prop b "id" ;; Ret (map_set m id b))%res) l
          (entries_of done)
    = Ret (entries_of (done ++ l)).
Proof.
  induction l as [|b rest IH]; intros done Hr Hd.
  - rewrite app_nil_r. reflexivity.
  - inversion Hr as [|? ? Hb Hrest]; subst. cbn [foldM].
    rewrite (readable_prop _ "id" Hb). cbn [res_bind]. fold (id_of b).
    rewrite map_set_fresh.
    + replace (entries_of done ++ [(id_of b, b)]) with (entries_of (done ++ [b]))
        by (unfold entries_of; rewrite map_app; reflexivity).
      rewrite IH; [|exact Hrest|rewrite <- app_assoc; exact Hd].
      rewrite <- app_assoc. reflexivity.
    + apply FOP_app in Hd. destruct Hd as [_ [_ Hcross]].
      unfold entries_of. apply Forall_map. apply Forall_forall.
      intros a Ha. simpl. apply Hcross; [exact Ha|left; reflexivity].
Qed.

Lemma at_most_one_distinct l :
  (forall k, (List.length (filter (has_id k) l) <= 1)%nat) ->
  distinct_ids same_value_zero l.
Proof.
  induction l as [|x rest IH]; intros H; [constructor|].
  constructor.
  - apply Forall_forall. intros y Hy.
    destruct (same_value_zero (id_of x) (id_of y)) eqn:E; [|reflexivity].
    exfalso. specialize (H (id_of y)). simpl in H.
    unfold has_id at 1 in H. rewrite E in H. simpl in H.
    assert (Hyy : has_id (id_of y) y = true).
    { unfold has_id. eapply same_value_zero_trans; [|exact E].
      apply same_value_zero_sym. exact E. }
    assert (Hin : In y (filter (has_id (id_of y)) rest)) by (apply filter_In; auto).
    destruct (filter (has_id (id_of y)) rest); [destruct Hin|simpl in H; lia].
  - apply IH. intros k. specialize (H k). simpl in H.
    destruct (has_id k x); simpl in H; lia.
Qed.

(** X16.  The merge by identifier leaves a list without repeated
    identifiers as it is: the same records in the same order.  Its
    result never holds two records of the same identifier, so merging
    a second time changes nothing. *)
Theorem merge_by_id_settles records :
  (Forall (fun r => readable r = true) records ->
   distinct_ids same_value_zero records ->
   merge_by_id records = Ret records)
  /\ (forall out,
        merge_by_id records = Ret out ->
        distinct_ids same_value_zero out /\ merge_by_id out = Ret out).
Proof.
  assert (Hid : forall l, Forall (fun r => readable r = true) l ->
                          distinct_ids same_value_zero l -> merge_by_id l = Ret l).
  { intros l Hr Hd. unfold merge_by_id, bookingMap_fold.
    change (@nil (Value * Value)) with (entries_of []).
    rewrite fold_distinct by assumption. cbn [res_bind app].
    unfold map_values, entries_of. rewrite map_map. cbn [snd]. rewrite map_id.
    reflexivity. }
  split; [apply Hid|].
  intros out H.
  pose proof (merge_by_id_incl _ H) as Hincl.
  destruct (merge_by_id_last _ H) as [Hr Hlast].
  assert (Hd : distinct_ids same_value_zero out).
  { apply at_most_one_distinct. intros k. rewrite Hlast. apply option_list_length. }
  split; [exact Hd|]. apply Hid; [|exact Hd].
  apply Forall_forall. intros r Hin. rewrite Forall_forall in Hr. apply Hr, Hincl, Hin.
Qed.

Lemma merge_by_id_settles_witness : merge_by_id revenue_sample = Ret revenue_sample.
Proof.
  apply (proj1 (merge_by_id_settles revenue_sample)).
  - repeat constructor.
  - repeat constructor.
Defined.

End MergeIdentity.

(** ** Housekeeping *)

Section Stayovers.

Lemma filterM_is_stayover date l l' :
  Forall (fun b => readable b = true) l ->
  filterM (is_stayover date) l = Ret l' ->
  l' = filter (fun r => negb (strict_eq (field "departure" r) date)) l.
Proof.
  intros Hall. revert l'. induction Hall as [|b rest Hb _ IH]; intros l' H; simpl in H.
  - injection H as <-. reflexivity.
  - unfold is_stayover at 1 in H. rewrite (readable_prop _ "departure" Hb) in H.
    cbn [res_bind] in H.
    destruct (filterM (is_stayover date) rest) as [rest'|e]; [|discriminate].
    cbn [res_bind] in H. injection H as <-. simpl.
    rewrite (IH _ eq_refl). reflexivity.
Qed.

Lemma filter_filter {A} (p q : A -> bool) l :
  filter q (filter p l) = filter (fun x => p x && q x) l.
Proof.
  induction l as [|x rest IH]; [reflexivity|]. simpl.
  destruct (p x); simpl; [destruct (q x)|]; rewrite IH; reflexivity.
Qed.

(** X17.  GET /api/housekeeping: the stayovers listed are exactly the
    records of the current list that are not cancelled and do not
    depart on the date, in the order of that list.  [occupied] counts
    the records of the current list that are not cancelled, and the
    stayover count is [occupied] less the departures counted, whatever
    the list of stayovers holds. *)
Theorem housekeeping_lists_guests_staying_on date c d a body :
  housekeeping_respond date c d a = Ret body ->
  exists current,
    data_or_empty c = Ret (VArr current)
    /\ hk_stayovers body = filter (stays_on date) current
    /\ hk_occupied body = len (filter active current)
    /\ hk_stayovers_count body = hk_occupied body - hk_departing body.
Proof.
  unfold housekeeping_respond. intros H.
  destruct (data_or_empty c) as [cv|e]; [|discriminate]. cbn [res_bind] in H.
  destruct cv as [| | | | |current|]; try discriminate.
  cbn [array_filter] in H.
  destruct (filterM not_cancelled current) as [live|e] eqn:El; [|discriminate].
  cbn [res_bind] in H.
  destruct (data_or_empty d) as [dv|e]; [|discriminate]. cbn [res_bind] in H.
  destruct (array_filter dv not_cancelled) as [deps|e]; [|discriminate].
  cbn [res_bind] in H.
  destruct (data_or_empty a) as [av|e]; [|discriminate]. cbn [res_bind] in H.
  destruct (array_filter av not_cancelled) as [arrs|e]; [|discriminate].
  cbn [res_bind] in H.
  destruct (filterM (is_stayover date) live) as [stay|e] eqn:Es; [|discriminate].
  cbn [res_bind] in H. injection H as <-.
  cbn [hk_stayovers hk_occupied hk_stayovers_count hk_departing].
  exists current. split; [reflexivity|].
  destruct (filter_not_cancelled _ El) as [_ [_ Hread]].
  apply filterM_not_cancelled_filter in El. destruct El as [-> _].
  apply (@filterM_is_stayover date _ _ Hread) in Es. subst stay.
  split; [|split; reflexivity].
  rewrite filter_filter. reflexivity.
Qed.

Lemma housekeeping_lists_guests_staying_on_witness :
  exists body current,
    housekeeping_respond hk_date (result_of [hk_in_house; hk_left_today])
                         (result_of [hk_left_today]) (result_of []) = Ret body
    /\ data_or_empty (result_of [hk_in_house; hk_left_today]) = Ret (VArr current)
    /\ hk_stayovers body = filter (stays_on hk_date) current
    /\ hk_occupied body = len (filter active current)
    /\ hk_stayovers_count body = hk_occupied body - hk_departing body.
Proof.
  eexists.
  assert (H : housekeeping_respond hk_date (result_of [hk_in_house; hk_left_today])
                (result_of [hk_left_today]) (result_of []) = Ret _)
    by (vm_compute; reflexivity).
  destruct (housekeeping_lists_guests_staying_on _ _ _ _ H) as [current Hc].
  exists current. split; [exact H|exact Hc].
Defined.

End Stayovers.

(** ** One-time codes *)

Section OneTimeCodes.

Lemma verify_all_without_code requests :
  verify_all requests None
  = (map (fun r : Request =>
            if code_read_fails (fst (fst r)) then ServerError else NoOtpFound) requests,
     None).
Proof.
  induction requests as [|[[f now] submitted] rest IH]; [reflexivity|].
  cbn [verify_all]. unfold verify_otp. destruct (code_read_fails f) eqn:E;
    cbn [apply_write]; rewrite IH; cbn [map fst]; rewrite E; reflexivity.
Qed.

Lemma filter_map_none {A B} (p : B -> bool) (g : A -> B) (l : list A) :
  (forall x, p (g x) = false) -> filter p (map g l) = [].
Proof.
  intros Hp. induction l; simpl; [reflexivity|]. rewrite Hp. assumption.
Qed.

Lemma no_code_answers (f : Faults) :
  is_invalid (if code_read_fails f then ServerError else NoOtpFound) = false
  /\ found_a_code (if code_read_fails f then ServerError else NoOtpFound) = false
  /\ is_login (if code_read_fails f then ServerError else NoOtpFound) = false.
Proof. destruct (code_read_fails f); repeat split. Qed.

(** Once the document is gone, nothing is counted any more. *)
Lemma verify_all_gone requests :
  let answers := fst (verify_all requests None) in
  List.length answers = List.length requests
  /\ filter is_invalid answers = []
  /\ filter found_a_code answers = []
  /\ filter is_login answers = []
  /\ forall i user, nth_error answers i <> Some (LoggedIn user).
Proof.
  cbv zeta. rewrite verify_all_without_code. cbn [fst].
  split; [apply length_map|].
  split; [apply filter_map_none; intros r; apply no_code_answers|].
  split; [apply filter_map_none; intros r; apply no_code_answers|].
  split; [apply filter_map_none; intros r; apply no_code_answers|].
  intros i user H. apply nth_error_In, in_map_iff in H.
  destruct H as [r [H _]]. destruct (code_read_fails (fst (fst r))); discriminate.
Qed.

(** Only a request that nothing went wrong with logs in. *)
Lemma verify_otp_login f now doc submitted user w :
  verify_otp f now doc submitted = (LoggedIn user, w) ->
  code_read_fails f = false /\ user_read_fails f = false /\ write_outcome f = Written.
Proof.
  unfold verify_otp, write_then.
  destruct (code_read_fails f); [discriminate|].
  destruct doc as [d|]; [|discriminate].
  destruct (expiresAt d <? now); [destruct (write_outcome f); discriminate|].
  destruct (negb (strict_eq (otp d) submitted)).
  - destruct (3 <=? _); destruct (write_outcome f); discriminate.
  - destruct (user_read_fails f); [discriminate|].
    destruct (write_outcome f); try discriminate. auto.
Qed.

Lemma verify_all_login_clean requests :
  forall doc i user f now submitted,
    nth_error (fst (verify_all requests doc)) i = Some (LoggedIn user) ->
    nth_error requests i = Some (f, now, submitted) ->
    code_read_fails f = false /\ user_read_fails f = false /\ write_outcome f = Written.
Proof.
  induction requests as [|[[f0 now0] submitted0] rest IH];
    intros doc i user f now submitted Ha Hr.
  - destruct i; discriminate Hr.
  - cbn [verify_all] in Ha.
    destruct (verify_otp f0 now0 doc submitted0) as [answer w] eqn:E.
    destruct (verify_all rest (apply_write w doc)) as [answers doc'] eqn:E2.
    cbn [fst] in Ha. destruct i as [|i].
    + cbn [nth_error] in Ha, Hr. injection Ha as ->. injection Hr as <- <- <-.
      exact (verify_otp_login _ _ _ _ E).
    + cbn [nth_error] in Ha, Hr.
      apply (IH (apply_write w doc) i user f now submitted); [|exact Hr].
      rewrite E2. exact Ha.
Qed.

Lemma verify_all_bounded requests :
  forall d,
    0 <= attempts d <= 2 ->
    let answers := fst (verify_all requests (Some d)) in
    List.length answers = List.length requests
    /\ Z.of_nat (List.length (filter is_invalid answers)) <= 2 - attempts d
    /\ Z.of_nat (List.length (filter found_a_code answers)) <= 3 - attempts d
    /\ (List.length (filter is_login answers) <= 1)%nat
    /\ forall i user,
         nth_error answers i = Some (LoggedIn user) ->
         user = userId d
         /\ exists f now submitted,
              nth_error requests i = Some (f, now, submitted)
              /\ strict_eq (otp d) submitted = true
              /\ now <= expiresAt d.
Proof.
  induction requests as [|[[f now] submitted] rest IH]; intros d Ha; cbv zeta.
  - cbn [verify_all fst filter List.length].
    split; [reflexivity|]. split; [lia|]. split; [lia|]. split; [lia|].
    intros [|i] user H; discriminate H.
  - (* what the rest of the requests gives, with the document kept,
       changed or gone *)
    assert (Hkeep :
              forall answer d',
                otp d' = otp d -> expiresAt d' = expiresAt d -> userId d' = userId d ->
                attempts d <= attempts d' <= 2 ->
                (is_invalid answer = true -> attempts d < attempts d') ->
                (found_a_code answer = true -> attempts d < attempts d') ->
                is_login answer = false ->
                let answers := answer :: fst (verify_all rest (Some d')) in
                List.length answers = List.length ((f, now, submitted) :: rest)
                /\ Z.of_nat (List.length (filter is_invalid answers)) <= 2 - attempts d
                /\ Z.of_nat (List.length (filter found_a_code answers)) <= 3 - attempts d
                /\ (List.length (filter is_login answers) <= 1)%nat
                /\ forall i user,
                     nth_error answers i = Some (LoggedIn user) ->
                     user = userId d
                     /\ exists f' now' submitted',
                          nth_error ((f, now, submitted) :: rest) i
                          = Some (f', now', submitted')
                          /\ strict_eq (otp d) submitted' = true
                          /\ now' <= expiresAt d).
    { intros answer d' Ho He Hu Hatt Hinv Hfound Hlogin. cbv zeta.
      destruct (IH d' ltac:(lia)) as [H0 [H1 [H2 [H3 H4]]]].
      cbn [filter List.length]. rewrite Hlogin.
      split; [rewrite H0; reflexivity|].
      split; [destruct (is_invalid answer); [specialize (Hinv eq_refl)|];
              cbn [List.length]; lia|].
      split; [destruct (found_a_code answer); [specialize (Hfound eq_refl)|];
              cbn [List.length]; lia|].
      split; [exact H3|].
      intros [|i] user H.
      - cbn [nth_error] in H. injection H as ->. discriminate Hlogin.
      - cbn [nth_error] in H |- *. destruct (H4 i user H) as [Hus Hreq].
        rewrite Ho, He, Hu in *. auto. }
    assert (Hgone :
              forall answer,
                is_invalid answer = false ->
                (forall user, answer = LoggedIn user ->
                              user = userId d /\ strict_eq (otp d) submitted = true
                              /\ now <= expiresAt d) ->
                let answers := answer :: fst (verify_all rest None) in
                List.length answers = List.length ((f, now, submitted) :: rest)
                /\ Z.of_nat (List.length (filter is_invalid answers)) <= 2 - attempts d
                /\ Z.of_nat (List.length (filter found_a_code answers)) <= 3 - attempts d
                /\ (List.length (filter is_login answers) <= 1)%nat
                /\ forall i user,
                     nth_error answers i = Some (LoggedIn user) ->
                     user = userId d
                     /\ exists f' now' submitted',
                          nth_error ((f, now, submitted) :: rest) i
                          = Some (f', now', submitted')
                          /\ strict_eq (otp d) submitted' = true
                          /\ now' <= expiresAt d).
    { intros answer Hinv Hlogin. cbv zeta.
      destruct (verify_all_gone rest) as [H0 [H1 [H2 [H3 H4]]]].
      cbn [filter List.length]. rewrite Hinv, H1, H2, H3.
      split; [rewrite H0; reflexivity|].
      split; [cbn [List.length]; lia|].
      split; [destruct (found_a_code answer); cbn [List.length]; lia|].
      split; [destruct (is_login answer); cbn [List.length]; lia|].
      intros [|i] user H.
      - cbn [nth_error] in H. injection H as ->.
        destruct (Hlogin user eq_refl) as [Hu [Hs Ht]].
        split; [exact Hu|]. exists f, now, submitted. auto.
      - cbn [nth_error] in H. destruct (H4 i user H). }
    assert (Hsame : forall answer,
               is_invalid answer = false -> found_a_code answer = false ->
               is_login answer = false ->
               let answers := answer :: fst (verify_all rest (Some d)) in
               List.length answers = List.length ((f, now, submitted) :: rest)
               /\ Z.of_nat (List.length (filter is_invalid answers)) <= 2 - attempts d
               /\ Z.of_nat (List.length (filter found_a_code answers)) <= 3 - attempts d
               /\ (List.length (filter is_login answers) <= 1)%nat
               /\ forall i user,
                    nth_error answers i = Some (LoggedIn user) ->
                    user = userId d
                    /\ exists f' now' submitted',
                         nth_error ((f, now, submitted) :: rest) i
                         = Some (f', now', submitted')
                         /\ strict_eq (otp d) submitted' = true
                         /\ now' <= expiresAt d).
    { intros answer Hinv Hfound Hlogin.
      apply (Hkeep answer d); try reflexivity; try lia; congruence. }
    cbn [verify_all]. unfold verify_otp, write_then.
    destruct (code_read_fails f); [cbn [apply_write];
      destruct (verify_all rest (Some d)) as [answers doc'] eqn:E;
      exact (Hsame ServerError eq_refl eq_refl eq_refl)|].
    destruct (Z.ltb_spec (expiresAt d) now) as [Hexp|Hlive].
    + (* expired *)
      destruct (write_outcome f); cbn [apply_write].
      * destruct (verify_all rest None) as [answers doc'] eqn:E.
        apply (Hgone OtpExpired eq_refl). intros user H; discriminate H.
      * destruct (verify_all rest (Some d)) as [answers doc'] eqn:E.
        exact (Hsame ServerError eq_refl eq_refl eq_refl).
      * destruct (verify_all rest None) as [answers doc'] eqn:E.
        apply (Hgone ServerError eq_refl). intros user H; discriminate H.
    + destruct (strict_eq (otp d) submitted) eqn:Hcode; cbn [negb].
      * (* the right code *)
        destruct (user_read_fails f); [cbn [apply_write];
          destruct (verify_all rest (Some d)) as [answers doc'] eqn:E;
          exact (Hsame ServerError eq_refl eq_refl eq_refl)|].
        destruct (write_outcome f); cbn [apply_write].
        -- destruct (verify_all rest None) as [answers doc'] eqn:E.
           apply (Hgone (LoggedIn (userId d)) eq_refl).
           intros user H. injection H as <-. auto.
        -- destruct (verify_all rest (Some d)) as [answers doc'] eqn:E.
           exact (Hsame ServerError eq_refl eq_refl eq_refl).
        -- destruct (verify_all rest None) as [answers doc'] eqn:E.
           apply (Hgone ServerError eq_refl). intros user H; discriminate H.
      * replace ((if attempts d =? 0 then 0 else attempts d) + 1)
          with (attempts d + 1) by (destruct (Z.eqb_spec (attempts d) 0); lia).
        destruct (Z.leb_spec 3 (attempts d + 1)) as [Hlast|Hmore].
        -- (* the third wrong guess *)
           destruct (write_outcome f); cbn [apply_write].
           ++ destruct (verify_all rest None) as [answers doc'] eqn:E.
              apply (Hgone TooManyAttempts eq_refl). intros user H; discriminate H.
           ++ destruct (verify_all rest (Some d)) as [answers doc'] eqn:E.
              exact (Hsame ServerError eq_refl eq_refl eq_refl).
           ++ destruct (verify_all rest None) as [answers doc'] eqn:E.
              apply (Hgone ServerError eq_refl). intros user H; discriminate H.
        -- (* a wrong guess is counted *)
           set (d' := mkOtpData (otp d) (expiresAt d) (attempts d + 1) (userId d)).
           destruct (write_outcome f).
           ++ change (apply_write (UpdateAttempts (attempts d + 1)) (Some d))
                with (Some d').
              assert (Hk := Hkeep InvalidOtp d' eq_refl eq_refl eq_refl
                                  ltac:(simpl; lia) ltac:(simpl; lia)
                                  ltac:(simpl; lia) eq_refl).
              destruct (verify_all rest (Some d')) as [answers doc'] eqn:E.
              exact Hk.
           ++ change (apply_write KeepDoc (Some d)) with (Some d).
              destruct (verify_all rest (Some d)) as [answers doc'] eqn:E.
              exact (Hsame ServerError eq_refl eq_refl eq_refl).
           ++ change (apply_write (UpdateAttempts (attempts d + 1)) (Some d))
                with (Some d').
              assert (Hk := Hkeep ServerError d' eq_refl eq_refl eq_refl
                                  ltac:(simpl; lia) ltac:(simpl; lia)
                                  ltac:(simpl; lia) eq_refl).
              destruct (verify_all rest (Some d')) as [answers doc'] eqn:E.
              exact Hk.
Qed.

(** X18.  POST /auth/verify-otp, for requests for one address handled
    one after another, whatever goes wrong with the store: every
    request gets one answer; after a code was sent, at most three
    requests get an answer that tells a code is on file (any answer
    but "No OTP found" and status 500), at most two are told "Invalid
    OTP" (the third wrong guess deletes the code), and at most one logs
    in.  The request that logs in is itself one that submitted the
    very code that was stored, no later than its expiry time, and the
    login is that of the user the code was sent to.  A request that
    ends in the handler's [catch] is answered 500 and never logs in. *)
Theorem a_code_survives_two_wrong_guesses requests d :
  attempts d = 0 ->
  let answers := fst (verify_all requests (Some d)) in
  List.length answers = List.length requests
  /\ (List.length (filter found_a_code answers) <= 3)%nat
  /\ (List.length (filter is_invalid answers) <= 2)%nat
  /\ (List.length (filter is_login answers) <= 1)%nat
  /\ forall i user,
       nth_error answers i = Some (LoggedIn user) ->
       user = userId d
       /\ exists f now submitted,
            nth_error requests i = Some (f, now, submitted)
            /\ code_read_fails f = false
            /\ user_read_fails f = false
            /\ write_outcome f = Written
            /\ strict_eq (otp d) submitted = true
            /\ now <= expiresAt d.
Proof.
  intros Ha answers.
  destruct (@verify_all_bounded requests d) as [H0 [H1 [H2 [H3 H4]]]]; [lia|].
  fold answers in H0, H1, H2, H3, H4. rewrite Ha in H1, H2.
  split; [exact H0|]. split; [lia|]. split; [lia|]. split; [exact H3|].
  intros i user H. destruct (H4 i user H) as [Hu [f [now [submitted [Hreq [Hs Ht]]]]]].
  split; [exact Hu|]. exists f, now, submitted. split; [exact Hreq|].
  destruct (@verify_all_login_clean requests (Some d) i user f now submitted H Hreq)
    as [Hc [Hr Hw]].
  auto.
Qed.

Lemma a_code_survives_two_wrong_guesses_witness :
  let d := mkOtpData (VStr "482913") 1715299800000 0 (VStr "user-7") in
  let lost := mkFaults false false NotWritten in
  let requests : list Request :=
    [(no_faults, 1715299300000, VStr "111111");
     (lost, 1715299350000, VStr "482913");
     (no_faults, 1715299400000, VStr "482913");
     (no_faults, 1715299500000, VStr "482913")] in
  fst (verify_all requests (Some d))
  = [InvalidOtp; ServerError; LoggedIn (VStr "user-7"); NoOtpFound]
  /\ (List.length (filter is_login (fst (verify_all requests (Some d)))) <= 1)%nat.
Proof.
  intros d lost requests. split; [reflexivity|].
  apply (@a_code_survives_two_wrong_guesses requests d). reflexivity.
Defined.

End OneTimeCodes.

(** ** The earlier dashboard listing *)

Section LegacyDashboard.

Lemma unique_from_readable records :
  forall seen out,
    unique_from seen records = Ret out ->
    Forall (fun r => readable r = true) records.
Proof.
  induction records as [|b rest IH]; intros seen out H; [constructor|].
  simpl in H. destruct (prop b "id") as [id|e] eqn:E; [|discriminate].
  cbn [res_bind] in H. constructor; [eapply prop_readable; eauto|].
  destruct (existsb _ seen).
  - eapply IH; eauto.
  - destruct (unique_from (seen ++ [id]) rest) as [rest'|e'] eqn:E'; [|discriminate].
    eapply IH; eauto.
Qed.

Lemma has_id_never k l :
  same_value_zero k k = false -> Forall (fun r => has_id k r = false) l.
Proof.
  intros Hk. apply Forall_forall. intros r _.
  destruct (has_id k r) eqn:E; [|reflexivity].
  apply has_id_reflexive_key in E. congruence.
Qed.

(** X19.  GET /dashboard/bookings of [index.js] keeps the first record
    of each identifier and drops cancelled records afterwards: for
    every identifier, the list holds the first record of current and
    future (in that order) that carries it, provided that record is not
    cancelled, and nothing otherwise.  The count is the length of the
    list. *)
Theorem dashboard_bookings_shows_live_first_versions currentData futureData count list :
  dashboard_bookings_respond currentData futureData = Ret (count, list) ->
  exists cs fs,
    spread (or_else (field "data" currentData) (VArr [])) = Ret cs
    /\ spread (or_else (field "data" futureData) (VArr [])) = Ret fs
    /\ (forall k, filter (has_id k) list
                  = filter active (option_list (find (has_id k) (cs ++ fs))))
    /\ count = len list.
Proof.
  unfold dashboard_bookings_respond. intros H.
  destruct (prop currentData "data") as [c|e] eqn:Ec; [|discriminate].
  rewrite (readable_prop _ "data" (prop_readable _ _ Ec)) in Ec. injection Ec as <-.
  cbn [res_bind] in H.
  destruct (spread (or_else (field "data" currentData) (VArr []))) as [cs|e];
    [|discriminate].
  cbn [res_bind] in H.
  destruct (prop futureData "data") as [f|e] eqn:Ef; [|discriminate].
  rewrite (readable_prop _ "data" (prop_readable _ _ Ef)) in Ef. injection Ef as <-.
  cbn [res_bind] in H.
  destruct (spread (or_else (field "data" futureData) (VArr []))) as [fs|e];
    [|discriminate].
  cbn [res_bind] in H.
  destruct (uniqueBookings (cs ++ fs)) as [unique|e] eqn:Eu; [|discriminate].
  cbn [res_bind] in H.
  destruct (filterM not_cancelled unique) as [live|e] eqn:El; [|discriminate].
  cbn [res_bind] in H. injection H as <- <-.
  exists cs, fs. split; [reflexivity|]. split; [reflexivity|]. split; [|reflexivity].
  apply filterM_not_cancelled_filter in El. destruct El as [-> _].
  unfold uniqueBookings in Eu.
  pose proof (unique_from_readable _ _ Eu) as Hr.
  destruct (unique_from_first Hr []) as [out [Hout Hfirst]].
  rewrite Eu in Hout. injection Hout as <-.
  intros k. rewrite filter_swap.
  destruct (same_value_zero k k) eqn:Hk.
  - rewrite (Hfirst k Hk). reflexivity.
  - rewrite (filter_none _ (@has_id_never k unique Hk)).
    destruct (find (has_id k) (cs ++ fs)) as [r|] eqn:Efind; [|reflexivity].
    apply find_some in Efind. destruct Efind as [_ Efind].
    apply has_id_reflexive_key in Efind. congruence.
Qed.

Lemma dashboard_bookings_shows_live_first_versions_witness :
  let gone := booking (VStr "B1") "cancelled" "2024-05-12" (n 120) (n 50) in
  let currentData := VObj [("data", VArr [gone; hk_in_house])] in
  let futureData := VObj [("data", VArr [b1_from_B])] in
  dashboard_bookings_respond currentData futureData = Ret (1, [hk_in_house])
  /\ exists cs fs,
      spread (or_else (field "data" currentData) (VArr [])) = Ret cs
      /\ spread (or_else (field "data" futureData) (VArr [])) = Ret fs
      /\ (forall k, filter (has_id k) [hk_in_house]
                    = filter active (option_list (find (has_id k) (cs ++ fs))))
      /\ 1 = len [hk_in_house].
Proof.
  intros gone currentData futureData.
  split; [vm_compute; reflexivity|].
  apply (@dashboard_bookings_shows_live_first_versions currentData futureData
           1 [hk_in_house]).
  vm_compute. reflexivity.
Defined.

End LegacyDashboard.
